(** * Pintos: buddy [malloc] and the signal subsystem

    A shallow embedding of [src/mlfq and buddy/malloc.c] and
    [src/signals/signal.c], and the properties of the specification
    that are settled against it.

    Conventions of the embedding.
    - C integers are [Z]; [size_t] and [int] are 32 bits wide (Pintos is
      an i386 kernel) and the wrap-around of [size_t] arithmetic is written
      with [wrap].
    - Pointers are addresses in [Z]; [NULL] is [0].
    - A C function that mutates global state takes the state and returns
      the new one; what can go wrong is an [outcome]: a failed [ASSERT]
      is [Panic], behaviour that C leaves undefined (an index outside an
      array, a shift by more than the width, an element unlinked from no
      list) is [Undef].
    - The locks and the interrupt level only order concurrent callers; the
      model is sequential, so [lock_acquire]/[lock_release] disappear and
      the interrupt level is a field of the kernel state.
    - The intrusive lists of [lib/kernel/list.c] (not among the sources)
      are lists of the addresses of their elements. *)

From stdpp Require Import gmap list.
From Stdlib Require Import ZArith Lia Bool.

Open Scope Z_scope.

(** ** Outcomes *)

Inductive outcome (A : Type) : Type :=
| Ret (a : A)
| Panic
| Undef.
Arguments Ret {A} a.
Arguments Panic {A}.
Arguments Undef {A}.

Definition obind {A B} (m : outcome A) (k : A -> outcome B) : outcome B :=
  match m with
  | Ret a => k a
  | Panic => Panic
  | Undef => Undef
  end.

Notation "'do' x <- m ; k" := (obind m (fun x => k))
  (at level 10, x pattern, m at level 100, k at level 200, only parsing).

Definition of_option {A} (o : option A) : outcome A :=
  match o with Some a => Ret a | None => Undef end.

(** [ASSERT] of [lib/debug.h]: compiled out when [NDEBUG] is defined,
    a kernel panic on a false condition otherwise. *)
Definition ASSERT (NDEBUG : bool) (c : bool) : outcome unit :=
  if NDEBUG || c then Ret tt else Panic.

(** ** Machine integers *)

Definition SIZE_BITS : Z := 32.
Definition wrap (z : Z) : Z := z mod 2 ^ SIZE_BITS.

Module Malloc.

(** Modelled from the spec: [threads/vaddr.h] is not among the sources;
    the page size is 4096 bytes (PGBITS = 12). *)
Definition PGBITS : Z := 12.
Definition PGSIZE : Z := Z.shiftl 1 PGBITS.
Definition pg_round_down (va : Z) : Z := PGSIZE * (va / PGSIZE).

Definition NULL : Z := 0.
Definition ARENA_MAGIC : Z := 0x9a548eed.

(** Number of entries of [arr]: [1 << (PGBITS - 1 - 4)]. *)
Definition ARR_LEN : nat := Z.to_nat (Z.shiftl 1 (PGBITS - 1 - 4)).

(** [sizeof (struct arena)] on i386: [unsigned magic] (4 bytes), a
    [struct list_elem] (two pointers, 8 bytes) and [int arr[128]]. *)
Definition sizeof_arena : Z := 4 + 8 + 4 * Z.of_nat ARR_LEN.

(** Length of the static array [descs]. *)
Definition DESCS_LEN : nat := 10.

Record desc := Desc {
  desc_block_size : Z;        (* size of each element in bytes *)
  free_list : list Z          (* addresses of the free blocks *)
}.

Record arena := Arena {
  magic : Z;
  arr : list Z
}.

(** The allocator's globals, the pages that hold arenas, the bytes of
    memory, and the page provider.

    Modelled from the spec: the page provider ([threads/palloc.c] is not
    among the sources) yields a whole page or null and takes pages back;
    [pool] lists the pages it can still hand out, next one first. *)
Record heap := Heap {
  descs : list desc;
  desc_cnt : nat;
  page_list : list Z;
  arenas : gmap Z arena;
  mem : Z -> Z;
  pool : list Z
}.

Definition set_descs (ds : list desc) (st : heap) : heap :=
  Heap ds (desc_cnt st) (page_list st) (arenas st) (mem st) (pool st).
Definition set_desc_cnt (n : nat) (st : heap) : heap :=
  Heap (descs st) n (page_list st) (arenas st) (mem st) (pool st).
Definition set_page_list (l : list Z) (st : heap) : heap :=
  Heap (descs st) (desc_cnt st) l (arenas st) (mem st) (pool st).
Definition set_arenas (m : gmap Z arena) (st : heap) : heap :=
  Heap (descs st) (desc_cnt st) (page_list st) m (mem st) (pool st).
Definition set_mem (m : Z -> Z) (st : heap) : heap :=
  Heap (descs st) (desc_cnt st) (page_list st) (arenas st) m (pool st).
Definition set_pool (l : list Z) (st : heap) : heap :=
  Heap (descs st) (desc_cnt st) (page_list st) (arenas st) (mem st) l.

(** *** The page provider *)

Definition palloc_get_page (st : heap) : option (Z * heap) :=
  match pool st with
  | [] => None
  | pg :: rest => Some (pg, set_pool rest st)
  end.

(** A page given back no longer holds an arena. *)
Definition palloc_free_page (pg : Z) (st : heap) : heap :=
  set_pool (pg :: pool st) (set_arenas (delete pg (arenas st)) st).

(** *** Memory *)

Definition memset (p v n : Z) (st : heap) : heap :=
  set_mem (fun x => if (p <=? x) && (x <? p + n) then v else mem st x) st.

Definition memcpy (dst src n : Z) (st : heap) : heap :=
  set_mem (fun x => if (dst <=? x) && (x <? dst + n)
                    then mem st (src + (x - dst)) else mem st x) st.

(** *** Lists of free blocks *)

Definition get_desc (d : nat) (st : heap) : outcome desc :=
  of_option (descs st !! d).

Definition list_push_back_desc (d : nat) (e : Z) (st : heap) : outcome heap :=
  do dsc <- get_desc d st;
  Ret (set_descs (<[d := Desc (desc_block_size dsc) (free_list dsc ++ [e])]> (descs st)) st).

Definition list_pop_front_desc (d : nat) (st : heap) : outcome (Z * heap) :=
  do dsc <- get_desc d st;
  match free_list dsc with
  | [] => Undef
  | e :: rest =>
      Ret (e, set_descs (<[d := Desc (desc_block_size dsc) rest]> (descs st)) st)
  end.

Definition list_empty (l : list Z) : bool :=
  match l with [] => true | _ :: _ => false end.

Definition on_free_list (e : Z) (dsc : desc) : bool :=
  existsb (Z.eqb e) (free_list dsc).

Definition unlink (e : Z) (dsc : desc) : desc :=
  Desc (desc_block_size dsc) (List.filter (fun x => negb (x =? e)) (free_list dsc)).

(** [list_remove (elem)] unlinks [elem] from the list it is on, whichever
    descriptor that list belongs to; an element that is on no list has no
    neighbours to relink. *)
Definition list_remove_block (e : Z) (st : heap) : outcome heap :=
  if existsb (on_free_list e) (descs st)
  then Ret (set_descs (map (unlink e) (descs st)) st)
  else Undef.

Definition list_remove_page (a : Z) (st : heap) : outcome heap :=
  if existsb (Z.eqb a) (page_list st)
  then Ret (set_page_list (List.filter (fun x => negb (x =? a)) (page_list st)) st)
  else Undef.

(** *** Arenas *)

Definition get_arena (a : Z) (st : heap) : outcome arena :=
  of_option (arenas st !! a).

(** Index of the SlotMap entry of block [b] of arena [a]:
    [((void * ) b - (void * ) a - sizeof ( *a)) >> 4]. *)
Definition slot_index (a b : Z) : Z :=
  Z.shiftr (wrap (b - a - sizeof_arena)) 4.

Definition arr_read (a : Z) (i : Z) (st : heap) : outcome Z :=
  do ar <- get_arena a st;
  of_option (arr ar !! Z.to_nat i).

Definition arr_write (a : Z) (i : Z) (v : Z) (st : heap) : outcome heap :=
  do ar <- get_arena a st;
  if (Z.to_nat i <? length (arr ar))%nat
  then Ret (set_arenas (<[a := Arena (magic ar) (<[Z.to_nat i := v]> (arr ar))]> (arenas st)) st)
  else Undef.

Section Build.

(** Whether the kernel is built with [NDEBUG]. *)
Variable NDEBUG : bool.

(** Returns the arena that block [b] is inside. *)
Definition block_to_arena (b : Z) (st : heap) : outcome Z :=
  let a := pg_round_down b in
  do _ <- ASSERT NDEBUG (negb (a =? NULL));
  do ar <- get_arena a st;
  do _ <- ASSERT NDEBUG (magic ar =? ARENA_MAGIC);
  Ret a.

(** Initializes the [malloc] descriptors. *)
Fixpoint malloc_init_loop (fuel : nat) (block_size : Z) (st : heap) : outcome heap :=
  match fuel with
  | O => Undef
  | S fuel' =>
      if block_size <=? PGSIZE / 2 then
        let d := desc_cnt st in
        let st1 := set_desc_cnt (S d) st in
        do _ <- ASSERT NDEBUG (S d <=? DESCS_LEN)%nat;
        do _ <- get_desc d st1;
        let st2 := set_descs (<[d := Desc block_size []]> (descs st1)) st1 in
        malloc_init_loop fuel' (wrap (block_size * 2)) st2
      else Ret st
  end.

Definition malloc_init (st : heap) : outcome heap :=
  do st1 <- malloc_init_loop (Z.to_nat SIZE_BITS) 16 st;
  Ret (set_page_list [] st1).

(** The allocator before [malloc_init]: zero-initialised statics, with
    the page provider holding [pages]. *)
Definition boot (pages : list Z) : heap :=
  Heap (replicate DESCS_LEN (Desc 0 [])) 0 [] ∅ (fun _ => 0) pages.

(** The page-allocation branch of [malloc] (lines 112-123). [None] is
    the null page. The new arena's block goes to [descs[7]]. *)
Definition malloc_refill_install (a : Z) (st : heap) : outcome heap :=
  let st1 := set_page_list (page_list st ++ [a]) st in
  let st2 := set_arenas (<[a := Arena ARENA_MAGIC (replicate ARR_LEN 0)]> (arenas st1)) st1 in
  list_push_back_desc 7 (a + sizeof_arena) st2.

Definition malloc_refill (st : heap) : outcome (option (Z * Z * heap)) :=
  match palloc_get_page st with
  | None => Ret None
  | Some (a, st0) =>
      do st3 <- malloc_refill_install a st0;
      do (b, st4) <- list_pop_front_desc 7 st3;
      Ret (Some (b, a, st4))
  end.

(** The [for] loop over the descriptors (lines 101-125): [n] iterations
    are left and [d] is the index of the current descriptor. The result
    is the descriptor the loop stopped at, the block and its arena, or
    [None] when the page provider had no page. *)
Fixpoint malloc_scan (n : nat) (d : nat) (size : Z) (st : heap)
  : outcome (option (nat * Z * Z * heap)) :=
  match n with
  | O => Undef
  | S n' =>
      do dsc <- get_desc d st;
      if (desc_block_size dsc >=? size) && negb (list_empty (free_list dsc))
      then
        do (b, st1) <- list_pop_front_desc d st;
        do a <- block_to_arena b st1;
        Ret (Some (d, b, a, st1))
      else if (S d =? desc_cnt st)%nat
      then
        do r <- malloc_refill st;
        match r with
        | None => Ret None
        | Some (b, a, st1) => Ret (Some (d, b, a, st1))
        end
      else malloc_scan n' (S d) size st
  end.

(** The splitting loop (lines 126-135). *)
Fixpoint malloc_split (d : nat) (b size : Z) (st : heap) : outcome (nat * heap) :=
  do dsc <- get_desc d st;
  if desc_block_size dsc =? 16 then Ret (d, st)
  else if desc_block_size dsc >=? wrap (2 * size) then
    match d with
    | O => Undef
    | S d' =>
        do dsc' <- get_desc d' st;
        do st1 <- list_push_back_desc d' (b + desc_block_size dsc') st;
        malloc_split d' b size st1
    end
  else Ret (d, st).

(** Obtains and returns a new block of at least [size] bytes. *)
Definition malloc (size : Z) (st : heap) : outcome (Z * heap) :=
  do _ <- ASSERT NDEBUG (size <=? PGSIZE / 2);
  if (size =? 0) || (size >? PGSIZE / 2) then Ret (NULL, st)
  else
    do r <- malloc_scan (desc_cnt st) 0 size st;
    match r with
    | None => Ret (NULL, st)
    | Some (d, b, a, st1) =>
        do (d', st2) <- malloc_split d b size st1;
        do dsc <- get_desc d' st2;
        do st3 <- arr_write a (slot_index a b) (desc_block_size dsc) st2;
        Ret (b, st3)
    end.

(** Allocates [a] times [b] bytes initialized to zeroes. *)
Definition calloc (a b : Z) (st : heap) : outcome (Z * heap) :=
  let size := wrap (a * b) in
  if (size <? a) || (size <? b) then Ret (NULL, st)
  else
    do (p, st1) <- malloc size st;
    if negb (p =? NULL) then Ret (p, memset p 0 size st1)
    else Ret (p, st1).

(** Returns the number of bytes allocated for [block]. *)
Definition block_size (block : Z) (st : heap) : outcome Z :=
  do a <- block_to_arena block st;
  do v <- arr_read a (slot_index a block) st;
  Ret (wrap v).

(** [while (b_sz > (1ul << (idx + 4))) ++idx;] with [k] the number of
    shift counts below the width that are left. *)
Fixpoint class_index_loop (k : nat) (idx : nat) (b_sz : Z) : outcome nat :=
  match k with
  | O => Undef
  | S k' =>
      if b_sz >? Z.shiftl 1 (Z.of_nat idx + 4)
      then class_index_loop k' (S idx) b_sz
      else Ret idx
  end.

Definition class_index (b_sz : Z) : outcome nat :=
  class_index_loop (Z.to_nat (SIZE_BITS - 4)) 0 b_sz.

(** Address of the buddy (line 225). *)
Definition buddy_of (a b b_sz : Z) : Z :=
  wrap (wrap (Z.lxor (wrap (wrap (b - a) - sizeof_arena)) b_sz + a) + sizeof_arena).

(** The scan of the buddy's slots (lines 226-232); the result is the
    final value of [i]. [n] bounds the iterations: the [n]-th entry
    after the first is already outside [arr]. *)
Fixpoint buddy_scan (n : nat) (a buddy b_sz i : Z) (st : heap) : outcome Z :=
  match n with
  | O => Undef
  | S n' =>
      if i <? b_sz then
        do v <- arr_read a (Z.shiftr (wrap (buddy - a - sizeof_arena + i)) 4) st;
        if negb (v =? 0) then Ret 1
        else buddy_scan n' a buddy b_sz (wrap (i + 16)) st
      else Ret i
  end.

(** The arena is one free block again (lines 221-222). *)
Definition release_arena (a : Z) (st : heap) : outcome heap :=
  do st1 <- list_remove_page a st;
  Ret (palloc_free_page a st1).

(** The coalescing loop (lines 219-246). Every iteration that goes on
    uses [descs[idx]] and increments [idx], so [k], the number of
    descriptors from [idx] on, bounds the iterations. *)
Fixpoint free_loop (k : nat) (a b b_sz : Z) (idx : nat) (st : heap) : outcome heap :=
  if b_sz =? PGSIZE / 2 then release_arena a st
  else
    let buddy := buddy_of a b b_sz in
    do i <- buddy_scan (S ARR_LEN) a buddy b_sz 0 st;
    match k with
    | O => Undef
    | S k' =>
        if i =? 1 then list_push_back_desc idx b st
        else
          let nb := if b <? buddy then b else buddy in
          do st1 <- list_remove_block buddy st;
          free_loop k' a nb (wrap (Z.shiftl b_sz 1)) (S idx) st1
    end.

(** Frees block [p]. *)
Definition free (p : Z) (st : heap) : outcome heap :=
  if p =? NULL then Ret st
  else
    let b := p in
    do a <- block_to_arena b st;
    do b_sz <- block_size b st;
    let st1 := if NDEBUG then st else memset b 0xcc b_sz st in
    do st2 <- arr_write a (slot_index a b) 0 st1;
    do idx <- class_index b_sz;
    free_loop (length (descs st2) - idx) a b b_sz idx st2.

(** Attempts to resize [old_block] to [new_size] bytes. *)
Definition realloc (old_block new_size : Z) (st : heap) : outcome (Z * heap) :=
  if new_size =? 0 then
    do st1 <- free old_block st;
    Ret (NULL, st1)
  else
    do (new_block, st1) <- malloc new_size st;
    if negb (old_block =? NULL) && negb (new_block =? NULL) then
      do old_size <- block_size old_block st1;
      let min_size := if new_size <? old_size then new_size else old_size in
      let st2 := memcpy new_block old_block min_size st1 in
      do st3 <- free old_block st2;
      Ret (new_block, st3)
    else Ret (new_block, st1).

End Build.

(** *** Vocabulary of the properties *)

(** The block at offset [off] of the payload of arena [a]. *)
Definition blk (a off : Z) : Z := a + sizeof_arena + off.

(** A page as the page provider hands them out: not null, aligned on
    PGSIZE, inside the 32-bit address space. *)
Definition valid_page (a : Z) : Prop :=
  0 < a /\ a mod PGSIZE = 0 /\ a + PGSIZE <= 2 ^ SIZE_BITS.

Definition valid_pageb (a : Z) : bool :=
  (0 <? a) && (a mod PGSIZE =? 0) && (a + PGSIZE <=? 2 ^ SIZE_BITS).

(** Size of the blocks of class [k]. *)
Definition class_size (k : nat) : Z := 16 * 2 ^ Z.of_nat k.

(** Whether some SlotMap entry of the [d] bytes from offset [off] on is
    nonzero. *)
Definition range_busy (ar : list Z) (off d : Z) : bool :=
  existsb (fun v => negb (v =? 0))
    (take (Z.to_nat (d / 16)) (drop (Z.to_nat (off / 16)) ar)).

(** The state in which [free] enters its loop: the block filled with
    0xcc in a debugging build, and its SlotMap entry cleared. *)
Definition debug_fill (NDEBUG : bool) (b d : Z) (st : heap) : heap :=
  if NDEBUG then st else memset b 0xcc d st.

Definition clear_slot (a off : Z) (ar : arena) (st : heap) : heap :=
  set_arenas (<[a := Arena (magic ar) (<[Z.to_nat (off / 16) := 0]> (arr ar))]> (arenas st)) st.

(** The descriptors as [malloc_init] leaves them. *)
Definition init_descs : list desc :=
  [Desc 16 []; Desc 32 []; Desc 64 []; Desc 128 []; Desc 256 []; Desc 512 [];
   Desc 1024 []; Desc 2048 []; Desc 0 []; Desc 0 []].

Definition std_sizes : list Z := [16; 32; 64; 128; 256; 512; 1024; 2048; 0; 0].

(** The descriptors once the 2048-byte block at [p] has been split down
    to 16 bytes: each class but the last holds the upper half cut off at
    its size. *)
Definition split_descs (p : Z) : list desc :=
  [Desc 16 [p + 16]; Desc 32 [p + 32]; Desc 64 [p + 64]; Desc 128 [p + 128];
   Desc 256 [p + 256]; Desc 512 [p + 512]; Desc 1024 [p + 1024]; Desc 2048 [];
   Desc 0 []; Desc 0 []].

Definition split_blks (a : Z) : list desc :=
  [Desc 16 [blk a 16]; Desc 32 [blk a 32]; Desc 64 [blk a 64]; Desc 128 [blk a 128];
   Desc 256 [blk a 256]; Desc 512 [blk a 512]; Desc 1024 [blk a 1024]; Desc 2048 [];
   Desc 0 []; Desc 0 []].

(** A block of class [k] at [b] lies in the payload of an arena. *)
Definition block_ok (st : heap) (k : nat) (b : Z) : Prop :=
  exists a off ar,
    b = blk a off /\ valid_page a /\ arenas st !! a = Some ar
    /\ magic ar = ARENA_MAGIC /\ length (arr ar) = ARR_LEN
    /\ 0 <= off /\ off + class_size k <= PGSIZE / 2.

Definition block_okb (st : heap) (k : nat) (b : Z) : bool :=
  let a := pg_round_down b in
  let off := b - a - sizeof_arena in
  valid_pageb a
  && match arenas st !! a with
     | Some ar => (magic ar =? ARENA_MAGIC) && (length (arr ar) =? ARR_LEN)%nat
     | None => false
     end
  && (0 <=? off) && (off + class_size k <=? PGSIZE / 2).

(** What [malloc] relies on: the descriptors are those that
    [malloc_init] sets up, the free blocks lie in arenas, and the page
    provider hands out pages. *)
Record heap_ok (st : heap) : Prop := {
  ok_sizes : desc_block_size <$> descs st = std_sizes;
  ok_cnt : desc_cnt st = 8%nat;
  ok_free : forall k dsc b,
      (k < 8)%nat -> descs st !! k = Some dsc -> b ∈ free_list dsc -> block_ok st k b;
  ok_pool : forall pg, pg ∈ pool st -> valid_page pg
}.

(** The checks of [heap_ok], as a function. *)
Definition heap_okb (st : heap) : bool :=
  bool_decide (desc_block_size <$> descs st = std_sizes)
  && (desc_cnt st =? 8)%nat
  && forallb (fun kd => forallb (block_okb st (fst kd)) (free_list (snd kd)))
       (zip (seq 0 8) (descs st))
  && forallb valid_pageb (pool st).

(** Every arena of [st] is still an arena in [st']. *)
Definition arenas_kept (st st' : heap) : Prop :=
  forall a ar, arenas st !! a = Some ar -> magic ar = ARENA_MAGIC ->
               length (arr ar) = ARR_LEN ->
  exists ar', arenas st' !! a = Some ar' /\ magic ar' = ARENA_MAGIC
              /\ length (arr ar') = ARR_LEN.

(** What the loop over the descriptors leaves: a block [b] of class [d]
    in the arena [a]. *)
Definition found (size : Z) (st : heap) (r : nat * Z * Z * heap) : Prop :=
  let '(d, b, a, st1) := r in
  (d < 8)%nat /\ size <= class_size d /\ heap_ok st1 /\ mem st1 = mem st
  /\ valid_page a
  /\ exists off ar, b = blk a off /\ 0 <= off /\ off + class_size d <= PGSIZE / 2
       /\ arenas st1 !! a = Some ar /\ magic ar = ARENA_MAGIC
       /\ length (arr ar) = ARR_LEN.

(** A successful [malloc]: the block [p] is in an arena whose SlotMap
    records the size of its class, the smallest that holds [size]
    bytes. *)
Definition allocated (NDEBUG : bool) (size : Z) (st st' : heap) (p : Z) : Prop :=
  p <> NULL /\ heap_ok st' /\ mem st' = mem st
  /\ exists k, (k < 8)%nat /\ size <= class_size k
       /\ (k = 0%nat \/ class_size k < 2 * size)
       /\ block_size NDEBUG p st' = Ret (class_size k)
       /\ exists a off ar, p = blk a off /\ valid_page a /\ 0 <= off
            /\ off + class_size k <= PGSIZE / 2
            /\ arenas st' !! a = Some ar /\ magic ar = ARENA_MAGIC
            /\ length (arr ar) = ARR_LEN
            /\ arr ar !! Z.to_nat (off / 16) = Some (class_size k).

(** *** Examples *)

(** The page provider holds the pages at 1 MB and 2 MB. *)
Definition example_page : Z := 0x100000.

(** The allocator after [malloc_init]. *)
Definition example_fresh : heap :=
  Heap init_descs 8 [] ∅ (fun _ => 0) [example_page; 0x200000].

(** The allocator after [malloc (16)]. *)
Definition example_one : heap :=
  Heap (split_blks example_page) 8 [example_page]
    (<[example_page := Arena ARENA_MAGIC (<[0%nat := 16]> (replicate ARR_LEN 0))]> ∅)
    (fun _ => 0) [0x200000].

(** [n] calls of [malloc (size)], and [free] of every block of a list,
    in a build with assertions. *)
Fixpoint malloc_n (n : nat) (size : Z) (st : heap) : outcome (list Z * heap) :=
  match n with
  | O => Ret ([], st)
  | S n' =>
      do (p, st1) <- malloc false size st;
      do (ps, st2) <- malloc_n n' size st1;
      Ret (p :: ps, st2)
  end.

Fixpoint free_all (ps : list Z) (st : heap) : outcome heap :=
  match ps with
  | [] => Ret st
  | p :: ps' => do st1 <- free false p st; free_all ps' st1
  end.

(** *** Vocabulary of the further properties *)

(** No class below [k] can serve a request of [size] bytes: its blocks
    are too small, or it has no free block. *)
Definition no_fit_below (size : Z) (st : heap) (k : nat) : Prop :=
  forall j dsc, (j < k)%nat -> descs st !! j = Some dsc ->
    desc_block_size dsc < size \/ free_list dsc = [].


(** *** The blocks of the buddy system

    A block is named by its arena, its offset in the payload and its
    class. *)
Definition tile : Type := Z * Z * nat.

(** The block lies in the payload and is aligned on its size. *)
Definition tile_ok (t : tile) : Prop :=
  let '(a, off, k) := t in
  (k <= 7)%nat /\ 0 <= off /\ off mod class_size k = 0 /\ off + class_size k <= PGSIZE / 2.

(** The addresses of the bytes of a block. *)
Definition bytes (t : tile) (x : Z) : Prop :=
  let '(a, off, k) := t in blk a off <= x < blk a off + class_size k.

(** Two blocks of the same arena share a byte. *)
Definition overlap (t1 t2 : tile) : Prop :=
  let '(a1, o1, k1) := t1 in
  let '(a2, o2, k2) := t2 in
  a1 = a2 /\ o1 < o2 + class_size k2 /\ o2 < o1 + class_size k1.

Definition in_arena (st : heap) (t : tile) : Prop :=
  let '(a, _, _) := t in is_Some (arenas st !! a).

(** The block is in use: its SlotMap entry holds its size. *)
Definition live (st : heap) (t : tile) : Prop :=
  let '(a, off, k) := t in
  exists ar, arenas st !! a = Some ar /\ 0 <= off /\ off mod 16 = 0
    /\ arr ar !! Z.to_nat (off / 16) = Some (class_size k).

(** The block is on the free list of its class. *)
Definition listed (st : heap) (t : tile) : Prop :=
  let '(a, off, k) := t in
  exists dsc, descs st !! k = Some dsc /\ blk a off ∈ free_list dsc.

(** No SlotMap entry of the block's range is set. *)
Definition quiet (st : heap) (t : tile) : Prop :=
  let '(a, off, k) := t in
  forall ar, arenas st !! a = Some ar -> range_busy (arr ar) off (class_size k) = false.

(** Arena [a], whose record is [ar], with SlotMap entry [s] set to
    [v]. *)
Definition set_slot (a : Z) (s : nat) (v : Z) (ar : arena) (st : heap) : heap :=
  set_arenas (<[a := Arena (magic ar) (<[s := v]> (arr ar))]> (arenas st)) st.

(** The blocks that make up the arenas: the blocks in use, the free
    blocks, and the block [hole] that [malloc] or [free] is working on,
    which is neither. *)
Definition is_tile (st : heap) (hole : option tile) (t : tile) : Prop :=
  tile_ok t /\ in_arena st t /\ (live st t \/ listed st t \/ hole = Some t).

(** The state of the allocator between two calls ([hole] is [None]) and
    inside [malloc] and [free]: the arenas are the listed pages, none of
    them a page of the provider; every set SlotMap entry and every
    element of a free list is a block; the blocks of an arena do not
    overlap and cover it; a free block has no entry set, is on its list
    once, and its buddy is not free as well; no block of 2048 bytes is
    ever free. *)
Record buddy_inv (hole : option tile) (st : heap) : Prop := {
  bi_sizes : desc_block_size <$> descs st = std_sizes;
  bi_cnt : desc_cnt st = 8%nat;
  bi_arenas : forall a ar, arenas st !! a = Some ar ->
      valid_page a /\ magic ar = ARENA_MAGIC /\ length (arr ar) = ARR_LEN
      /\ a ∈ page_list st;
  bi_pages : forall a, a ∈ page_list st -> is_Some (arenas st !! a);
  bi_pool : NoDup (pool st)
      /\ forall pg, pg ∈ pool st -> valid_page pg /\ arenas st !! pg = None;
  bi_live : forall a ar i v, arenas st !! a = Some ar -> arr ar !! i = Some v -> v <> 0 ->
      exists k, v = class_size k /\ tile_ok (a, 16 * Z.of_nat i, k);
  bi_listed : forall k dsc b, descs st !! k = Some dsc -> b ∈ free_list dsc ->
      (k < 7)%nat
      /\ exists a off, b = blk a off /\ is_Some (arenas st !! a) /\ tile_ok (a, off, k);
  bi_nodup : forall k dsc, descs st !! k = Some dsc -> NoDup (free_list dsc);
  bi_hole : forall t, hole = Some t -> tile_ok t /\ in_arena st t /\ ~ listed st t;
  bi_quiet : forall t, tile_ok t -> in_arena st t ->
      listed st t \/ hole = Some t -> quiet st t;
  bi_disjoint : forall t1 t2,
      is_tile st hole t1 -> is_tile st hole t2 -> overlap t1 t2 -> t1 = t2;
  bi_cover : forall a ar i, arenas st !! a = Some ar -> (i < ARR_LEN)%nat ->
      exists off k, is_tile st hole (a, off, k)
        /\ off <= 16 * Z.of_nat i < off + class_size k;
  bi_max : forall a off k, (k < 7)%nat -> tile_ok (a, off, k) -> in_arena st (a, off, k) ->
      listed st (a, off, k) -> listed st (a, Z.lxor off (class_size k), k) -> False
}.

(** The allocator after [malloc (2048)] on [example_fresh]: the payload
    of the page is one block in use. *)
Definition example_full : heap :=
  Heap init_descs 8 [example_page]
    (<[example_page := Arena ARENA_MAGIC (<[0%nat := 2048]> (replicate ARR_LEN 0))]> ∅)
    (fun _ => 0) [0x200000].

(** *** Diagnostics: [printMemory] *)

(** [cmp_addr]: the elements of a list are compared by address. *)
Definition cmp_addr (a b : Z) : bool := a <? b.

(** Modelled from the spec: the list library ([lib/kernel/list.c]) is
    not among the sources. [list_insert_ordered] puts the element
    before the first one that it is less than; [list_sort] sorts the
    list by the comparison, elements that compare equal staying in
    order. *)
Fixpoint list_insert_ordered (less : Z -> Z -> bool) (e : Z) (l : list Z) : list Z :=
  match l with
  | [] => [e]
  | x :: l' => if less e x then e :: l else x :: list_insert_ordered less e l'
  end.

Fixpoint list_sort_into (less : Z -> Z -> bool) (acc l : list Z) : list Z :=
  match l with
  | [] => acc
  | e :: l' => list_sort_into less (list_insert_ordered less e acc) l'
  end.

Definition list_sort (less : Z -> Z -> bool) (l : list Z) : list Z :=
  list_sort_into less [] l.

(** What [printf] is given. The model keeps the arguments of the calls,
    not the characters. *)
Inductive out : Type :=
  | OutPages (n : Z)
  | OutPage (n : Z)
  | OutSize (sz : Z)
  | OutBlock (off : Z)
  | OutNewline.

Section Print.

Variable NDEBUG : bool.

(** The first loop (lines 286-288): [n] descriptors from [descs[i]] on
    are left. *)
Fixpoint sort_free_lists (n i : nat) (st : heap) : outcome heap :=
  match n with
  | O => Ret st
  | S n' =>
      do dsc <- get_desc i st;
      sort_free_lists n' (S i)
        (set_descs (<[i := Desc (desc_block_size dsc) (list_sort cmp_addr (free_list dsc))]>
                      (descs st)) st)
  end.

(** The loop over a free list (lines 297-301): the blocks of arena [a]
    are printed, the others are skipped. *)
Fixpoint print_blocks (a : Z) (l : list Z) (st : heap) : outcome (list out) :=
  match l with
  | [] => Ret []
  | b :: l' =>
      do a' <- block_to_arena NDEBUG b st;
      do rest <- print_blocks a l' st;
      Ret (if negb (a =? a') then rest else OutBlock (wrap (b - a - sizeof_arena)) :: rest)
  end.

(** The loop over the descriptors (lines 295-303). *)
Fixpoint print_classes (a : Z) (n i : nat) (st : heap) : outcome (list out) :=
  match n with
  | O => Ret []
  | S n' =>
      do dsc <- get_desc i st;
      do bl <- print_blocks a (free_list dsc) st;
      do rest <- print_classes a n' (S i) st;
      Ret (OutSize (desc_block_size dsc) :: bl ++ OutNewline :: rest)
  end.

(** The loop over the arenas (lines 292-305). *)
Fixpoint print_pages (pl : list Z) (n : Z) (st : heap) : outcome (list out) :=
  match pl with
  | [] => Ret []
  | a :: pl' =>
      do cl <- print_classes a (desc_cnt st) 0 st;
      do rest <- print_pages pl' (n + 1) st;
      Ret (OutPage n :: cl ++ OutNewline :: rest)
  end.

Definition printMemory (st : heap) : outcome (list out * heap) :=
  do st1 <- sort_free_lists (desc_cnt st) 0 st;
  let n := Z.of_nat (length (page_list st1)) in
  do pages <- print_pages (page_list st1) 1 st1;
  Ret (OutPages n :: pages, st1).

End Print.

(** A descriptor with its free list sorted. *)
Definition sorted_desc (d : desc) : desc :=
  Desc (desc_block_size d) (list_sort cmp_addr (free_list d)).

(** The list is in strictly increasing order. *)
Fixpoint increasing (l : list Z) : Prop :=
  match l with
  | [] => True
  | x :: l' => (forall y, y ∈ l' -> x < y) /\ increasing l'
  end.

(** What [printMemory] reports, as a function of the state: for every
    arena of the arena list and every class, the offsets of the free
    blocks of that class in that arena. *)
Definition offsets_in (a : Z) (l : list Z) : list Z :=
  (fun b => b - a - sizeof_arena) <$> List.filter (fun b => pg_round_down b =? a) l.

Definition report_class (a : Z) (dsc : desc) : list out :=
  OutSize (desc_block_size dsc) :: (OutBlock <$> offsets_in a (free_list dsc)) ++ [OutNewline].

Fixpoint report_pages (pl : list Z) (n : Z) (ds : list desc) : list out :=
  match pl with
  | [] => []
  | a :: pl' =>
      OutPage n :: (ds ≫= report_class a) ++ OutNewline :: report_pages pl' (n + 1) ds
  end.

Definition report (st : heap) : list out :=
  OutPages (Z.of_nat (length (page_list st)))
  :: report_pages (page_list st) 1 (take (desc_cnt st) (descs st)).

End Malloc.

Module Signals.

(** Modelled from the spec: [threads/thread.h] is not among the sources.
    It declares the signal numbers, [NUM_SIGNAL], the two values of
    [enum sighandler_t] and [sigset_t]; they are taken as parameters.
    [sigset_t] is an unsigned integer type of [SIGSET_BITS] bits. *)
Record sigconfig := SigConfig {
  NUM_SIGNAL : Z;
  SIG_CHLD : Z;
  SIG_KILL : Z;
  SIG_CPU : Z;
  SIG_UBLOCK : Z;
  SIG_USER : Z;
  SIG_DFL : Z;
  SIG_IGN : Z;
  SIGSET_BITS : Z
}.

(** What the code takes for granted about these declarations: the
    signal numbers are distinct indices of [signals[]], the two handler
    values differ, and [1 << NUM_SIGNAL] is a positive [int] that a
    [sigset_t] can be compared with. *)
Record sigconfig_ok (c : sigconfig) : Prop := {
  num_signal_pos : 0 < NUM_SIGNAL c;
  num_signal_int : NUM_SIGNAL c <= 30;
  num_signal_set : NUM_SIGNAL c <= SIGSET_BITS c;
  sigset_bits_max : SIGSET_BITS c <= 32;
  sig_chld_range : 0 <= SIG_CHLD c < NUM_SIGNAL c;
  sig_kill_range : 0 <= SIG_KILL c < NUM_SIGNAL c;
  sig_cpu_range : 0 <= SIG_CPU c < NUM_SIGNAL c;
  sig_ublock_range : 0 <= SIG_UBLOCK c < NUM_SIGNAL c;
  sig_user_range : 0 <= SIG_USER c < NUM_SIGNAL c;
  sig_distinct : NoDup [SIG_CHLD c; SIG_KILL c; SIG_CPU c; SIG_UBLOCK c; SIG_USER c];
  sig_handlers : SIG_DFL c <> SIG_IGN c
}.

(** The values of [how], from the comment above [sigprocmask]. *)
Definition SIG_BLOCK : Z := 0.
Definition SIG_UNBLOCK : Z := 1.
Definition SIG_SETMASK : Z := 2.

Inductive intr_level := INTR_OFF | INTR_ON.

Inductive thread_status :=
| THREAD_RUNNING | THREAD_READY | THREAD_BLOCKED | THREAD_DYING.

(** A pending-signal slot; its [threadelem] is named by its index. *)
Record sigslot := SigSlot {
  type : Z;
  sent_by : Z
}.

(** The fields of [struct thread] that [signal.c] uses; [tid] is the
    key of the thread in the registry and [blkelem] is named by it. *)
Record thread := Thread {
  ptid : Z;
  status : thread_status;
  mask : Z;
  signals : list sigslot;
  signals_queue : list Z
}.

(** Modelled from the spec: the thread registry and the interrupt controller
    ([threads/thread.c] and [threads/interrupt.c] are not among the
    sources). [threads] maps a tid to its thread, [running] is the tid
    of the running thread. *)
Record kernel := Kernel {
  threads : gmap Z thread;
  running : Z;
  level : intr_level;
  to_unblock_list : list Z
}.

Definition set_threads (m : gmap Z thread) (st : kernel) : kernel :=
  Kernel m (running st) (level st) (to_unblock_list st).
Definition intr_set_level (l : intr_level) (st : kernel) : kernel :=
  Kernel (threads st) (running st) l (to_unblock_list st).
Definition intr_disable (st : kernel) : intr_level * kernel :=
  (level st, intr_set_level INTR_OFF st).
Definition set_to_unblock_list (l : list Z) (st : kernel) : kernel :=
  Kernel (threads st) (running st) (level st) l.

Definition thread_lookup (tid : Z) (st : kernel) : option thread :=
  threads st !! tid.

Definition running_thread (st : kernel) : outcome thread :=
  of_option (threads st !! running st).

Definition intr_on (st : kernel) : bool :=
  match level st with INTR_ON => true | INTR_OFF => false end.

Definition set_mask (m : Z) (t : thread) : thread :=
  Thread (ptid t) (status t) m (signals t) (signals_queue t).
Definition set_signals (l : list sigslot) (t : thread) : thread :=
  Thread (ptid t) (status t) (mask t) l (signals_queue t).
Definition set_signals_queue (q : list Z) (t : thread) : thread :=
  Thread (ptid t) (status t) (mask t) (signals t) q.

Section Build.

Variable NDEBUG : bool.
Variable cfg : sigconfig.

(** Conversion to [sigset_t]. *)
Definition to_sigset (z : Z) : Z := z mod 2 ^ SIGSET_BITS cfg.

(** [m >> n] for a [sigset_t] [m] and an [int] [n]: [m] is promoted to
    at least 32 bits, and a count outside the width is undefined. *)
Definition sigset_shr (m n : Z) : outcome Z :=
  if (0 <=? n) && (n <? 32) then Ret (Z.shiftr m n) else Undef.

(** [1 << n] in [int], and [((sigset_t) 1) << n] for the counts on which
    the two agree: undefined unless the result is a positive [int]. *)
Definition int_shl1 (n : Z) : outcome Z :=
  if (0 <=? n) && (n <? 31) then Ret (Z.shiftl 1 n) else Undef.

Definition Signal (signum handler : Z) (st : kernel) : outcome (Z * kernel) :=
  if signum =? SIG_KILL cfg then Ret (0, st)
  else
    do _ <- ASSERT NDEBUG (intr_on st);
    let (old_level, st1) := intr_disable st in
    do cur <- running_thread st1;
    do sh <- sigset_shr (mask cur) signum;
    let old_handler := if Z.land sh 1 =? 1 then SIG_IGN cfg else SIG_DFL cfg in
    do st2 <-
      (if negb (old_handler =? handler) then
         do bit <- int_shl1 signum;
         Ret (set_threads
                (<[running st1 := set_mask (to_sigset (Z.lxor (mask cur) bit)) cur]> (threads st1))
                st1)
       else Ret st1);
    Ret (old_handler, intr_set_level old_level st2).

Definition kill (tid sig : Z) (st : kernel) : outcome (Z * kernel) :=
  if (sig =? SIG_CHLD cfg) || (sig =? SIG_CPU cfg) || (tid <=? 2) then Ret (-1, st)
  else
    do _ <- ASSERT NDEBUG (intr_on st);
    let (old_level, st1) := intr_disable st in
    match thread_lookup tid st1 with
    | None => Ret (-1, intr_set_level old_level st1)
    | Some x =>
        do blocked <-
          (if negb (sig =? SIG_KILL cfg) then
             do sh <- sigset_shr (mask x) sig;
             Ret (Z.land sh 1 =? 1)
           else Ret false);
        if blocked then Ret (0, intr_set_level old_level st1)
        else if sig =? SIG_UBLOCK cfg then
          let st2 :=
            match status x with
            | THREAD_BLOCKED => set_to_unblock_list (to_unblock_list st1 ++ [tid]) st1
            | _ => st1
            end in
          Ret (0, intr_set_level old_level st2)
        else if (sig =? SIG_KILL cfg) && negb (ptid x =? running st1)
        then Ret (-1, intr_set_level old_level st1)
        else
          do slot <- (if 0 <=? sig then of_option (signals x !! Z.to_nat sig) else Undef);
          if negb (type slot =? -1) then
            let x' := set_signals (<[Z.to_nat sig := SigSlot (type slot) (running st1)]> (signals x)) x in
            Ret (0, intr_set_level old_level (set_threads (<[tid := x']> (threads st1)) st1))
          else
            let x' := set_signals_queue (signals_queue x ++ [sig])
                        (set_signals (<[Z.to_nat sig := SigSlot sig (running st1)]> (signals x)) x) in
            Ret (0, intr_set_level old_level (set_threads (<[tid := x']> (threads st1)) st1))
    end.

(** [set] and [oldset] are [None] for a null pointer and hold the value
    of the pointed-to [sigset_t] otherwise (two distinct objects); the
    second component of the result is [oldset] after the call. *)
Definition sigprocmask (how : Z) (set oldset : option Z) (st : kernel)
  : outcome (Z * option Z * kernel) :=
  do too_big <-
    match set with
    | Some s => do lim <- int_shl1 (NUM_SIGNAL cfg); Ret (s >=? lim)
    | None => Ret false
    end;
  if (too_big : bool) then Ret (-1, oldset, st)
  else
    do _ <- ASSERT NDEBUG (intr_on st);
    let (old_level, st1) := intr_disable st in
    do cur <- running_thread st1;
    let oldset' := match oldset with Some _ => Some (mask cur) | None => None end in
    match set with
    | None => Ret (0, oldset', intr_set_level old_level st1)
    | Some s =>
        let update m :=
          set_threads (<[running st1 := set_mask m cur]> (threads st1)) st1 in
        if how =? SIG_BLOCK then
          Ret (0, oldset', intr_set_level old_level (update (Z.lor (mask cur) s)))
        else if how =? SIG_UNBLOCK then
          do lim <- int_shl1 (NUM_SIGNAL cfg);
          Ret (0, oldset', intr_set_level old_level
                 (update (Z.land (mask cur) (Z.lxor (lim - 1) s))))
        else if how =? SIG_SETMASK then
          Ret (0, oldset', intr_set_level old_level (update s))
        else Ret (-1, oldset', intr_set_level old_level st1)
    end.

End Build.

(** *** Vocabulary of the properties *)

(** [send] is rejected. *)
Definition rejected (cfg : sigconfig) (tid sig : Z) (st : kernel) : Prop :=
  sig = SIG_CHLD cfg \/ sig = SIG_CPU cfg \/ tid <= 2 \/
  threads st !! tid = None \/
  (exists x, threads st !! tid = Some x /\ sig = SIG_KILL cfg /\ ptid x <> running st).

(** The target with the sender recorded in the slot of [sig]. *)
Definition with_sender (sig sender : Z) (slot : sigslot) (x : thread) : thread :=
  set_signals (<[Z.to_nat sig := SigSlot (type slot) sender]> (signals x)) x.

(** The target with [sig] made pending. *)
Definition with_pending (sig sender : Z) (x : thread) : thread :=
  set_signals_queue (signals_queue x ++ [sig])
    (set_signals (<[Z.to_nat sig := SigSlot sig sender]> (signals x)) x).

(** What [kill] does once the first test (line 36) has let the call
    through, the interrupts being on. *)
Definition kill_accepted (cfg : sigconfig) (tid sig : Z) (st : kernel) : outcome (Z * kernel) :=
  match threads st !! tid with
  | None => Ret (-1, st)
  | Some x =>
      do blocked <-
        (if negb (sig =? SIG_KILL cfg) then
           do sh <- sigset_shr (mask x) sig;
           Ret (Z.land sh 1 =? 1)
         else Ret false);
      if (blocked : bool) then Ret (0, st)
      else if sig =? SIG_UBLOCK cfg then
        match status x with
        | THREAD_BLOCKED => Ret (0, set_to_unblock_list (to_unblock_list st ++ [tid]) st)
        | _ => Ret (0, st)
        end
      else if (sig =? SIG_KILL cfg) && negb (ptid x =? running st) then Ret (-1, st)
      else
        do slot <- (if 0 <=? sig then of_option (signals x !! Z.to_nat sig) else Undef);
        if negb (type slot =? -1) then
          Ret (0, set_threads (<[tid := with_sender sig (running st) slot x]> (threads st)) st)
        else
          Ret (0, set_threads (<[tid := with_pending sig (running st) x]> (threads st)) st)
  end.


(** The running thread with its mask replaced. *)
Definition with_mask (m : Z) (cur : thread) (st : kernel) : kernel :=
  set_threads (<[running st := set_mask m cur]> (threads st)) st.

Definition reported (oldset : option Z) (cur : thread) : option Z :=
  match oldset with Some _ => Some (mask cur) | None => None end.

(** *** Examples *)

(** An instance of the parameters and a small kernel, for the examples:
    thread 3 is running and is the parent of thread 4, which is blocked
    and has SIG_USER (4) pending from thread 5. *)
Definition example_cfg : sigconfig := SigConfig 5 0 1 2 3 4 0 1 32.

Definition no_signals : list sigslot := replicate 5 (SigSlot (-1) 0).

Definition example_parent : thread :=
  Thread 1 THREAD_RUNNING 5 no_signals [].

Definition example_child : thread :=
  Thread 3 THREAD_BLOCKED 0 (<[4%nat := SigSlot 4 5]> no_signals) [4].

Definition example_kernel : kernel :=
  Kernel (<[3 := example_parent]> (<[4 := example_child]> ∅)) 3 INTR_ON [].

(** *** The set builders

    As in [sigprocmask], [set] is [None] for a null pointer and holds
    the value of the pointed-to [sigset_t] otherwise; the second
    component of the result is the set after the call. *)

Section SetBuilders.

Variable NDEBUG : bool.
Variable cfg : sigconfig.

Definition sigemptyset (set : option Z) (st : kernel) : outcome (Z * option Z * kernel) :=
  match set with
  | None => Ret (-1, set, st)
  | Some _ =>
      do _ <- ASSERT NDEBUG (intr_on st);
      let (old_level, st1) := intr_disable st in
      Ret (0, Some 0, intr_set_level old_level st1)
  end.

Definition sigfillset (set : option Z) (st : kernel) : outcome (Z * option Z * kernel) :=
  match set with
  | None => Ret (-1, set, st)
  | Some _ =>
      do _ <- ASSERT NDEBUG (intr_on st);
      let (old_level, st1) := intr_disable st in
      do lim <- int_shl1 (NUM_SIGNAL cfg);
      Ret (0, Some (to_sigset cfg (lim - 1)), intr_set_level old_level st1)
  end.

Definition sigaddset (set : option Z) (signum : Z) (st : kernel)
  : outcome (Z * option Z * kernel) :=
  match set with
  | Some s =>
      if signum >=? NUM_SIGNAL cfg then Ret (-1, set, st)
      else
        do _ <- ASSERT NDEBUG (intr_on st);
        let (old_level, st1) := intr_disable st in
        do bit <- int_shl1 signum;
        Ret (0, Some (to_sigset cfg (Z.lor s bit)), intr_set_level old_level st1)
  | None => Ret (-1, set, st)
  end.

Definition sigdelset (set : option Z) (signum : Z) (st : kernel)
  : outcome (Z * option Z * kernel) :=
  match set with
  | Some s =>
      if signum >=? NUM_SIGNAL cfg then Ret (-1, set, st)
      else
        do _ <- ASSERT NDEBUG (intr_on st);
        let (old_level, st1) := intr_disable st in
        do bit <- int_shl1 signum;
        Ret (0, Some (to_sigset cfg (Z.land s (Z.lnot bit))), intr_set_level old_level st1)
  | None => Ret (-1, set, st)
  end.

End SetBuilders.

(** A value of [sigset_t] with no bit outside the signal numbers. *)
Definition valid_set (cfg : sigconfig) (s : Z) : Prop :=
  0 <= s < 2 ^ NUM_SIGNAL cfg.

(** The kernel with another thread running. *)
Definition switch_to (tid : Z) (st : kernel) : kernel :=
  Kernel (threads st) tid (level st) (to_unblock_list st).

(** Every pending signal of the thread is on its queue, once: the
    queue has no duplicates and holds exactly the numbers of the
    occupied slots. *)
Definition queue_ok (x : thread) : Prop :=
  NoDup (signals_queue x)
  /\ forall s, s ∈ signals_queue x <->
       0 <= s /\ exists slot, signals x !! Z.to_nat s = Some slot /\ type slot <> -1.
(** The ways a [kill] that returns can end. *)
Inductive kill_case (cfg : sigconfig) (tid sig : Z) (st : kernel) : Z -> kernel -> Prop :=
| kill_refused : kill_case cfg tid sig st (-1) st
| kill_dropped : kill_case cfg tid sig st 0 st
| kill_unblocks x :
    threads st !! tid = Some x -> sig = SIG_UBLOCK cfg -> status x = THREAD_BLOCKED ->
    kill_case cfg tid sig st 0 (set_to_unblock_list (to_unblock_list st ++ [tid]) st)
| kill_resent x slot :
    threads st !! tid = Some x -> 0 <= sig ->
    signals x !! Z.to_nat sig = Some slot -> type slot <> -1 ->
    kill_case cfg tid sig st 0
      (set_threads (<[tid := with_sender sig (running st) slot x]> (threads st)) st)
| kill_pending x slot :
    threads st !! tid = Some x -> 0 <= sig ->
    signals x !! Z.to_nat sig = Some slot -> type slot = -1 ->
    kill_case cfg tid sig st 0
      (set_threads (<[tid := with_pending sig (running st) x]> (threads st)) st).

End Signals.

(** * Shared lemmas *)

Lemma obind_ret {A B} (a : A) (k : A -> outcome B) : obind (Ret a) k = k a.
Proof. reflexivity. Qed.

Lemma ASSERT_true (n : bool) : ASSERT n true = Ret tt.
Proof. unfold ASSERT. rewrite orb_true_r. reflexivity. Qed.

(** A nonnegative number is below [2 ^ n] exactly when it has no bit
    at or above [n]. *)
Lemma lt_pow2_bits (a n : Z) :
  0 <= a -> 0 <= n ->
  (a < 2 ^ n <-> forall i, n <= i -> Z.testbit a i = false).
Proof.
  intros Ha Hn. split.
  - intros Hlt i Hi. rewrite <- (Z.mod_small a (2 ^ n)) by lia.
    apply Z.mod_pow2_bits_high. lia.
  - intros Hbits.
    assert (E : a mod 2 ^ n = a).
    { apply Z.bits_inj'. intros i Hi.
      destruct (Z.lt_ge_cases i n).
      - apply Z.mod_pow2_bits_low. lia.
      - rewrite Z.mod_pow2_bits_high by lia. symmetry. apply Hbits. lia. }
    rewrite <- E. apply Z.mod_pos_bound. apply Z.pow_pos_nonneg; lia.
Qed.

(** * Properties of the allocator *)

Module MallocSpec.
Import Malloc.

Lemma PGSIZE_eq : PGSIZE = 4096.
Proof. reflexivity. Qed.

Lemma sizeof_arena_eq : sizeof_arena = 524.
Proof. reflexivity. Qed.

Lemma wrap_small (z : Z) : 0 <= z < 2 ^ SIZE_BITS -> wrap z = z.
Proof. intros H. unfold wrap. apply Z.mod_small. exact H. Qed.

Lemma pg_round_down_blk (a off : Z) :
  valid_page a -> 0 <= off < PGSIZE - sizeof_arena ->
  pg_round_down (blk a off) = a.
Proof.
  intros (Hpos & Hal & Hhi) Hoff. unfold pg_round_down, blk.
  rewrite PGSIZE_eq, sizeof_arena_eq in *.
  apply Z.mod_divide in Hal; [|lia]. destruct Hal as [q ->].
  replace (q * 4096 + 524 + off) with (q * 4096 + (524 + off)) by lia.
  rewrite Z.div_add_l by lia. rewrite (Z.div_small (524 + off)) by lia. lia.
Qed.

Lemma slot_index_blk (a off : Z) :
  0 <= off < 2 ^ SIZE_BITS -> slot_index a (blk a off) = off / 16.
Proof.
  intros H. unfold slot_index, blk.
  replace (a + sizeof_arena + off - a - sizeof_arena) with off by lia.
  rewrite wrap_small by exact H. apply Z.shiftr_div_pow2. lia.
Qed.

Lemma lxor_bound (a b n : Z) :
  0 <= n -> 0 <= a < 2 ^ n -> 0 <= b < 2 ^ n -> 0 <= Z.lxor a b < 2 ^ n.
Proof.
  intros Hn Ha Hb.
  assert (H0 : 0 <= Z.lxor a b) by (apply Z.lxor_nonneg; lia).
  split; [exact H0|]. apply lt_pow2_bits; [lia|lia|].
  intros i Hi. rewrite Z.lxor_spec.
  rewrite (proj1 (lt_pow2_bits a n ltac:(lia) Hn) ltac:(lia) i Hi).
  rewrite (proj1 (lt_pow2_bits b n ltac:(lia) Hn) ltac:(lia) i Hi).
  reflexivity.
Qed.

Lemma buddy_of_blk (a off d : Z) :
  valid_page a -> 0 <= off < PGSIZE / 2 -> 0 <= d < PGSIZE / 2 ->
  buddy_of a (blk a off) d = blk a (Z.lxor off d).
Proof.
  intros (Hpos & Hal & Hhi) Hoff Hd. unfold buddy_of, blk.
  pose proof (lxor_bound off d 11 ltac:(lia) Hoff Hd) as Hx.
  rewrite PGSIZE_eq, sizeof_arena_eq in *.
  change (2 ^ SIZE_BITS) with 4294967296 in *. change (2 ^ 11) with 2048 in *.
  change (4096 / 2) with 2048 in *.
  replace (a + 524 + off - a) with (524 + off) by lia.
  rewrite (wrap_small (524 + off)) by (change (2 ^ SIZE_BITS) with 4294967296; lia).
  replace (524 + off - 524) with off by lia.
  rewrite (wrap_small off) by (change (2 ^ SIZE_BITS) with 4294967296; lia).
  rewrite (wrap_small (Z.lxor off d + a)) by (change (2 ^ SIZE_BITS) with 4294967296; lia).
  rewrite wrap_small by (change (2 ^ SIZE_BITS) with 4294967296; lia).
  lia.
Qed.

Lemma block_to_arena_blk (n : bool) (st : heap) (a off : Z) (ar : arena) :
  valid_page a -> 0 <= off < PGSIZE - sizeof_arena ->
  arenas st !! a = Some ar -> magic ar = ARENA_MAGIC ->
  block_to_arena n (blk a off) st = Ret a.
Proof.
  intros Hp Hoff Ha Hm. unfold block_to_arena.
  rewrite (pg_round_down_blk a off Hp Hoff).
  destruct Hp as (Hpos & _).
  assert ((a =? NULL) = false) as -> by (apply Z.eqb_neq; unfold NULL; lia).
  simpl. rewrite ASSERT_true. simpl.
  unfold get_arena. rewrite Ha. simpl. rewrite Hm, Z.eqb_refl, ASSERT_true. reflexivity.
Qed.

Lemma class_index_class_size (k : nat) :
  (k < 28)%nat -> class_index (class_size k) = Ret k.
Proof.
  intros Hk. unfold class_index, class_size.
  assert (H : forall j i, (i + j = 28)%nat -> (i <= k)%nat ->
            class_index_loop j i (16 * 2 ^ Z.of_nat k) = Ret k).
  { induction j as [|j IH]; intros i Hij Hik; [lia|]. simpl.
    rewrite Z.shiftl_1_l.
    replace (16 * 2 ^ Z.of_nat k) with (2 ^ (Z.of_nat k + 4))
      by (rewrite Z.pow_add_r by lia; lia).
    destruct (Z.gtb_spec (2 ^ (Z.of_nat k + 4)) (2 ^ (Z.of_nat i + 4))) as [Hgt|Hle].
    - apply Z.pow_lt_mono_r_iff in Hgt; [|lia|lia].
      replace (2 ^ (Z.of_nat k + 4)) with (16 * 2 ^ Z.of_nat k)
        by (rewrite Z.pow_add_r by lia; lia).
      apply IH; lia.
    - apply Z.pow_le_mono_r_iff in Hle; [|lia|lia]. f_equal. lia. }
  apply (H 28%nat 0%nat); lia.
Qed.

Lemma arr_read_blk (st : heap) (a : Z) (ar : arena) (i : Z) :
  arenas st !! a = Some ar ->
  arr_read a i st = of_option (arr ar !! Z.to_nat i).
Proof. intros Ha. unfold arr_read, get_arena. rewrite Ha. reflexivity. Qed.

Lemma buddy_scan_from (st : heap) (a : Z) (ar : arena) (s c : nat) :
  arenas st !! a = Some ar ->
  length (arr ar) = ARR_LEN ->
  (s + c <= ARR_LEN)%nat ->
  forall (m n j : nat), (m < n)%nat -> (j + m = c)%nat ->
  buddy_scan n a (blk a (16 * Z.of_nat s)) (16 * Z.of_nat c) (16 * Z.of_nat j) st
  = Ret (if existsb (fun v => negb (v =? 0)) (take m (drop (s + j) (arr ar)))
         then 1 else 16 * Z.of_nat c).
Proof.
  intros Ha Hlen Hsc.
  assert (HL : Z.of_nat ARR_LEN = 128) by reflexivity.
  induction m as [|m IH]; intros n j Hn Hj.
  - destruct n as [|n]; [lia|]. simpl.
    destruct (Z.ltb_spec (16 * Z.of_nat j) (16 * Z.of_nat c)); [lia|].
    f_equal. lia.
  - destruct n as [|n]; [lia|]. simpl.
    destruct (Z.ltb_spec (16 * Z.of_nat j) (16 * Z.of_nat c)); [|lia].
    rewrite (arr_read_blk st a ar _ Ha).
    replace (blk a (16 * Z.of_nat s) - a - sizeof_arena + 16 * Z.of_nat j)
      with (Z.of_nat (s + j) * 2 ^ 4) by (unfold blk; lia).
    rewrite wrap_small by (change (2 ^ SIZE_BITS) with 4294967296; lia).
    rewrite Z.shiftr_div_pow2, Z.div_mul, Nat2Z.id by lia.
    destruct (lookup_lt_is_Some_2 (arr ar) (s + j)) as [v Hv]; [lia|].
    rewrite Hv. simpl. rewrite (drop_S _ _ _ Hv). simpl.
    destruct (negb (v =? 0)); [reflexivity|]. simpl.
    replace (16 * Z.of_nat j + 16) with (16 * Z.of_nat (S j)) by lia.
    rewrite wrap_small by (change (2 ^ SIZE_BITS) with 4294967296; lia).
    rewrite (IH n (S j)) by lia.
    replace (s + S j)%nat with (S (s + j)) by lia. reflexivity.
Qed.

Lemma buddy_scan_spec (st : heap) (a : Z) (ar : arena) (boff d : Z) :
  arenas st !! a = Some ar ->
  length (arr ar) = ARR_LEN ->
  0 <= boff -> boff mod 16 = 0 -> 0 <= d -> d mod 16 = 0 ->
  boff + d <= PGSIZE / 2 ->
  buddy_scan (S ARR_LEN) a (blk a boff) d 0 st
  = Ret (if range_busy (arr ar) boff d then 1 else d).
Proof.
  intros Ha Hlen Hb Hb16 Hd Hd16 Hsum.
  change (PGSIZE / 2) with 2048 in Hsum.
  assert (HL : Z.of_nat ARR_LEN = 128) by reflexivity.
  apply Z.mod_divide in Hb16; [|lia]. destruct Hb16 as [s Hs].
  apply Z.mod_divide in Hd16; [|lia]. destruct Hd16 as [c Hc].
  pose proof (buddy_scan_from st a ar (Z.to_nat s) (Z.to_nat c) Ha Hlen ltac:(lia)
                (Z.to_nat c) (S ARR_LEN) 0%nat ltac:(lia) ltac:(lia)) as H.
  rewrite !Z2Nat.id in H by lia.
  replace (16 * s) with boff in H by lia.
  replace (16 * c) with d in H by lia.
  change (16 * Z.of_nat 0) with 0 in H. rewrite H.
  unfold range_busy. subst boff d. rewrite !Z.div_mul by lia.
  rewrite Nat.add_0_r. reflexivity.
Qed.

Lemma class_size_bounds (k : nat) :
  (k <= 7)%nat -> 16 <= class_size k <= PGSIZE / 2 /\ class_size k mod 16 = 0.
Proof.
  intros Hk. unfold class_size.
  do 8 (destruct k as [|k]; [vm_compute; intuition discriminate|]). lia.
Qed.


Lemma class_size_S (k : nat) : class_size (S k) = 2 * class_size k.
Proof. unfold class_size. rewrite Nat2Z.inj_succ, Z.pow_succ_r by lia. lia. Qed.

Section FreeLoop.

Variable NDEBUG : bool.

Lemma free_loop_release (k : nat) (a b : Z) (idx : nat) (st : heap) :
  free_loop k a b (PGSIZE / 2) idx st = release_arena a st.
Proof. destruct k; reflexivity. Qed.

Lemma free_loop_S (k : nat) (a b b_sz : Z) (idx : nat) (st : heap) :
  free_loop (S k) a b b_sz idx st =
  if b_sz =? PGSIZE / 2 then release_arena a st
  else
    do i <- buddy_scan (S ARR_LEN) a (buddy_of a b b_sz) b_sz 0 st;
    if i =? 1 then list_push_back_desc idx b st
    else
      do st1 <- list_remove_block (buddy_of a b b_sz) st;
      free_loop k a (if b <? buddy_of a b b_sz then b else buddy_of a b b_sz)
        (wrap (Z.shiftl b_sz 1)) (S idx) st1.
Proof. reflexivity. Qed.

Lemma free_loop_step (k : nat) (a off d : Z) (idx : nat) (st : heap) (ar : arena) :
  valid_page a ->
  arenas st !! a = Some ar ->
  length (arr ar) = ARR_LEN ->
  16 <= d < PGSIZE / 2 -> d mod 16 = 0 ->
  0 <= off -> off mod 16 = 0 -> off < PGSIZE / 2 ->
  Z.lxor off d + d <= PGSIZE / 2 ->
  free_loop (S k) a (blk a off) d idx st =
  if range_busy (arr ar) (Z.lxor off d) d
  then list_push_back_desc idx (blk a off) st
  else
    do st1 <- list_remove_block (blk a (Z.lxor off d)) st;
    free_loop k a (blk a (Z.min off (Z.lxor off d))) (2 * d) (S idx) st1.
Proof.
  intros Hp Ha Hlen Hd Hd16 Ho Ho16 Hoff Hb.
  change (PGSIZE / 2) with 2048 in *.
  pose proof (lxor_bound off d 11 ltac:(lia) ltac:(change (2 ^ 11) with 2048; lia)
                ltac:(change (2 ^ 11) with 2048; lia)) as Hx.
  change (2 ^ 11) with 2048 in Hx.
  assert (Hx16 : Z.lxor off d mod 16 = 0).
  { change 16 with (2 ^ 4). apply Z.bits_inj'. intros i Hi.
    rewrite Z.bits_0. destruct (Z.lt_ge_cases i 4).
    - rewrite Z.mod_pow2_bits_low by lia. rewrite Z.lxor_spec.
      assert (Hbit : forall z, z mod 2 ^ 4 = 0 -> Z.testbit z i = false).
      { intros z Hz. rewrite <- (Z.mod_pow2_bits_low z 4 i) by lia.
        rewrite Hz. apply Z.bits_0. }
      rewrite (Hbit off), (Hbit d) by assumption. reflexivity.
    - apply Z.mod_pow2_bits_high. lia. }
  rewrite free_loop_S.
  destruct (Z.eqb_spec d (PGSIZE / 2)) as [E|_];
    [change (PGSIZE / 2) with 2048 in E; lia|].
  rewrite buddy_of_blk by (change (PGSIZE / 2) with 2048; try assumption; lia).
  rewrite (buddy_scan_spec st a ar (Z.lxor off d) d) by
    (change (PGSIZE / 2) with 2048; try assumption; lia).
  simpl.
  destruct (range_busy (arr ar) (Z.lxor off d) d).
  - reflexivity.
  - destruct (Z.eqb_spec d 1); [lia|].
    assert (Hw : wrap (Z.shiftl d 1) = 2 * d).
    { rewrite Z.shiftl_mul_pow2 by lia.
      rewrite wrap_small by (change (2 ^ SIZE_BITS) with 4294967296; lia). lia. }
    rewrite Hw.
    assert (Hm : (if blk a off <? blk a (Z.lxor off d) then blk a off
                  else blk a (Z.lxor off d)) = blk a (Z.min off (Z.lxor off d))).
    { unfold blk. destruct (Z.ltb_spec (a + sizeof_arena + off)
                              (a + sizeof_arena + Z.lxor off d)); f_equal; lia. }
    rewrite Hm. reflexivity.
Qed.

Lemma free_enter (st : heap) (a off : Z) (k : nat) (ar : arena) :
  valid_page a ->
  arenas st !! a = Some ar -> magic ar = ARENA_MAGIC -> length (arr ar) = ARR_LEN ->
  (k <= 7)%nat ->
  0 <= off -> off + class_size k <= PGSIZE / 2 ->
  arr ar !! Z.to_nat (off / 16) = Some (class_size k) ->
  free NDEBUG (blk a off) st =
  free_loop (length (descs st) - k) a (blk a off) (class_size k) k
    (clear_slot a off ar (debug_fill NDEBUG (blk a off) (class_size k) st)).
Proof.
  intros Hp Ha Hm Hlen Hk Ho Hsum Hentry.
  destruct (class_size_bounds k Hk) as [Hd _].
  change (PGSIZE / 2) with 2048 in *.
  unfold free.
  assert ((blk a off =? NULL) = false) as ->.
  { apply Z.eqb_neq. destruct Hp as (? & _). unfold blk, NULL.
    rewrite sizeof_arena_eq. lia. }
  assert (Hoff : 0 <= off < PGSIZE - sizeof_arena)
    by (rewrite PGSIZE_eq, sizeof_arena_eq; lia).
  rewrite (block_to_arena_blk NDEBUG st a off ar Hp Hoff Ha Hm). simpl.
  unfold block_size.
  rewrite (block_to_arena_blk NDEBUG st a off ar Hp Hoff Ha Hm). simpl.
  rewrite slot_index_blk by (change (2 ^ SIZE_BITS) with 4294967296; lia).
  rewrite (arr_read_blk st a ar _ Ha), Hentry. simpl.
  rewrite wrap_small by (change (2 ^ SIZE_BITS) with 4294967296; lia).
  unfold arr_write, get_arena.
  assert (Hars : arenas (if NDEBUG then st else memset (blk a off) 204 (class_size k) st)
                 = arenas st) by (destruct NDEBUG; reflexivity).
  rewrite Hars, Ha. simpl.
  apply lookup_lt_Some in Hentry.
  destruct (Nat.ltb_spec (Z.to_nat (off / 16)) (length (arr ar))); [|lia]. simpl.
  rewrite class_index_class_size by lia. simpl.
  unfold clear_slot, debug_fill. rewrite Hars.
  destruct NDEBUG; reflexivity.
Qed.

End FreeLoop.

Lemma lxor_pow2 (off j : Z) :
  0 <= j -> 0 <= off ->
  Z.lxor off (2 ^ j) = if Z.testbit off j then off - 2 ^ j else off + 2 ^ j.
Proof.
  intros Hj Ho.
  assert (Hclear : forall x, Z.testbit x j = false -> Z.land x (2 ^ j) = 0).
  { intros x Hx. apply Z.bits_inj'. intros i Hi.
    rewrite Z.land_spec, Z.bits_0.
    destruct (Z.eq_dec i j) as [->|Hne].
    - by rewrite Hx.
    - rewrite Z.pow2_bits_false by lia. apply andb_false_r. }
  destruct (Z.testbit off j) eqn:Hb.
  - set (o' := Z.lxor off (2 ^ j)).
    assert (Hb' : Z.testbit o' j = false).
    { unfold o'. rewrite Z.lxor_spec, Hb, Z.pow2_bits_true by lia. reflexivity. }
    pose proof (Z.add_nocarry_lxor o' (2 ^ j) (Hclear o' Hb')) as Hadd.
    unfold o' in Hadd at 2. rewrite Z.lxor_assoc, Z.lxor_nilpotent, Z.lxor_0_r in Hadd.
    lia.
  - symmetry. apply Z.add_nocarry_lxor. by apply Hclear.
Qed.

Lemma buddy_offset (off : Z) (k : nat) :
  (k <= 6)%nat -> 0 <= off -> off mod class_size k = 0 ->
  off + class_size k <= PGSIZE / 2 ->
  let d := class_size k in
  let b := Z.lxor off d in
  (b = off + d \/ b = off - d)
  /\ 0 <= b /\ b + d <= PGSIZE / 2 /\ b mod d = 0
  /\ Z.min off b mod class_size (S k) = 0
  /\ Z.min off b + class_size (S k) <= PGSIZE / 2.
Proof.
  intros Hk Ho Hal Hsum d b.
  assert (Hd : d = 2 ^ (Z.of_nat k + 4)).
  { unfold d, class_size. rewrite Z.pow_add_r by lia. lia. }
  assert (Hb : b = if Z.testbit off (Z.of_nat k + 4) then off - d else off + d).
  { unfold b. rewrite Hd. apply lxor_pow2; lia. }
  assert (Hdpos : 0 < d) by (rewrite Hd; apply Z.pow_pos_nonneg; lia).
  apply Z.mod_divide in Hal; [|fold d; lia]. destruct Hal as [q Hq]. fold d in Hq.
  assert (Hbit : Z.testbit off (Z.of_nat k + 4) = Z.odd q).
  { rewrite Hq, Hd, Z.mul_pow2_bits by lia.
    rewrite Z.sub_diag. apply Z.bit0_odd. }
  rewrite Hbit in Hb. rewrite class_size_S. fold d.
  change (PGSIZE / 2) with 2048 in *. fold d in Hsum.
  assert (Hq0 : 0 <= q) by nia.
  assert (Hd11 : exists c, 2048 = 2 * c * d /\ 0 < c).
  { exists (2 ^ (6 - Z.of_nat k)). split; [|apply Z.pow_pos_nonneg; lia].
    rewrite Hd, <- Z.mul_assoc, <- Z.pow_add_r by lia.
    replace (6 - Z.of_nat k + (Z.of_nat k + 4)) with 10 by lia. reflexivity. }
  destruct Hd11 as (c & Hc & Hcpos).
  destruct (Z.odd q) eqn:Hodd.
  - apply Z.odd_spec in Hodd. destruct Hodd as [r Hr].
    assert (Hmin : Z.min off b = 2 * d * r) by nia.
    rewrite Hmin. split; [right; exact Hb|].
    split; [nia|]. split; [nia|]. split.
    { rewrite Hb, Hq. replace (q * d - d) with ((q - 1) * d) by lia. apply Z.mod_mul. lia. }
    split; [rewrite Z.mul_comm; apply Z.mod_mul; lia|]. nia.
  - assert (Hev : Z.even q = true) by (rewrite <- Z.negb_odd, Hodd; reflexivity).
    apply Z.even_spec in Hev. destruct Hev as [r Hr].
    assert (Hmin : Z.min off b = 2 * d * r) by nia.
    rewrite Hmin. split; [left; exact Hb|].
    split; [nia|].
    assert (r < c) by nia.
    split; [nia|]. split.
    { rewrite Hb, Hq. replace (q * d + d) with ((q + 1) * d) by lia. apply Z.mod_mul. lia. }
    split; [rewrite Z.mul_comm; apply Z.mod_mul; lia|]. nia.
Qed.

Lemma on_free_list_elem (e : Z) (dsc : desc) :
  on_free_list e dsc = true <-> e ∈ free_list dsc.
Proof.
  unfold on_free_list. rewrite existsb_exists, list_elem_of_In. split.
  - intros (x & Hx & E). apply Z.eqb_eq in E. by subst.
  - intros H. exists e. split; [exact H|apply Z.eqb_refl].
Qed.



Lemma release_arena_listed (a : Z) (st : heap) :
  a ∈ page_list st ->
  release_arena a st =
  Ret (palloc_free_page a
         (set_page_list (List.filter (fun x => negb (x =? a)) (page_list st)) st)).
Proof.
  intros H. unfold release_arena, list_remove_page.
  assert (existsb (Z.eqb a) (page_list st) = true) as ->.
  { apply existsb_exists. exists a. split; [by apply list_elem_of_In|apply Z.eqb_refl]. }
  reflexivity.
Qed.

(** [range_busy] looks at every slot of the range. *)
Lemma range_busy_spec (ar : list Z) (off d : Z) :
  0 <= off -> 0 <= d -> off mod 16 = 0 -> d mod 16 = 0 ->
  (range_busy ar off d = true <->
   exists i v, off <= 16 * i < off + d /\ ar !! Z.to_nat i = Some v /\ v <> 0).
Proof.
  intros Ho Hd Ho16 Hd16.
  apply Z.mod_divide in Ho16; [|lia]. destruct Ho16 as [s ->].
  apply Z.mod_divide in Hd16; [|lia]. destruct Hd16 as [c ->].
  unfold range_busy. rewrite !Z.div_mul by lia. rewrite existsb_exists. split.
  - intros (v & Hin & Hv). apply list_elem_of_In, list_elem_of_lookup in Hin.
    destruct Hin as [j Hj]. apply lookup_take_Some in Hj as [Hj Hlt].
    rewrite lookup_drop in Hj.
    exists (s + Z.of_nat j), v. split; [lia|]. split.
    + rewrite Z2Nat.inj_add, Nat2Z.id by lia. exact Hj.
    + intros ->. discriminate.
  - intros (i & v & Hi & Hl & Hv). exists v. split.
    + apply list_elem_of_In, list_elem_of_lookup. exists (Z.to_nat (i - s)).
      apply lookup_take_Some. split; [|lia].
      rewrite lookup_drop. rewrite <- Z2Nat.inj_add by lia.
      replace (s + (i - s)) with i by lia. exact Hl.
    + by destruct (Z.eqb_spec v 0).
Qed.

Section ClaimFree.

Variable NDEBUG : bool.


End ClaimFree.

Lemma malloc_init_boot (n : bool) (pages : list Z) :
  malloc_init n (boot pages) = Ret (Heap init_descs 8 [] ∅ (fun _ => 0) pages).
Proof. destruct n; reflexivity. Qed.

Lemma scan1 (n : bool) (pg : Z) (rest : list Z) (ars : gmap Z arena) (m : Z -> Z) :
  malloc_scan n 8 0 16 (Heap init_descs 8 [] ars m (pg :: rest))
  = Ret (Some (7%nat, pg + sizeof_arena, pg,
          Heap init_descs 8 [pg] (<[pg := Arena ARENA_MAGIC (replicate ARR_LEN 0)]> ars) m rest)).
Proof. reflexivity. Qed.

Lemma split1 (p : Z) (pl : list Z) (ars : gmap Z arena) (m : Z -> Z) (rest : list Z) :
  malloc_split 7 p 16 (Heap init_descs 8 pl ars m rest)
  = Ret (0%nat, Heap (split_descs p) 8 pl ars m rest).
Proof. reflexivity. Qed.

Lemma blk_0 (a : Z) : a + sizeof_arena = blk a 0.
Proof. unfold blk. lia. Qed.

Lemma blk_add (a off n : Z) : blk a off + n = blk a (off + n).
Proof. unfold blk. lia. Qed.

Lemma blk_eqb (a x y : Z) : (blk a x =? blk a y) = (x =? y).
Proof.
  unfold blk. destruct (Z.eqb_spec x y) as [->|Hne].
  - apply Z.eqb_refl.
  - apply Z.eqb_neq. lia.
Qed.

Lemma split_descs_blks (a : Z) : split_descs (a + sizeof_arena) = split_blks a.
Proof. unfold split_descs, split_blks. rewrite blk_0, !blk_add. reflexivity. Qed.

Lemma free_loop_merge (n : nat) (a off d : Z) (k : nat) (ds : list desc) (cnt : nat)
    (pl : list Z) (ars : gmap Z arena) (m : Z -> Z) (pool : list Z) (ar : arena) :
  valid_page a ->
  ars !! a = Some ar ->
  length (arr ar) = ARR_LEN ->
  16 <= d < PGSIZE / 2 -> d mod 16 = 0 ->
  0 <= off -> off mod 16 = 0 -> off < PGSIZE / 2 ->
  Z.lxor off d + d <= PGSIZE / 2 ->
  range_busy (arr ar) (Z.lxor off d) d = false ->
  free_loop (S n) a (blk a off) d k (Heap ds cnt pl ars m pool) =
  if existsb (on_free_list (blk a (Z.lxor off d))) ds
  then free_loop n a (blk a (Z.min off (Z.lxor off d))) (2 * d) (S k)
         (Heap (map (unlink (blk a (Z.lxor off d))) ds) cnt pl ars m pool)
  else Undef.
Proof.
  intros Hp Ha Hlen Hd Hd16 Ho Ho16 Hoff Hb Hfree.
  rewrite (free_loop_step n a off d k _ ar) by assumption.
  rewrite Hfree. unfold list_remove_block. simpl descs.
  destruct (existsb (on_free_list (blk a (Z.lxor off d))) ds); reflexivity.
Qed.

Ltac eval_eqb :=
  repeat match goal with
         | |- context [?x =? ?y] =>
             let b := eval vm_compute in (x =? y) in change (x =? y) with b
         end.

Ltac merge_step ar :=
  match goal with
  | |- free_loop (S ?n) ?a (blk ?a ?off) ?d ?k (Heap ?ds ?cnt ?pl ?ars ?m ?pool) = _ =>
      let boff := eval vm_compute in (Z.lxor off d) in
      let mn := eval vm_compute in (Z.min off boff) in
      let d2 := eval vm_compute in (2 * d) in
      rewrite (free_loop_merge n a off d k ds cnt pl ars m pool ar);
      [ change (Z.lxor off d) with boff; change (Z.min off boff) with mn;
        change (2 * d) with d2;
        unfold on_free_list, unlink;
        cbn [existsb map List.filter free_list desc_block_size orb negb];
        rewrite ?blk_eqb; eval_eqb;
        cbn [existsb map List.filter free_list desc_block_size orb negb]
      | try assumption; try reflexivity; try (vm_compute; intuition discriminate) .. ]
  end.

Lemma coalesce_all (pg : Z) (ar : arena) (pl : list Z) (ars : gmap Z arena)
    (m : Z -> Z) (rest : list Z) :
  valid_page pg ->
  ars !! pg = Some ar ->
  arr ar = replicate ARR_LEN 0 ->
  free_loop 10 pg (blk pg 0) 16 0 (Heap (split_blks pg) 8 pl ars m rest)
  = release_arena pg (Heap init_descs 8 pl ars m rest).
Proof.
  intros Hp Ha Hzero.
  assert (Hlen : length (arr ar) = ARR_LEN) by (rewrite Hzero; reflexivity).
  unfold split_blks.
  do 7 (merge_step ar; [|rewrite Hzero; reflexivity]).
  apply free_loop_release.
Qed.

Section ClaimSplit.

Variable NDEBUG : bool.

(** C1: on a fresh allocator [malloc (16)] takes one page from the page
    provider, appends it to the arena list, puts its 2048-byte block on
    the list of the last class and splits it down: the upper halves go
    to the free lists, one block each, and the block returned is the
    first slot of the payload, with SlotMap entry 16. Freeing that block
    merges the buddies back through every class and gives the page back:
    the arena list is empty again. *)
Theorem C1_split_coalesce (pg : Z) (rest : list Z) (st0 : heap) :
  valid_page pg ->
  descs st0 = init_descs ->
  desc_cnt st0 = 8%nat ->
  page_list st0 = [] ->
  pool st0 = pg :: rest ->
  let p := pg + sizeof_arena in
  exists sti st1 st2,
    malloc_refill_install pg (set_pool rest st0) = Ret sti
    /\ page_list sti = [pg]
    /\ free_list <$> (descs sti !! 7%nat) = Some [p]
    /\ malloc NDEBUG 16 st0 = Ret (p, st1)
    /\ page_list st1 = [pg]
    /\ pool st1 = rest
    /\ descs st1 =
       [Desc 16 [p + 16]; Desc 32 [p + 32]; Desc 64 [p + 64]; Desc 128 [p + 128];
        Desc 256 [p + 256]; Desc 512 [p + 512]; Desc 1024 [p + 1024]; Desc 2048 [];
        Desc 0 []; Desc 0 []]
    /\ arenas st1 !! pg = Some (Arena ARENA_MAGIC (<[0%nat := 16]> (replicate ARR_LEN 0)))
    /\ slot_index pg p = 0
    /\ block_size NDEBUG p st1 = Ret 16
    /\ free NDEBUG p st1 = Ret st2
    /\ page_list st2 = []
    /\ pool st2 = pg :: rest
    /\ arenas st2 !! pg = None
    /\ descs st2 = init_descs.
Proof.
  intros Hp Hds Hcnt Hpl Hpool p.
  destruct st0 as [ds cnt pl ars m pool0]. simpl in Hds, Hcnt, Hpl, Hpool. subst.
  set (zeros := replicate ARR_LEN 0).
  set (ars1 := <[pg := Arena ARENA_MAGIC (<[0%nat := 16]> zeros)]>
                 (<[pg := Arena ARENA_MAGIC zeros]> ars)).
  set (st1 := Heap (split_descs p) 8 [pg] ars1 m rest).
  assert (Hslot : slot_index pg p = 0).
  { unfold p. rewrite blk_0, slot_index_blk by (vm_compute; intuition discriminate).
    reflexivity. }
  assert (Hmalloc : malloc NDEBUG 16 (Heap init_descs 8 [] ars m (pg :: rest)) = Ret (p, st1)).
  { unfold malloc. change (16 <=? PGSIZE / 2) with true.
    rewrite ASSERT_true, obind_ret.
    change ((16 =? 0) || (16 >? PGSIZE / 2)) with false. cbv iota.
    change (desc_cnt (Heap init_descs 8 [] ars m (pg :: rest))) with 8%nat.
    rewrite scan1, obind_ret. fold p. rewrite split1, obind_ret.
    change (get_desc 0 (Heap (split_descs p) 8 [pg]
                          (<[pg := Arena ARENA_MAGIC (replicate ARR_LEN 0)]> ars) m rest))
      with (Ret (Desc 16 [p + 16])).
    rewrite obind_ret, Hslot. unfold arr_write, get_arena. simpl arenas.
    rewrite lookup_insert_eq. reflexivity. }
  assert (Har : arenas st1 !! pg = Some (Arena ARENA_MAGIC (<[0%nat := 16]> zeros))).
  { unfold st1, ars1. simpl. apply lookup_insert_eq. }
  set (ar0 := Arena ARENA_MAGIC (<[0%nat := 0]> (<[0%nat := 16]> zeros))).
  set (st2 := palloc_free_page pg
                (Heap init_descs 8 [] (<[pg := ar0]> ars1)
                   (mem (debug_fill NDEBUG p 16 st1)) rest)).
  assert (Hfree : free NDEBUG p st1 = Ret st2).
  { unfold p. rewrite blk_0.
    rewrite (free_enter NDEBUG st1 pg 0 0 _ Hp Har) by
      (try reflexivity; try lia; vm_compute; intuition discriminate).
    change (class_size 0) with 16.
    change (length (descs st1) - 0)%nat with 10%nat.
    assert (Hst : clear_slot pg 0 (Arena ARENA_MAGIC (<[0%nat := 16]> zeros))
                    (debug_fill NDEBUG (blk pg 0) 16 st1)
                  = Heap (split_blks pg) 8 [pg] (<[pg := ar0]> ars1)
                      (mem (debug_fill NDEBUG (blk pg 0) 16 st1)) rest).
    { unfold clear_slot, debug_fill, st1, p. rewrite split_descs_blks.
      destruct NDEBUG; reflexivity. }
    rewrite Hst.
    rewrite (coalesce_all pg ar0) by
      (try assumption; try reflexivity; apply lookup_insert_eq).
    unfold release_arena, list_remove_page. simpl page_list.
    cbn [existsb List.filter]. rewrite Z.eqb_refl. simpl.
    unfold st2, p. rewrite blk_0. reflexivity. }
  exists (Heap [Desc 16 []; Desc 32 []; Desc 64 []; Desc 128 []; Desc 256 [];
                Desc 512 []; Desc 1024 []; Desc 2048 [p]; Desc 0 []; Desc 0 []]
            8 [pg] (<[pg := Arena ARENA_MAGIC zeros]> ars) m rest), st1, st2.
  split; [reflexivity|]. split; [reflexivity|]. split; [reflexivity|].
  split; [exact Hmalloc|]. split; [reflexivity|]. split; [reflexivity|].
  split; [reflexivity|]. split; [exact Har|]. split; [exact Hslot|].
  split.
  { unfold block_size, p. rewrite blk_0.
    rewrite (block_to_arena_blk NDEBUG st1 pg 0 _ Hp) by
      (try exact Har; try reflexivity; vm_compute; intuition discriminate).
    simpl. rewrite slot_index_blk by (vm_compute; intuition discriminate).
    rewrite (arr_read_blk st1 pg _ _ Har). reflexivity. }
  split; [exact Hfree|]. split; [reflexivity|]. split; [reflexivity|].
  split; [|reflexivity].
  unfold st2, palloc_free_page. simpl. apply lookup_delete_eq.
Qed.

End ClaimSplit.

Ltac split_conj := repeat match goal with |- _ /\ _ => split end.

Lemma desc_at (st : heap) (k : nat) :
  desc_block_size <$> descs st = std_sizes -> (k < 8)%nat ->
  exists dsc, descs st !! k = Some dsc /\ desc_block_size dsc = class_size k.
Proof.
  intros Hs Hk.
  assert (H : (desc_block_size <$> descs st) !! k = Some (class_size k)).
  { rewrite Hs. do 8 (destruct k as [|k]; [reflexivity|]). lia. }
  rewrite list_lookup_fmap in H.
  destruct (descs st !! k) as [dsc|]; [|discriminate].
  exists dsc. split; [reflexivity|]. by inversion H.
Qed.

Lemma sizes_insert (ds : list desc) (k : nat) (dsc : desc) (l : list Z) :
  ds !! k = Some dsc ->
  desc_block_size <$> <[k := Desc (desc_block_size dsc) l]> ds = desc_block_size <$> ds.
Proof.
  intros H. rewrite list_fmap_insert. simpl.
  apply list_insert_id. rewrite list_lookup_fmap, H. reflexivity.
Qed.

Lemma class_size_mono (i j : nat) : (i <= j)%nat -> class_size i <= class_size j.
Proof.
  intros H. unfold class_size. apply Z.mul_le_mono_nonneg_l; [lia|].
  apply Z.pow_le_mono_r; lia.
Qed.

Lemma class_size_pos (k : nat) : 16 <= class_size k.
Proof.
  unfold class_size. assert (0 < 2 ^ Z.of_nat k) by (apply Z.pow_pos_nonneg; lia). lia.
Qed.

Lemma arenas_kept_refl (st st' : heap) : arenas st' = arenas st -> arenas_kept st st'.
Proof. intros E a ar Ha Hm Hl. exists ar. by rewrite E. Qed.

Lemma block_ok_kept (st st' : heap) (k : nat) (b : Z) :
  arenas_kept st st' -> block_ok st k b -> block_ok st' k b.
Proof.
  intros Hk (a & off & ar & -> & Hp & Ha & Hm & Hl & Ho & Hs).
  destruct (Hk a ar Ha Hm Hl) as (ar' & Ha' & Hm' & Hl').
  by exists a, off, ar'.
Qed.

Lemma heap_ok_frame (st st' : heap) :
  heap_ok st ->
  desc_block_size <$> descs st' = desc_block_size <$> descs st ->
  desc_cnt st' = desc_cnt st ->
  (forall k dsc' b, (k < 8)%nat -> descs st' !! k = Some dsc' -> b ∈ free_list dsc' ->
     (exists dsc, descs st !! k = Some dsc /\ b ∈ free_list dsc) \/ block_ok st' k b) ->
  (forall pg, pg ∈ pool st' -> pg ∈ pool st) ->
  arenas_kept st st' ->
  heap_ok st'.
Proof.
  intros [Hs Hc Hf Hp] Hs' Hc' Hf' Hp' Hk. split.
  - by rewrite Hs'.
  - by rewrite Hc'.
  - intros k dsc' b Hlt Hd Hb.
    destruct (Hf' k dsc' b Hlt Hd Hb) as [(dsc & Hd0 & Hb0)|H]; [|exact H].
    apply (block_ok_kept st st'); [exact Hk|]. by apply (Hf k dsc b).
  - intros pg Hpg. apply Hp, Hp', Hpg.
Qed.

Lemma push_ok (st : heap) (k : nat) (e : Z) :
  heap_ok st -> (k < 8)%nat -> block_ok st k e ->
  exists st', list_push_back_desc k e st = Ret st'
    /\ heap_ok st' /\ arenas st' = arenas st /\ mem st' = mem st
    /\ page_list st' = page_list st /\ pool st' = pool st.
Proof.
  intros Hok Hk He.
  destruct (desc_at st k (ok_sizes st Hok) Hk) as (dsc & Hd & Hsz).
  unfold list_push_back_desc, get_desc. rewrite Hd. simpl.
  eexists. split; [reflexivity|]. split; [|by simpl].
  apply (heap_ok_frame st); try done.
  - simpl. by apply sizes_insert.
  - simpl. intros k' dsc' b Hk' Hd' Hb.
    destruct (Nat.eq_dec k' k) as [->|Hne].
    + rewrite list_lookup_insert_eq in Hd' by (by apply lookup_lt_Some in Hd).
      inversion Hd'; subst dsc'. simpl in Hb.
      apply elem_of_app in Hb as [Hb|Hb].
      * left. by exists dsc.
      * apply list_elem_of_singleton in Hb. subst b. right.
        apply (block_ok_kept st); [by apply arenas_kept_refl|exact He].
    + rewrite list_lookup_insert_ne in Hd' by congruence. left. by exists dsc'.
  - by apply arenas_kept_refl.
Qed.

Lemma pop_ok (st : heap) (k : nat) (dsc : desc) (b : Z) (l : list Z) :
  heap_ok st -> (k < 8)%nat -> descs st !! k = Some dsc -> free_list dsc = b :: l ->
  exists st', list_pop_front_desc k st = Ret (b, st')
    /\ heap_ok st' /\ arenas st' = arenas st /\ mem st' = mem st
    /\ page_list st' = page_list st /\ pool st' = pool st
    /\ block_ok st k b.
Proof.
  intros Hok Hk Hd Hl.
  unfold list_pop_front_desc, get_desc. rewrite Hd. simpl. rewrite Hl.
  eexists. split; [reflexivity|]. split; [|split; [|split; [|split; [|split]]]];
    try reflexivity.
  - apply (heap_ok_frame st); try done.
    + simpl. by apply sizes_insert.
    + simpl. intros k' dsc' b' Hk' Hd' Hb. left.
      destruct (Nat.eq_dec k' k) as [->|Hne].
      * rewrite list_lookup_insert_eq in Hd' by (by apply lookup_lt_Some in Hd).
        inversion Hd'; subst dsc'. simpl in Hb.
        exists dsc. split; [exact Hd|]. rewrite Hl. apply elem_of_cons. by right.
      * rewrite list_lookup_insert_ne in Hd' by congruence. by exists dsc'.
    + by apply arenas_kept_refl.
  - apply (ok_free st Hok k dsc b Hk Hd). rewrite Hl. apply elem_of_cons. by left.
Qed.

Lemma malloc_split_eq (d : nat) (b size : Z) (st : heap) :
  malloc_split d b size st =
  do dsc <- get_desc d st;
  if desc_block_size dsc =? 16 then Ret (d, st)
  else if desc_block_size dsc >=? wrap (2 * size) then
    match d with
    | O => Undef
    | S d' =>
        do dsc' <- get_desc d' st;
        do st1 <- list_push_back_desc d' (b + desc_block_size dsc') st;
        malloc_split d' b size st1
    end
  else Ret (d, st).
Proof. destruct d; reflexivity. Qed.

Lemma split_ok (a off size : Z) (ar : arena) :
  valid_page a -> 0 <= off -> 0 < size <= PGSIZE / 2 ->
  forall (d : nat) (st : heap),
  heap_ok st -> (d < 8)%nat -> size <= class_size d ->
  off + class_size d <= PGSIZE / 2 ->
  arenas st !! a = Some ar -> magic ar = ARENA_MAGIC -> length (arr ar) = ARR_LEN ->
  exists d' st', malloc_split d (blk a off) size st = Ret (d', st')
    /\ (d' <= d)%nat /\ size <= class_size d'
    /\ (d' = 0%nat \/ class_size d' < 2 * size)
    /\ heap_ok st' /\ arenas st' = arenas st /\ mem st' = mem st
    /\ page_list st' = page_list st /\ pool st' = pool st.
Proof.
  intros Hp Ho Hsize. change (PGSIZE / 2) with 2048 in *.
  induction d as [|d IH]; intros st Hok Hd Hle Hfit Ha Hm Hl.
  - exists 0%nat, st. rewrite malloc_split_eq.
    destruct (desc_at st 0 (ok_sizes st Hok) Hd) as (dsc & Hdsc & Hsz).
    unfold get_desc. rewrite Hdsc. simpl. rewrite Hsz. simpl.
    split_conj; try done; try lia.
  - rewrite malloc_split_eq.
    destruct (desc_at st (S d) (ok_sizes st Hok) Hd) as (dsc & Hdsc & Hsz).
    unfold get_desc at 1. rewrite Hdsc. simpl. rewrite Hsz.
    pose proof (class_size_pos d) as Hpos. rewrite class_size_S in *.
    destruct (Z.eqb_spec (2 * class_size d) 16); [lia|].
    rewrite wrap_small by (change (2 ^ SIZE_BITS) with 4294967296; lia).
    destruct (Z.geb_spec (2 * class_size d) (2 * size)) as [Hge|Hlt].
    + destruct (desc_at st d (ok_sizes st Hok) ltac:(lia)) as (dsc' & Hdsc' & Hsz').
      unfold get_desc. rewrite Hdsc'. simpl. rewrite Hsz'. rewrite blk_add.
      destruct (push_ok st d (blk a (off + class_size d)) Hok ltac:(lia))
        as (st1 & Hpush & Hok1 & Hars & Hmem & Hpl & Hpool).
      { exists a, (off + class_size d), ar. change (PGSIZE / 2) with 2048.
        split_conj; try done; lia. }
      rewrite Hpush. simpl.
      destruct (IH st1 Hok1 ltac:(lia) ltac:(lia) ltac:(lia)) as
        (d' & st' & Hsp & Hd' & Hle' & Hstop & Hok' & Hars' & Hmem' & Hpl' & Hpool');
        [by rewrite Hars|done|done|].
      exists d', st'. split; [exact Hsp|].
      split_conj; try done; try lia; congruence.
    + exists (S d), st. rewrite class_size_S.
      split_conj; try done; try lia.
Qed.

Lemma arenas_kept_insert (st st' : heap) (a : Z) (ar : arena) :
  arenas st' = <[a := ar]> (arenas st) ->
  magic ar = ARENA_MAGIC -> length (arr ar) = ARR_LEN ->
  arenas_kept st st'.
Proof.
  intros E Hm Hl a0 ar0 Ha0 Hm0 Hl0. rewrite E.
  destruct (Z.eq_dec a a0) as [->|Hne].
  - exists ar. by rewrite lookup_insert_eq.
  - exists ar0. by rewrite lookup_insert_ne.
Qed.

Lemma refill_ok (st : heap) (dsc : desc) :
  heap_ok st -> descs st !! 7%nat = Some dsc -> free_list dsc = [] ->
  match pool st with
  | [] => malloc_refill st = Ret None
  | pg :: rest =>
      exists st1, malloc_refill st = Ret (Some (blk pg 0, pg, st1))
        /\ heap_ok st1 /\ mem st1 = mem st /\ valid_page pg
        /\ arenas st1 !! pg = Some (Arena ARENA_MAGIC (replicate ARR_LEN 0))
        /\ descs st1 = descs st /\ page_list st1 = page_list st ++ [pg]
        /\ pool st1 = rest
  end.
Proof.
  intros Hok Hd Hl. unfold malloc_refill, palloc_get_page.
  destruct (pool st) as [|pg rest] eqn:Hpool; [reflexivity|].
  unfold malloc_refill_install, list_push_back_desc, get_desc. simpl.
  rewrite Hd. simpl. unfold list_pop_front_desc, get_desc. simpl.
  rewrite list_lookup_insert_eq by (by apply lookup_lt_Some in Hd). simpl.
  rewrite Hl. simpl. rewrite list_insert_insert_eq.
  assert (Hid : <[7%nat := Desc (desc_block_size dsc) []]> (descs st) = descs st).
  { apply list_insert_id. rewrite Hd. destruct dsc; simpl in *; by subst. }
  rewrite Hid, blk_0.
  eexists. split; [reflexivity|].
  assert (Hp : valid_page pg).
  { apply (ok_pool st Hok). rewrite Hpool. apply elem_of_cons. by left. }
  split_conj; try done; simpl.
  - apply (heap_ok_frame st); try done; simpl.
    + intros k dsc' b Hk Hd' Hb. left. by exists dsc'.
    + intros pg' Hpg'. rewrite Hpool. apply elem_of_cons. by right.
    + by apply (arenas_kept_insert st _ pg (Arena ARENA_MAGIC (replicate ARR_LEN 0))).
  - apply lookup_insert_eq.
Qed.

Section MallocReturns.

Variable NDEBUG : bool.

Lemma malloc_scan_S (n d : nat) (size : Z) (st : heap) :
  malloc_scan NDEBUG (S n) d size st =
  do dsc <- get_desc d st;
  if (desc_block_size dsc >=? size) && negb (list_empty (free_list dsc))
  then
    do (b, st1) <- list_pop_front_desc d st;
    do a <- block_to_arena NDEBUG b st1;
    Ret (Some (d, b, a, st1))
  else if (S d =? desc_cnt st)%nat
  then
    do r <- malloc_refill st;
    match r with
    | None => Ret None
    | Some (b, a, st1) => Ret (Some (d, b, a, st1))
    end
  else malloc_scan NDEBUG n (S d) size st.
Proof. reflexivity. Qed.

Lemma scan_ok (size : Z) (st : heap) :
  heap_ok st -> 0 < size <= PGSIZE / 2 ->
  forall n d, (d + n = 8)%nat -> (0 < n)%nat ->
  exists r, malloc_scan NDEBUG n d size st = Ret r
    /\ match r with
       | None => pool st = []
       | Some f => found size st f
       end.
Proof.
  intros Hok Hsize. change (PGSIZE / 2) with 2048 in *.
  induction n as [|n IH]; intros d Hdn Hn; [lia|].
  rewrite malloc_scan_S.
  destruct (desc_at st d (ok_sizes st Hok) ltac:(lia)) as (dsc & Hdsc & Hsz).
  unfold get_desc at 1. rewrite Hdsc. cbn [of_option obind]. rewrite Hsz.
  destruct ((class_size d >=? size) && negb (list_empty (free_list dsc))) eqn:Hc.
  - apply andb_true_iff in Hc as [Hge Hne].
    destruct (free_list dsc) as [|b l] eqn:Hl; [discriminate|].
    destruct (pop_ok st d dsc b l Hok ltac:(lia) Hdsc Hl)
      as (st1 & Hpop & Hok1 & Hars & Hmem & Hpl & Hpool & Hb).
    rewrite Hpop, obind_ret.
    destruct Hb as (a & off & ar & -> & Hp & Ha & Hm & Hlen & Ho & Hfit).
    change (PGSIZE / 2) with 2048 in Hfit.
    pose proof (class_size_pos d).
    rewrite (block_to_arena_blk NDEBUG st1 a off ar Hp) by
      first [done | rewrite PGSIZE_eq, sizeof_arena_eq; lia | by rewrite Hars].
    simpl. eexists. split; [reflexivity|]. simpl.
    apply Z.geb_le in Hge.
    split_conj; try done; try lia.
    exists off, ar. rewrite Hars. by split_conj.
  - rewrite (ok_cnt st Hok).
    destruct (Nat.eqb_spec (S d) 8) as [E|Hne].
    + assert (d = 7%nat) by lia. subst d.
      assert (Hempty : free_list dsc = []).
      { destruct (Z.geb_spec (class_size 7) size) as [_|Hlt];
          [|change (class_size 7) with 2048 in Hlt; lia].
        simpl in Hc. by destruct (free_list dsc). }
      pose proof (refill_ok st dsc Hok Hdsc Hempty) as Hr.
      destruct (pool st) as [|pg rest].
      * rewrite Hr. simpl. by eexists.
      * destruct Hr as (st1 & -> & Hok1 & Hmem & Hp & Ha & _).
        simpl. eexists. split; [reflexivity|]. simpl.
        split_conj; try done; try lia.
        { change (class_size 7) with 2048. lia. }
        eexists 0, _. split_conj; try done.
    + apply IH; lia.
Qed.

Lemma malloc_ok (size : Z) (st : heap) :
  heap_ok st -> 0 < size <= PGSIZE / 2 ->
  exists p st', malloc NDEBUG size st = Ret (p, st')
    /\ ((p = NULL /\ st' = st /\ pool st = []) \/ allocated NDEBUG size st st' p).
Proof.
  intros Hok Hsize. unfold malloc.
  destruct (Z.leb_spec size (PGSIZE / 2)); [|lia]. rewrite ASSERT_true, obind_ret.
  destruct (Z.eqb_spec size 0); [lia|].
  destruct (Z.gtb_spec size (PGSIZE / 2)); [lia|]. simpl.
  rewrite (ok_cnt st Hok).
  destruct (scan_ok size st Hok Hsize 8 0 ltac:(lia) ltac:(lia)) as (r & -> & Hr).
  simpl. destruct r as [[[[d b] a] st1]|].
  2: { exists NULL, st. split; [reflexivity|]. by left. }
  destruct Hr as (Hd & Hle & Hok1 & Hmem1 & Hp & off & ar & -> & Ho & Hfit & Ha & Hm & Hlen).
  destruct (split_ok a off size ar Hp Ho Hsize d st1 Hok1 Hd Hle Hfit Ha Hm Hlen)
    as (d' & st2 & -> & Hd' & Hle' & Hstop & Hok2 & Hars2 & Hmem2 & Hpl2 & Hpool2).
  simpl.
  destruct (desc_at st2 d' (ok_sizes st2 Hok2) ltac:(lia)) as (dsc & Hdsc & Hsz).
  unfold get_desc. rewrite Hdsc. simpl. rewrite Hsz.
  change (PGSIZE / 2) with 2048 in *.
  pose proof (class_size_pos d). pose proof (class_size_pos d').
  rewrite slot_index_blk by (change (2 ^ SIZE_BITS) with 4294967296; lia).
  unfold arr_write, get_arena. rewrite Hars2, Ha. simpl.
  assert (Hidx : (Z.to_nat (off / 16) < length (arr ar))%nat).
  { rewrite Hlen. change ARR_LEN with (Z.to_nat 128).
    apply Z2Nat.inj_lt; [apply Z.div_pos; lia|lia|].
    apply Z.div_lt_upper_bound; lia. }
  destruct (Nat.ltb_spec (Z.to_nat (off / 16)) (length (arr ar))); [|lia].
  eexists _, _. split; [reflexivity|]. right.
  set (ar' := Arena (magic ar) (<[Z.to_nat (off / 16) := class_size d']> (arr ar))).
  set (st3 := set_arenas (<[a := ar']> (arenas st1)) st2).
  assert (Ha3 : arenas st3 !! a = Some ar') by apply lookup_insert_eq.
  assert (Hlen' : length (arr ar') = ARR_LEN) by (simpl; by rewrite length_insert).
  assert (Hfit' : off + class_size d' <= 2048).
  { pose proof (class_size_mono d' d Hd'). lia. }
  unfold allocated. split_conj.
  - unfold blk, NULL. destruct Hp as (? & _). rewrite sizeof_arena_eq. lia.
  - apply (heap_ok_frame st2); try done.
    + intros k dsc' b' Hk Hd0 Hb. left. by exists dsc'.
    + apply (arenas_kept_insert st2 st3 a ar'); [by rewrite Hars2|done|done].
  - simpl. congruence.
  - exists d'. split_conj; try done; try lia.
    + unfold block_size.
      rewrite (block_to_arena_blk NDEBUG st3 a off ar' Hp) by
        first [done | rewrite PGSIZE_eq, sizeof_arena_eq; lia].
      simpl. rewrite slot_index_blk by (change (2 ^ SIZE_BITS) with 4294967296; lia).
      rewrite (arr_read_blk st3 a ar' _ Ha3). simpl.
      rewrite list_lookup_insert_eq by exact Hidx. simpl.
      rewrite wrap_small; [reflexivity|].
      pose proof (class_size_mono d' 7 ltac:(lia)) as Hmx.
      change (class_size 7) with 2048 in Hmx.
      change (2 ^ SIZE_BITS) with 4294967296. lia.
    + exists a, off, ar'. split_conj; try done.
      simpl. by apply list_lookup_insert_eq.
Qed.

End MallocReturns.

Lemma valid_pageb_ok (a : Z) : valid_pageb a = true -> valid_page a.
Proof.
  unfold valid_pageb, valid_page. rewrite !andb_true_iff.
  intros [[H1 H2] H3].
  apply Z.ltb_lt in H1. apply Z.eqb_eq in H2. apply Z.leb_le in H3. done.
Qed.

Lemma block_okb_ok (st : heap) (k : nat) (b : Z) :
  block_okb st k b = true -> block_ok st k b.
Proof.
  unfold block_okb. rewrite !andb_true_iff. intros [[[Hp Ha] Ho] Hfit].
  destruct (arenas st !! pg_round_down b) as [ar|] eqn:Har; [|discriminate].
  apply andb_true_iff in Ha as [Hm Hl].
  apply Z.eqb_eq in Hm. apply Nat.eqb_eq in Hl.
  apply Z.leb_le in Ho, Hfit.
  exists (pg_round_down b), (b - pg_round_down b - sizeof_arena), ar.
  split_conj; try done.
  - unfold blk. lia.
  - by apply valid_pageb_ok.
Qed.

Lemma heap_okb_ok (st : heap) : heap_okb st = true -> heap_ok st.
Proof.
  unfold heap_okb. rewrite !andb_true_iff. intros [[[Hs Hc] Hf] Hp].
  apply bool_decide_eq_true in Hs. apply Nat.eqb_eq in Hc.
  rewrite forallb_forall in Hf, Hp.
  split; try done.
  - intros k dsc b Hk Hd Hb.
    apply block_okb_ok.
    assert (Hin : In (k, dsc) (zip (seq 0 8) (descs st))).
    { apply list_elem_of_In, list_elem_of_lookup. exists k.
      rewrite lookup_zip_with, lookup_seq_lt by exact Hk. simpl. by rewrite Hd. }
    specialize (Hf _ Hin). simpl in Hf. rewrite forallb_forall in Hf.
    apply Hf. by apply list_elem_of_In.
  - intros pg Hpg. apply valid_pageb_ok, Hp. by apply list_elem_of_In.
Qed.

Lemma free_loop_0 (a b b_sz : Z) (idx : nat) (st : heap) :
  free_loop 0 a b b_sz idx st =
  if b_sz =? PGSIZE / 2 then release_arena a st
  else do i <- buddy_scan (S ARR_LEN) a (buddy_of a b b_sz) b_sz 0 st; Undef.
Proof. reflexivity. Qed.



Section ClaimsAlloc.

Variable NDEBUG : bool.



Lemma malloc_zero (st : heap) : malloc NDEBUG 0 st = Ret (NULL, st).
Proof. unfold malloc. simpl. by rewrite ASSERT_true. Qed.

Lemma malloc_too_big (size : Z) (st : heap) :
  PGSIZE / 2 < size ->
  malloc NDEBUG size st = if NDEBUG then Ret (NULL, st) else Panic.
Proof.
  intros H. unfold malloc, ASSERT.
  destruct (Z.leb_spec size (PGSIZE / 2)); [lia|].
  destruct NDEBUG; [|reflexivity]. simpl.
  destruct (Z.gtb_spec size (PGSIZE / 2)); [|lia].
  by rewrite orb_true_r.
Qed.

(** C4, amended: [malloc (0)] returns null and changes nothing; for a
    size above PGSIZE / 2 the same holds in a build without assertions,
    and in a build with them the [ASSERT] at the head of [malloc] stops
    the kernel. *)
Theorem C4_malloc_invalid_size (size : Z) (st : heap) :
  (size = 0 -> malloc NDEBUG size st = Ret (NULL, st))
  /\ (size > PGSIZE / 2 ->
      malloc NDEBUG size st = if NDEBUG then Ret (NULL, st) else Panic).
Proof.
  split.
  - intros ->. apply malloc_zero.
  - intros H. apply malloc_too_big. lia.
Qed.

(** [malloc] returns, unless its assertion fails; a null result leaves
    the allocator as it was. *)
Lemma malloc_returns (size : Z) (st : heap) :
  heap_ok st -> 0 <= size -> size <= PGSIZE / 2 \/ NDEBUG = true ->
  exists p st', malloc NDEBUG size st = Ret (p, st')
    /\ ((p = NULL /\ st' = st) \/ (0 < size <= PGSIZE / 2 /\ allocated NDEBUG size st st' p)).
Proof.
  intros Hok H0 Hb.
  destruct (Z.eq_dec size 0) as [->|Hne].
  { exists NULL, st. rewrite malloc_zero. split; [reflexivity|by left]. }
  destruct (Z.le_gt_cases size (PGSIZE / 2)) as [Hle|Hgt].
  - destruct (malloc_ok NDEBUG size st Hok ltac:(lia)) as (p & st' & Hm & Hr).
    exists p, st'. split; [exact Hm|].
    destruct Hr as [(? & ? & _)|Ha]; [by left|right]. split; [lia|exact Ha].
  - destruct Hb as [?|Hn]; [lia|].
    exists NULL, st. rewrite malloc_too_big, Hn by lia. split; [reflexivity|by left].
Qed.



(** C5, amended: [calloc] returns null, changing nothing, when the
    wrapped product is below [a] or below [b]; every product that
    overflows ends with null, or with the failed assertion of [malloc]
    in a build that has assertions. Otherwise, when the product is at
    most PGSIZE / 2 or assertions are compiled out, [calloc] returns
    null or a block whose first [a * b] bytes are zero; a product above
    PGSIZE / 2 fails the assertion of [malloc] in a build that has
    assertions. *)
Theorem C5_calloc (a b : Z) (st : heap) :
  heap_okb st = true ->
  0 <= a < 2 ^ SIZE_BITS ->
  0 <= b < 2 ^ SIZE_BITS ->
  let size := wrap (a * b) in
  (size < a \/ size < b -> calloc NDEBUG a b st = Ret (NULL, st))
  /\ (2 ^ SIZE_BITS <= a * b ->
      calloc NDEBUG a b st = Ret (NULL, st)
      \/ (NDEBUG = false /\ calloc NDEBUG a b st = Panic))
  /\ (~ (size < a \/ size < b) ->
      (size <= PGSIZE / 2 \/ NDEBUG = true ->
         exists p st1, calloc NDEBUG a b st = Ret (p, st1)
           /\ (p = NULL \/
               (size = a * b /\ forall i, 0 <= i < a * b -> mem st1 (p + i) = 0)))
      /\ (PGSIZE / 2 < size -> NDEBUG = false -> calloc NDEBUG a b st = Panic)).
Proof.
  intros Hokb Ha Hb size. pose proof (heap_okb_ok st Hokb) as Hok.
  assert (Hsz : 0 <= size < 2 ^ SIZE_BITS).
  { unfold size, wrap. apply Z.mod_pos_bound. reflexivity. }
  assert (Hdet : size < a \/ size < b -> calloc NDEBUG a b st = Ret (NULL, st)).
  { intros Hd. unfold calloc. fold size.
    destruct (Z.ltb_spec size a); [reflexivity|].
    destruct (Z.ltb_spec size b); [reflexivity|]. lia. }
  assert (Hun : ~ (size < a \/ size < b) ->
                calloc NDEBUG a b st =
                do (p, st1) <- malloc NDEBUG size st;
                if negb (p =? NULL) then Ret (p, memset p 0 size st1) else Ret (p, st1)).
  { intros Hd. unfold calloc. fold size.
    destruct (Z.ltb_spec size a); [lia|]. destruct (Z.ltb_spec size b); [lia|].
    reflexivity. }
  assert (Hbig : ~ (size < a \/ size < b) -> PGSIZE / 2 < size ->
                 calloc NDEBUG a b st = if NDEBUG then Ret (NULL, st) else Panic).
  { intros Hd Hgt. rewrite (Hun Hd), malloc_too_big by exact Hgt.
    destruct NDEBUG; reflexivity. }
  change (PGSIZE / 2) with 2048 in *. change (2 ^ SIZE_BITS) with 4294967296 in *.
  split; [exact Hdet|]. split.
  - intros Hov.
    destruct (Z.lt_ge_cases size a) as [?|Hga]; [left; apply Hdet; by left|].
    destruct (Z.lt_ge_cases size b) as [?|Hgb]; [left; apply Hdet; by right|].
    assert (Hgt : 2048 < size).
    { destruct (Z.le_gt_cases size 2048) as [Hle|]; [|assumption]. nia. }
    rewrite Hbig by lia.
    destruct NDEBUG; [by left|by right].
  - intros Hd. split; [|intros Hgt Hn; by rewrite Hbig, Hn].
    intros Hcase. rewrite (Hun Hd).
    destruct (malloc_returns size st Hok ltac:(lia) Hcase) as (p & st1 & -> & Hr).
    cbn [obind].
    destruct Hr as [[-> ->]|[Hrange _]].
    + exists NULL, st. split; [reflexivity|by left].
    + destruct (Z.eqb_spec p NULL) as [->|Hp]; simpl.
      * exists NULL, st1. split; [reflexivity|by left].
      * exists p, (memset p 0 size st1). split; [reflexivity|]. right.
        change (PGSIZE / 2) with 2048 in Hrange.
        assert (Heq : size = a * b).
        { unfold size. apply wrap_small.
          change (2 ^ SIZE_BITS) with 4294967296. nia. }
        split; [exact Heq|]. intros i Hi. unfold memset. simpl.
        destruct (Z.leb_spec p (p + i)); [|lia].
        destruct (Z.ltb_spec (p + i) (p + size)); [reflexivity|lia].
Qed.

End ClaimsAlloc.

(** ** The examples *)

Lemma example_fresh_init :
  malloc_init false (boot [example_page; 0x200000]) = Ret example_fresh.
Proof. reflexivity. Qed.

Lemma example_one_malloc :
  malloc false 16 example_fresh = Ret (blk example_page 0, example_one).
Proof. reflexivity. Qed.

(** S2 of the specification: with two live 16-byte blocks, freeing the
    first one leaves it on the free list of its class, no class above
    merges, and the arena stays; freeing the second releases the
    arena. *)
Lemma example_partial_coalesce :
  (do (q, st2) <- malloc false 16 example_one;
   do st3 <- free false (blk example_page 0) st2;
   do st4 <- free false q st3;
   Ret (q, free_list <$> descs st3 !! 0%nat, page_list st3, page_list st4, descs st4))
  = Ret (blk example_page 16, Some [blk example_page 0], [example_page], [], init_descs).
Proof. vm_compute. reflexivity. Qed.

(** S3 of the specification: 256 blocks of 16 bytes take two arenas,
    and freeing them all leaves none. *)
Lemma example_refill :
  (do (ps, st) <- malloc_n 256 16 example_fresh;
   do st' <- free_all ps st;
   Ret (length ps, page_list st, page_list st', descs st'))
  = Ret (256%nat, [example_page; 0x200000], [], init_descs).
Proof. vm_compute. reflexivity. Qed.

Lemma C1_split_coalesce_witness :
  valid_page example_page
  /\ descs example_fresh = init_descs
  /\ desc_cnt example_fresh = 8%nat
  /\ page_list example_fresh = []
  /\ pool example_fresh = example_page :: [0x200000]
  /\ exists st1 st2,
       malloc false 16 example_fresh = Ret (example_page + sizeof_arena, st1)
       /\ page_list st1 = [example_page]
       /\ pool st1 = [0x200000]
       /\ free false (example_page + sizeof_arena) st1 = Ret st2
       /\ page_list st2 = []
       /\ pool st2 = [example_page; 0x200000].
Proof.
  assert (Hp : valid_page example_page).
  { unfold valid_page, example_page. split; [lia|]. split; [reflexivity|].
    vm_compute. discriminate. }
  split; [exact Hp|]. split; [reflexivity|]. split; [reflexivity|].
  split; [reflexivity|]. split; [reflexivity|].
  destruct (C1_split_coalesce false example_page [0x200000] example_fresh Hp
              eq_refl eq_refl eq_refl eq_refl)
    as (sti & st1 & st2 & _ & _ & _ & Hm & Hpl1 & Hpool1 & _ & _ & _ & _ & Hf & Hpl2 & Hpool2 & _).
  exists st1, st2. split; [exact Hm|]. split; [exact Hpl1|]. split; [exact Hpool1|].
  split; [exact Hf|]. split; [exact Hpl2|exact Hpool2].
Defined.



(** S4 of the specification: the block holds the bytes 0 .. 15 when it
    grows to 64 bytes; the new block starts with them and the old one is
    free again. *)
Lemma example_realloc_grow :
  let p := blk example_page 0 in
  let st := set_mem (fun x => if (p <=? x) && (x <? p + 16) then x - p else 0) example_one in
  (do (q, st') <- realloc false p 64 st;
   do size <- block_size false q st';
   Ret (q, map (fun i => mem st' (q + i)) [0; 1; 2; 3; 4; 5; 6; 7; 8; 9; 10; 11; 12; 13; 14; 15],
        size, free_list <$> descs st' !! 2%nat))
  = Ret (blk example_page 64, [0; 1; 2; 3; 4; 5; 6; 7; 8; 9; 10; 11; 12; 13; 14; 15],
         64, Some [blk example_page 0]).
Proof. vm_compute. reflexivity. Qed.

(** A size above PGSIZE / 2 with assertions compiled in: the kernel
    panics. *)
Lemma C4_counterexample :
  4097 > PGSIZE / 2
  /\ malloc false 4097 example_fresh = Panic
  /\ malloc false 4097 example_fresh <> Ret (NULL, example_fresh).
Proof. split; [reflexivity|]. split; [reflexivity|discriminate]. Qed.

Lemma C5_calloc_witness :
  heap_okb example_fresh = true
  /\ 0 <= 4 < 2 ^ SIZE_BITS
  /\ 0 <= 4 < 2 ^ SIZE_BITS
  /\ exists p st1,
       calloc false 4 4 example_fresh = Ret (p, st1)
       /\ (p = NULL \/
           (wrap (4 * 4) = 4 * 4 /\ forall i, 0 <= i < 4 * 4 -> mem st1 (p + i) = 0)).
Proof.
  assert (H4 : 0 <= 4 < 2 ^ SIZE_BITS) by (split; [lia|reflexivity]).
  split; [reflexivity|]. split; [exact H4|]. split; [exact H4|].
  refine (proj1 (proj2 (proj2 (C5_calloc false 4 4 example_fresh eq_refl H4 H4)) _) _).
  - vm_compute. intros [H|H]; discriminate.
  - left. vm_compute. discriminate.
Defined.

(** No overflow in 100 * 100, which is above PGSIZE / 2: with
    assertions compiled in [calloc] neither returns null nor a block. *)
Lemma C5_counterexample :
  ~ (wrap (100 * 100) < 100 \/ wrap (100 * 100) < 100)
  /\ calloc false 100 100 example_fresh = Panic.
Proof. split; [vm_compute; intros [H|H]; discriminate|reflexivity]. Qed.

End MallocSpec.

(** * Properties of the signal subsystem *)

Module SignalsSpec.
Import Signals.

(** The test [(m >> n) & 1] reads bit [n] of [m]. *)
Lemma mask_bit_test (m n : Z) :
  0 <= n -> (Z.land (Z.shiftr m n) 1 =? 1) = Z.testbit m n.
Proof.
  intros Hn.
  change 1 with (Z.ones 1) at 1.
  rewrite Z.land_ones by lia.
  rewrite <- (Z.add_0_l n) at 2.
  rewrite <- Z.shiftr_spec by lia.
  rewrite Z.bit0_odd, <- Z.bit0_mod, Z.bit0_odd.
  change (2 ^ 1) with 2.
  destruct (Z.odd (Z.shiftr m n)); reflexivity.
Qed.

Lemma restore_level (st : kernel) :
  intr_set_level (level st) (intr_set_level INTR_OFF st) = st.
Proof. destruct st; reflexivity. Qed.

Lemma restore_level_unblock (st : kernel) (l : list Z) :
  intr_set_level (level st) (set_to_unblock_list l (intr_set_level INTR_OFF st))
  = set_to_unblock_list l st.
Proof. destruct st; reflexivity. Qed.

Lemma intr_on_ON (st : kernel) : level st = INTR_ON -> intr_on st = true.
Proof. unfold intr_on. intros ->. reflexivity. Qed.

Lemma pow2_bit (n i : Z) : 0 <= n -> Z.testbit (Z.shiftl 1 n) i = (i =? n).
Proof.
  intros Hn. rewrite Z.shiftl_1_l.
  destruct (Z.eqb_spec i n) as [->|Hne].
  - apply Z.pow2_bits_true. lia.
  - apply Z.pow2_bits_false. lia.
Qed.

Lemma ones_shiftl (n : Z) : Z.shiftl 1 n - 1 = Z.ones n.
Proof. rewrite Z.ones_equiv, Z.shiftl_1_l. lia. Qed.

Section Build.

Variable NDEBUG : bool.
Variable cfg : sigconfig.
Hypothesis cfg_ok : sigconfig_ok cfg.

Lemma sig_kill_not_ublock : SIG_KILL cfg <> SIG_UBLOCK cfg.
Proof.
  pose proof (sig_distinct cfg cfg_ok) as H.
  rewrite !NoDup_cons, !elem_of_cons in H. intros E. rewrite E in H. tauto.
Qed.


Lemma sigset_shr_ok (m n : Z) :
  0 <= n < 32 -> sigset_shr m n = Ret (Z.shiftr m n).
Proof.
  intros H. unfold sigset_shr.
  destruct (Z.leb_spec 0 n); [|lia]. destruct (Z.ltb_spec n 32); [|lia]. reflexivity.
Qed.

Lemma int_shl1_ok (n : Z) : 0 <= n < 31 -> int_shl1 n = Ret (Z.shiftl 1 n).
Proof.
  intros H. unfold int_shl1.
  destruct (Z.leb_spec 0 n); [|lia]. destruct (Z.ltb_spec n 31); [|lia]. reflexivity.
Qed.

Lemma kill_unfold (tid sig : Z) (st : kernel) :
  level st = INTR_ON ->
  kill NDEBUG cfg tid sig st =
  if (sig =? SIG_CHLD cfg) || (sig =? SIG_CPU cfg) || (tid <=? 2) then Ret (-1, st)
  else kill_accepted cfg tid sig st.
Proof.
  intros Hon. unfold kill, kill_accepted.
  destruct ((sig =? SIG_CHLD cfg) || (sig =? SIG_CPU cfg) || (tid <=? 2)); [reflexivity|].
  rewrite (intr_on_ON st Hon), ASSERT_true, obind_ret.
  unfold intr_disable, thread_lookup.
  change (threads (intr_set_level INTR_OFF st)) with (threads st).
  change (running (intr_set_level INTR_OFF st)) with (running st).
  change (to_unblock_list (intr_set_level INTR_OFF st)) with (to_unblock_list st).
  destruct (threads st !! tid) as [x|]; [|by rewrite restore_level].
  destruct (if negb (sig =? SIG_KILL cfg)
            then do sh <- sigset_shr (mask x) sig; Ret (Z.land sh 1 =? 1)
            else Ret false) as [[|]| |]; simpl; try reflexivity.
  - by rewrite restore_level.
  - destruct (sig =? SIG_UBLOCK cfg).
    + destruct (status x); by rewrite ?restore_level_unblock, ?restore_level.
    + destruct ((sig =? SIG_KILL cfg) && negb (ptid x =? running st)).
      * by rewrite restore_level.
      * destruct (if 0 <=? sig then of_option (signals x !! Z.to_nat sig) else Undef)
          as [slot| |]; reflexivity.
Qed.

(** C7: [send] returns -1 exactly when the signal is one of the two
    internal ones, the tid is reserved, the thread lookup fails, or a
    kill comes from a thread that is not the parent of the target; and a
    send of a signal other than SIG_KILL that the target blocks returns 0
    and changes nothing. A send of a valid signal always returns, with 0
    or -1. *)
Theorem C7_send_rejection (tid sig : Z) (st : kernel) :
  level st = INTR_ON ->
  (rejected cfg tid sig st <->
     exists st', kill NDEBUG cfg tid sig st = Ret (-1, st'))
  /\ (rejected cfg tid sig st -> kill NDEBUG cfg tid sig st = Ret (-1, st))
  /\ (forall x, ~ rejected cfg tid sig st -> threads st !! tid = Some x ->
        sig <> SIG_KILL cfg -> 0 <= sig < 32 -> Z.testbit (mask x) sig = true ->
        kill NDEBUG cfg tid sig st = Ret (0, st))
  /\ (forall x, threads st !! tid = Some x -> 0 <= sig < NUM_SIGNAL cfg ->
        length (signals x) = Z.to_nat (NUM_SIGNAL cfg) ->
        exists r st', kill NDEBUG cfg tid sig st = Ret (r, st') /\ (r = 0 \/ r = -1)).
Proof.
  intros Hon.
  assert (Hrej : rejected cfg tid sig st -> kill NDEBUG cfg tid sig st = Ret (-1, st)).
  { intros Hr. rewrite kill_unfold by exact Hon.
    destruct ((sig =? SIG_CHLD cfg) || (sig =? SIG_CPU cfg) || (tid <=? 2)) eqn:Hfirst;
      [reflexivity|].
    apply orb_false_elim in Hfirst as [Hfirst Htid].
    apply orb_false_elim in Hfirst as [Hchld Hcpu].
    apply Z.eqb_neq in Hchld, Hcpu. apply Z.leb_gt in Htid.
    destruct Hr as [?|[?|[?|[Hnone|(x & Hx & Hkill & Hpar)]]]]; try lia.
    - unfold kill_accepted. by rewrite Hnone.
    - unfold kill_accepted. rewrite Hx. subst sig.
      rewrite Z.eqb_refl. simpl.
      destruct (Z.eqb_spec (SIG_KILL cfg) (SIG_UBLOCK cfg)) as [E|_];
        [by apply sig_kill_not_ublock in E|].
      destruct (Z.eqb_spec (ptid x) (running st)); [contradiction|reflexivity]. }
  split; [split|split; [exact Hrej|split]].
  - intros Hr. exists st. by apply Hrej.
  - intros [st' H]. rewrite kill_unfold in H by exact Hon. unfold rejected.
    destruct (Z.eqb_spec sig (SIG_CHLD cfg)); [tauto|].
    destruct (Z.eqb_spec sig (SIG_CPU cfg)); [tauto|].
    destruct (Z.leb_spec tid 2); [tauto|]. simpl in H.
    unfold kill_accepted in H.
    destruct (threads st !! tid) as [x|]; [|tauto].
    destruct (if negb (sig =? SIG_KILL cfg)
              then do sh <- sigset_shr (mask x) sig; Ret (Z.land sh 1 =? 1)
              else Ret false) as [[|]| |]; simpl in H; try discriminate.
    destruct (sig =? SIG_UBLOCK cfg).
    { destruct (status x); discriminate. }
    destruct (Z.eqb_spec sig (SIG_KILL cfg)); simpl in H.
    + destruct (Z.eqb_spec (ptid x) (running st)); simpl in H.
      * destruct (if 0 <=? sig then of_option (signals x !! Z.to_nat sig) else Undef)
          as [slot| |]; simpl in H; try discriminate.
        destruct (negb (type slot =? -1)); discriminate.
      * right; right; right; right. by exists x.
    + destruct (if 0 <=? sig then of_option (signals x !! Z.to_nat sig) else Undef)
        as [slot| |]; simpl in H; try discriminate.
      destruct (negb (type slot =? -1)); discriminate.
  - intros x Hnr Hx Hk Hsig Hbit. rewrite kill_unfold by exact Hon.
    unfold rejected in Hnr.
    destruct (Z.eqb_spec sig (SIG_CHLD cfg)); [tauto|].
    destruct (Z.eqb_spec sig (SIG_CPU cfg)); [tauto|].
    destruct (Z.leb_spec tid 2); [tauto|]. simpl.
    unfold kill_accepted. rewrite Hx.
    destruct (Z.eqb_spec sig (SIG_KILL cfg)); [contradiction|]. simpl.
    rewrite sigset_shr_ok by exact Hsig. simpl.
    rewrite mask_bit_test by lia. by rewrite Hbit.
  - intros x Hx Hsig Hlen. rewrite kill_unfold by exact Hon.
    destruct ((sig =? SIG_CHLD cfg) || (sig =? SIG_CPU cfg) || (tid <=? 2));
      [exists (-1), st; split; [reflexivity|by right]|].
    unfold kill_accepted. rewrite Hx.
    pose proof (num_signal_int cfg cfg_ok) as Hnum.
    assert (Hb : exists b, (if negb (sig =? SIG_KILL cfg)
                       then do sh <- sigset_shr (mask x) sig; Ret (Z.land sh 1 =? 1)
                       else Ret false) = Ret b).
    { destruct (negb (sig =? SIG_KILL cfg)); [|by eexists].
      rewrite sigset_shr_ok by lia. by eexists. }
    destruct Hb as [b ->]. simpl.
    destruct b; [exists 0, st; split; [reflexivity|by left]|].
    destruct (sig =? SIG_UBLOCK cfg).
    { destruct (status x); eexists 0, _; (split; [reflexivity|by left]). }
    destruct ((sig =? SIG_KILL cfg) && negb (ptid x =? running st));
      [exists (-1), st; split; [reflexivity|by right]|].
    destruct (Z.leb_spec 0 sig); [|lia].
    destruct (lookup_lt_is_Some_2 (signals x) (Z.to_nat sig)) as [slot Hslot]; [lia|].
    rewrite Hslot. simpl.
    destruct (negb (type slot =? -1)); eexists 0, _; (split; [reflexivity|by left]).
Qed.



Lemma sigprocmask_unfold (how : Z) (set oldset : option Z) (st : kernel) (cur : thread) :
  level st = INTR_ON ->
  threads st !! running st = Some cur ->
  sigprocmask NDEBUG cfg how set oldset st =
  match set with
  | None => Ret (0, reported oldset cur, st)
  | Some s =>
      if s >=? 2 ^ NUM_SIGNAL cfg then Ret (-1, oldset, st)
      else if how =? SIG_BLOCK then
        Ret (0, reported oldset cur, with_mask (Z.lor (mask cur) s) cur st)
      else if how =? SIG_UNBLOCK then
        Ret (0, reported oldset cur,
             with_mask (Z.land (mask cur) (Z.lxor (Z.ones (NUM_SIGNAL cfg)) s)) cur st)
      else if how =? SIG_SETMASK then
        Ret (0, reported oldset cur, with_mask s cur st)
      else Ret (-1, reported oldset cur, st)
  end.
Proof.
  intros Hon Hcur. unfold sigprocmask.
  pose proof (num_signal_pos cfg cfg_ok). pose proof (num_signal_int cfg cfg_ok).
  assert (Hrun : running_thread (intr_set_level INTR_OFF st) = Ret cur).
  { unfold running_thread. simpl. by rewrite Hcur. }
  destruct set as [s|]; simpl.
  - rewrite int_shl1_ok by lia. simpl. rewrite Z.shiftl_1_l.
    destruct (s >=? 2 ^ NUM_SIGNAL cfg); [reflexivity|].
    rewrite (intr_on_ON st Hon), ASSERT_true. simpl. rewrite Hrun. simpl.
    destruct (how =? SIG_BLOCK); [reflexivity|].
    destruct (how =? SIG_UNBLOCK).
    { simpl. rewrite <- Z.shiftl_1_l, ones_shiftl. reflexivity. }
    destruct (how =? SIG_SETMASK); [reflexivity|].
    by rewrite restore_level.
  - rewrite (intr_on_ON st Hon), ASSERT_true. simpl. rewrite Hrun. simpl.
    by rewrite restore_level.
Qed.

(** C8, amended: [sigprocmask] with a set that has a bit at or above
    NUM_SIGNAL returns -1 and changes nothing, [oldset] included.
    Otherwise a non-null [oldset] receives the current mask, whatever
    [how] is; a null [set] returns 0 and leaves the mask; SIG_BLOCK
    yields the union, SIG_UNBLOCK the intersection with the complement
    of the set within the NUM_SIGNAL valid bits, SIG_SETMASK the set; an
    unknown [how] returns -1 and leaves the kernel state as it was. *)
Theorem C8_sigprocmask_amended
    (how : Z) (set oldset : option Z) (st : kernel) (cur : thread) :
  level st = INTR_ON ->
  threads st !! running st = Some cur ->
  (set = None ->
     sigprocmask NDEBUG cfg how set oldset st = Ret (0, reported oldset cur, st))
  /\ (forall s, set = Some s -> 2 ^ NUM_SIGNAL cfg <= s ->
        sigprocmask NDEBUG cfg how set oldset st = Ret (-1, oldset, st))
  /\ (forall s, set = Some s -> s < 2 ^ NUM_SIGNAL cfg ->
        (how = SIG_BLOCK ->
           sigprocmask NDEBUG cfg how set oldset st =
           Ret (0, reported oldset cur, with_mask (Z.lor (mask cur) s) cur st)
           /\ forall i, Z.testbit (Z.lor (mask cur) s) i
                        = Z.testbit (mask cur) i || Z.testbit s i)
        /\ (how = SIG_UNBLOCK ->
           let m := Z.land (mask cur) (Z.lxor (Z.ones (NUM_SIGNAL cfg)) s) in
           sigprocmask NDEBUG cfg how set oldset st =
           Ret (0, reported oldset cur, with_mask m cur st)
           /\ (0 <= s -> forall i, 0 <= i ->
                 Z.testbit m i =
                 Z.testbit (mask cur) i && negb (Z.testbit s i) && (i <? NUM_SIGNAL cfg)))
        /\ (how = SIG_SETMASK ->
           sigprocmask NDEBUG cfg how set oldset st =
           Ret (0, reported oldset cur, with_mask s cur st))
        /\ (how <> SIG_BLOCK -> how <> SIG_UNBLOCK -> how <> SIG_SETMASK ->
           sigprocmask NDEBUG cfg how set oldset st =
           Ret (-1, reported oldset cur, st))).
Proof.
  intros Hon Hcur.
  pose proof (num_signal_pos cfg cfg_ok) as Hpos.
  rewrite (sigprocmask_unfold how set oldset st cur Hon Hcur).
  split; [by intros ->|]. split.
  - intros s -> Hs. destruct (Z.geb_spec s (2 ^ NUM_SIGNAL cfg)); [reflexivity|lia].
  - intros s -> Hs. destruct (Z.geb_spec s (2 ^ NUM_SIGNAL cfg)); [lia|].
    split; [|split; [|split]].
    + intros ->. split; [reflexivity|]. intros i. apply Z.lor_spec.
    + intros ->. split; [reflexivity|].
      intros Hs0 i Hi. rewrite Z.land_spec, Z.lxor_spec.
      destruct (Z.ltb_spec i (NUM_SIGNAL cfg)) as [Hlt|Hge].
      * rewrite Z.ones_spec_low by lia. rewrite xorb_true_l. by rewrite andb_true_r.
      * rewrite Z.ones_spec_high by lia.
        assert (Z.testbit s i = false) as ->.
        { apply (lt_pow2_bits s (NUM_SIGNAL cfg)); lia. }
        simpl. by rewrite !andb_false_r.
    + intros ->. reflexivity.
    + intros H0 H1 H2.
      destruct (Z.eqb_spec how SIG_BLOCK); [contradiction|].
      destruct (Z.eqb_spec how SIG_UNBLOCK); [contradiction|].
      destruct (Z.eqb_spec how SIG_SETMASK); [contradiction|]. reflexivity.
Qed.

Lemma sigprocmask_too_big (how s : Z) (oldset : option Z) (st : kernel) :
  2 ^ NUM_SIGNAL cfg <= s ->
  sigprocmask NDEBUG cfg how (Some s) oldset st = Ret (-1, oldset, st).
Proof.
  intros Hs. unfold sigprocmask.
  pose proof (num_signal_pos cfg cfg_ok). pose proof (num_signal_int cfg cfg_ok).
  rewrite int_shl1_ok by lia. simpl. rewrite Z.shiftl_1_l.
  destruct (Z.geb_spec s (2 ^ NUM_SIGNAL cfg)); [reflexivity|lia].
Qed.

Lemma Signal_unfold (signum handler : Z) (st : kernel) (cur : thread) :
  level st = INTR_ON ->
  threads st !! running st = Some cur ->
  signum <> SIG_KILL cfg ->
  0 <= signum < 31 ->
  let old := if Z.testbit (mask cur) signum then SIG_IGN cfg else SIG_DFL cfg in
  Signal NDEBUG cfg signum handler st =
  Ret (old,
       if old =? handler then st
       else with_mask (to_sigset cfg (Z.lxor (mask cur) (Z.shiftl 1 signum))) cur st).
Proof.
  intros Hon Hcur Hk Hs old. unfold Signal.
  destruct (Z.eqb_spec signum (SIG_KILL cfg)); [contradiction|].
  rewrite (intr_on_ON st Hon), ASSERT_true. simpl.
  unfold running_thread. simpl. rewrite Hcur. simpl.
  rewrite sigset_shr_ok by lia. simpl.
  rewrite mask_bit_test by lia. fold old.
  destruct (old =? handler); simpl.
  - by rewrite restore_level.
  - rewrite int_shl1_ok by lia. reflexivity.
Qed.

Lemma toggled_bits (m signum i : Z) :
  0 <= m < 2 ^ SIGSET_BITS cfg -> 0 <= signum < SIGSET_BITS cfg -> 0 <= i ->
  Z.testbit (to_sigset cfg (Z.lxor m (Z.shiftl 1 signum))) i
  = xorb (Z.testbit m i) (i =? signum).
Proof.
  intros Hm Hs Hi. unfold to_sigset.
  destruct (Z.lt_ge_cases i (SIGSET_BITS cfg)) as [Hlt|Hge].
  - rewrite Z.mod_pow2_bits_low by lia.
    rewrite Z.lxor_spec, pow2_bit by lia. reflexivity.
  - rewrite Z.mod_pow2_bits_high by lia.
    assert (Z.testbit m i = false) as ->.
    { apply (lt_pow2_bits m (SIGSET_BITS cfg)); lia. }
    destruct (Z.eqb_spec i signum); [lia|reflexivity].
Qed.

(** C9, amended: [Signal] does not validate [signum]. For every
    [signum] other than SIG_KILL that is a defined shift count below
    the width of [sigset_t] -- the numbers from NUM_SIGNAL on included --
    it returns the choice encoded by mask bit [signum] and toggles
    exactly that bit when the handler differs from it. So it sets a bit
    outside the valid range in a mask below [2 ^ NUM_SIGNAL], a bound
    that every update by [sigprocmask] keeps; and [sigprocmask] then
    rejects that mask with -1 when asked to restore it. *)
Theorem C9_signal_unchecked_signum
    (signum handler : Z) (st : kernel) (cur : thread) :
  level st = INTR_ON ->
  threads st !! running st = Some cur ->
  0 <= mask cur < 2 ^ SIGSET_BITS cfg ->
  signum <> SIG_KILL cfg ->
  0 <= signum < 31 ->
  signum < SIGSET_BITS cfg ->
  let old := if Z.testbit (mask cur) signum then SIG_IGN cfg else SIG_DFL cfg in
  let m' := to_sigset cfg (Z.lxor (mask cur) (Z.shiftl 1 signum)) in
  (handler = old -> Signal NDEBUG cfg signum handler st = Ret (old, st))
  /\ (handler <> old ->
        Signal NDEBUG cfg signum handler st = Ret (old, with_mask m' cur st)
        /\ threads (with_mask m' cur st) !! running st = Some (set_mask m' cur)
        /\ forall i, 0 <= i ->
             Z.testbit m' i = xorb (Z.testbit (mask cur) i) (i =? signum))
  /\ (NUM_SIGNAL cfg <= signum -> mask cur < 2 ^ NUM_SIGNAL cfg ->
        old = SIG_DFL cfg
        /\ 2 ^ NUM_SIGNAL cfg <= m'
        /\ forall oldset st2,
             sigprocmask NDEBUG cfg SIG_SETMASK (Some m') oldset st2
             = Ret (-1, oldset, st2))
  /\ (forall how s oldset o st2,
        0 <= s -> mask cur < 2 ^ NUM_SIGNAL cfg ->
        sigprocmask NDEBUG cfg how (Some s) oldset st = Ret (0, o, st2) ->
        exists cur2, threads st2 !! running st = Some cur2
                     /\ 0 <= mask cur2 < 2 ^ NUM_SIGNAL cfg).
Proof.
  intros Hon Hcur Hm Hk Hs Hw old m'.
  pose proof (num_signal_pos cfg cfg_ok) as Hpos.
  pose proof (Signal_unfold signum handler st cur Hon Hcur Hk Hs) as HS.
  cbv zeta in HS. fold old in HS. fold m' in HS.
  assert (Hbits : forall i, 0 <= i ->
            Z.testbit m' i = xorb (Z.testbit (mask cur) i) (i =? signum)).
  { intros i Hi. apply toggled_bits; lia. }
  split; [|split; [|split]].
  - intros ->. rewrite HS, Z.eqb_refl. reflexivity.
  - intros Hne. rewrite HS.
    destruct (Z.eqb_spec old handler); [congruence|].
    split; [reflexivity|]. split; [apply lookup_insert_eq|exact Hbits].
  - intros Hge Hlt.
    assert (Hbit : Z.testbit (mask cur) signum = false).
    { apply (lt_pow2_bits (mask cur) (NUM_SIGNAL cfg)); lia. }
    assert (Hm' : 2 ^ NUM_SIGNAL cfg <= m').
    { destruct (Z.le_gt_cases (2 ^ NUM_SIGNAL cfg) m') as [|Hcontra]; [assumption|].
      exfalso.
      assert (0 <= m') by (apply Z.mod_pos_bound, Z.pow_pos_nonneg; lia).
      pose proof (proj1 (lt_pow2_bits m' (NUM_SIGNAL cfg) ltac:(lia) ltac:(lia))
                    Hcontra signum Hge) as Hf.
      rewrite Hbits, Hbit, Z.eqb_refl in Hf by lia. discriminate. }
    split; [unfold old; by rewrite Hbit|]. split; [exact Hm'|].
    intros oldset st2. by apply sigprocmask_too_big.
  - intros how s oldset o st2 Hs0 Hlt H.
    rewrite (sigprocmask_unfold how (Some s) oldset st cur Hon Hcur) in H.
    destruct (Z.geb_spec s (2 ^ NUM_SIGNAL cfg)) as [|Hslt]; [discriminate|].
    assert (Hlor : 0 <= Z.lor (mask cur) s < 2 ^ NUM_SIGNAL cfg).
    { assert (0 <= Z.lor (mask cur) s) by (apply Z.lor_nonneg; lia).
      split; [assumption|]. apply lt_pow2_bits; [lia|lia|].
      intros i Hi. rewrite Z.lor_spec.
      rewrite (proj1 (lt_pow2_bits (mask cur) (NUM_SIGNAL cfg) ltac:(lia) ltac:(lia)) Hlt i Hi).
      rewrite (proj1 (lt_pow2_bits s (NUM_SIGNAL cfg) ltac:(lia) ltac:(lia)) Hslt i Hi).
      reflexivity. }
    assert (Hland : 0 <= Z.land (mask cur) (Z.lxor (Z.ones (NUM_SIGNAL cfg)) s)
                    < 2 ^ NUM_SIGNAL cfg).
    { assert (0 <= Z.land (mask cur) (Z.lxor (Z.ones (NUM_SIGNAL cfg)) s))
        by (apply Z.land_nonneg; lia).
      split; [assumption|]. apply lt_pow2_bits; [lia|lia|].
      intros i Hi. rewrite Z.land_spec.
      rewrite (proj1 (lt_pow2_bits (mask cur) (NUM_SIGNAL cfg) ltac:(lia) ltac:(lia)) Hlt i Hi).
      reflexivity. }
    destruct (how =? SIG_BLOCK).
    { inversion H; subst. eexists. split; [apply lookup_insert_eq|exact Hlor]. }
    destruct (how =? SIG_UNBLOCK).
    { inversion H; subst. eexists. split; [apply lookup_insert_eq|exact Hland]. }
    destruct (how =? SIG_SETMASK); [|discriminate].
    inversion H; subst. eexists. split; [apply lookup_insert_eq|]. simpl. lia.
Qed.

End Build.

Lemma example_cfg_ok : sigconfig_ok example_cfg.
Proof.
  split; simpl; try lia.
  repeat (apply NoDup_cons; split; [rewrite ?elem_of_cons, elem_of_nil; lia|]).
  apply NoDup_nil_2.
Qed.



(** A send of the internal signal SIG_CHLD is rejected. *)
Lemma C7_send_rejection_witness :
  level example_kernel = INTR_ON
  /\ kill false example_cfg 4 0 example_kernel = Ret (-1, example_kernel).
Proof.
  split; [reflexivity|].
  refine (proj1 (proj2
    (C7_send_rejection false example_cfg example_cfg_ok 4 0 example_kernel eq_refl)) _).
  left. reflexivity.
Defined.

(** The running thread, whose mask is 5, blocks signal 1 as well. *)
Lemma C8_sigprocmask_amended_witness :
  level example_kernel = INTR_ON
  /\ threads example_kernel !! running example_kernel = Some example_parent
  /\ sigprocmask false example_cfg SIG_BLOCK (Some 2) (Some 0) example_kernel
     = Ret (0, Some 5, with_mask 7 example_parent example_kernel).
Proof.
  split; [reflexivity|]. split; [reflexivity|].
  refine (proj1 (proj1 (proj2 (proj2
    (C8_sigprocmask_amended false example_cfg example_cfg_ok SIG_BLOCK (Some 2) (Some 0)
       example_kernel example_parent eq_refl eq_refl)) 2 eq_refl _) eq_refl)).
  reflexivity.
Defined.

(** With an unknown [how], -1 is returned after [oldset] has received
    the mask of the running thread. *)
Lemma C8_counterexample :
  sigprocmask false example_cfg 7 (Some 0) (Some 99) example_kernel
  = Ret (-1, Some 5, example_kernel)
  /\ Some 5 <> Some 99.
Proof. split; [reflexivity|discriminate]. Qed.

(** Signal number 7 is not a signal of [example_cfg]; bit 7 of the
    mask is set all the same. *)
Lemma C9_signal_unchecked_signum_witness :
  level example_kernel = INTR_ON
  /\ threads example_kernel !! running example_kernel = Some example_parent
  /\ 0 <= mask example_parent < 2 ^ SIGSET_BITS example_cfg
  /\ 7 <> SIG_KILL example_cfg
  /\ 0 <= 7 < 31
  /\ 7 < SIGSET_BITS example_cfg
  /\ Signal false example_cfg 7 1 example_kernel
     = Ret (0, with_mask 133 example_parent example_kernel).
Proof.
  assert (H1 : 0 <= mask example_parent < 2 ^ SIGSET_BITS example_cfg) by (simpl; lia).
  assert (H2 : 7 <> SIG_KILL example_cfg) by (simpl; lia).
  assert (H3 : 0 <= 7 < 31) by lia.
  assert (H4 : 7 < SIGSET_BITS example_cfg) by (simpl; lia).
  split; [reflexivity|]. split; [reflexivity|].
  split; [exact H1|]. split; [exact H2|]. split; [exact H3|]. split; [exact H4|].
  refine (proj1 (proj1 (proj2
    (C9_signal_unchecked_signum false example_cfg example_cfg_ok 7 1 example_kernel
       example_parent eq_refl eq_refl H1 H2 H3 H4)) _)).
  simpl. lia.
Defined.

(** There is no bit 32 to read or to toggle: the shifts by 32 are
    undefined. *)
Lemma C9_counterexample :
  32 <> SIG_KILL example_cfg
  /\ NUM_SIGNAL example_cfg <= 32
  /\ Signal false example_cfg 32 1 example_kernel = Undef.
Proof. split; [simpl; lia|]. split; [simpl; lia|reflexivity]. Qed.


End SignalsSpec.

(** * Further properties of the allocator *)

Module MallocProps.
Import Malloc MallocSpec.

(** ** What [free] leaves alone, and what it cannot be called on *)

Lemma wrap_shift (z : Z) : exists q, wrap z = z + q * 2 ^ SIZE_BITS.
Proof.
  exists (- (z / 2 ^ SIZE_BITS)). unfold wrap.
  rewrite Z.mod_eq by discriminate. lia.
Qed.

(** The buddy of a block of size 0 is the block itself. *)
Lemma buddy_of_zero (a b : Z) : buddy_of a b 0 = wrap b.
Proof.
  unfold buddy_of. rewrite Z.lxor_0_r.
  destruct (wrap_shift (b - a)) as [q1 ->].
  destruct (wrap_shift (b - a + q1 * 2 ^ SIZE_BITS - sizeof_arena)) as [q2 ->].
  destruct (wrap_shift (b - a + q1 * 2 ^ SIZE_BITS - sizeof_arena + q2 * 2 ^ SIZE_BITS + a))
    as [q3 ->].
  replace (b - a + q1 * 2 ^ SIZE_BITS - sizeof_arena + q2 * 2 ^ SIZE_BITS + a
           + q3 * 2 ^ SIZE_BITS + sizeof_arena)
    with (b + (q1 + q2 + q3) * 2 ^ SIZE_BITS) by lia.
  unfold wrap. apply Z_mod_plus_full.
Qed.

Lemma wrap_idem (z : Z) : wrap (wrap z) = wrap z.
Proof. unfold wrap. apply Z.mod_mod. discriminate. Qed.

Lemma on_free_list_unlink (e : Z) (dsc : desc) : on_free_list e (unlink e dsc) = false.
Proof.
  unfold on_free_list, unlink. simpl.
  induction (free_list dsc) as [|x l IH]; [reflexivity|]. simpl.
  destruct (Z.eqb_spec x e) as [->|Hne]; simpl; [exact IH|].
  destruct (Z.eqb_spec e x); [congruence|]. exact IH.
Qed.

Lemma unlinked_everywhere (e : Z) (ds : list desc) :
  existsb (on_free_list e) (map (unlink e) ds) = false.
Proof.
  induction ds as [|d ds IH]; [reflexivity|]. simpl.
  by rewrite on_free_list_unlink, IH.
Qed.

Lemma buddy_scan_zero (n : nat) (a buddy : Z) (st : heap) :
  buddy_scan (S n) a buddy 0 0 st = Ret 0.
Proof. reflexivity. Qed.

(** A block of size 0 is its own buddy and no slot of its range is
    busy: the loop unlinks it, and goes round with size 0 again. *)
Lemma free_loop_zero_unlinked (k : nat) (a b : Z) (idx : nat) (st : heap) :
  existsb (on_free_list (wrap b)) (descs st) = false ->
  free_loop k a b 0 idx st = Undef.
Proof.
  intros H. destruct k as [|k].
  - rewrite free_loop_0. reflexivity.
  - rewrite free_loop_S. change (0 =? PGSIZE / 2) with false. cbv iota.
    rewrite buddy_scan_zero. cbn [obind]. change (0 =? 1) with false. cbv iota.
    rewrite buddy_of_zero. unfold list_remove_block. rewrite H. reflexivity.
Qed.

Lemma free_loop_zero (k : nat) (a b : Z) (idx : nat) (st : heap) :
  free_loop k a b 0 idx st = Undef.
Proof.
  destruct k as [|k].
  - rewrite free_loop_0. reflexivity.
  - rewrite free_loop_S. change (0 =? PGSIZE / 2) with false. cbv iota.
    rewrite buddy_scan_zero. cbn [obind]. change (0 =? 1) with false. cbv iota.
    rewrite buddy_of_zero. unfold list_remove_block.
    destruct (existsb (on_free_list (wrap b)) (descs st)); [|reflexivity].
    cbn [obind]. change (wrap (Z.shiftl 0 1)) with 0.
    apply free_loop_zero_unlinked. simpl.
    assert (wrap (if b <? wrap b then b else wrap b) = wrap b) as ->.
    { destruct (b <? wrap b); [reflexivity|apply wrap_idem]. }
    apply unlinked_everywhere.
Qed.

Lemma release_arena_frame (a : Z) (st st' : heap) :
  release_arena a st = Ret st' ->
  descs st' = descs st /\ desc_cnt st' = desc_cnt st
  /\ arenas st' = delete a (arenas st) /\ pool st' = a :: pool st
  /\ page_list st' = List.filter (fun x => negb (x =? a)) (page_list st).
Proof.
  unfold release_arena, list_remove_page.
  destruct (existsb (Z.eqb a) (page_list st)); [|discriminate].
  simpl. intros H. by inversion H.
Qed.

(** What the coalescing loop changes: the free lists, and, when it
    gives the page back, the arena [a] and its page. *)
Lemma free_loop_frame (k : nat) :
  forall (a b b_sz : Z) (idx : nat) (st st' : heap),
  free_loop k a b b_sz idx st = Ret st' ->
  desc_cnt st' = desc_cnt st
  /\ desc_block_size <$> descs st' = desc_block_size <$> descs st
  /\ ((arenas st' = arenas st /\ pool st' = pool st /\ page_list st' = page_list st)
      \/ (arenas st' = delete a (arenas st) /\ pool st' = a :: pool st
          /\ page_list st' = List.filter (fun x => negb (x =? a)) (page_list st))).
Proof.
  induction k as [|k IH]; intros a b b_sz idx st st' H.
  - rewrite free_loop_0 in H.
    destruct (b_sz =? PGSIZE / 2).
    + apply release_arena_frame in H as (Hd & -> & ? & ? & ?).
      rewrite Hd. split; [done|]. split; [done|]. by right.
    + destruct (buddy_scan (S ARR_LEN) a (buddy_of a b b_sz) b_sz 0 st); discriminate.
  - rewrite free_loop_S in H.
    destruct (b_sz =? PGSIZE / 2).
    { apply release_arena_frame in H as (Hd & -> & ? & ? & ?).
      rewrite Hd. split; [done|]. split; [done|]. by right. }
    destruct (buddy_scan (S ARR_LEN) a (buddy_of a b b_sz) b_sz 0 st) as [i| |];
      try discriminate.
    cbn [obind] in H. destruct (i =? 1).
    + unfold list_push_back_desc, get_desc in H.
      destruct (descs st !! idx) as [dsc|] eqn:Hd; [|discriminate].
      simpl in H. inversion H; subst st'. simpl.
      split; [done|]. split; [by apply sizes_insert|]. by left.
    + unfold list_remove_block in H.
      destruct (existsb (on_free_list (buddy_of a b b_sz)) (descs st)); [|discriminate].
      cbn [obind] in H. apply IH in H as (Hc & Hs & Hr). simpl in *.
      split; [exact Hc|]. split; [|exact Hr].
      rewrite Hs. rewrite <- list_fmap_compose. apply list_fmap_ext. by intros ? [].
Qed.

Section FreeFrame.

Variable NDEBUG : bool.

Lemma block_to_arena_ret (b a : Z) (st : heap) :
  block_to_arena NDEBUG b st = Ret a ->
  a = pg_round_down b /\ exists ar, arenas st !! a = Some ar.
Proof.
  unfold block_to_arena.
  destruct (ASSERT NDEBUG (negb (pg_round_down b =? NULL))) as [[]| |]; try discriminate.
  cbn [obind]. unfold get_arena.
  destruct (arenas st !! pg_round_down b) as [ar|] eqn:Ha; [|discriminate].
  cbn [obind of_option].
  destruct (ASSERT NDEBUG (magic ar =? ARENA_MAGIC)) as [[]| |]; try discriminate.
  cbn [obind]. intros [= <-]. split; [reflexivity|]. by exists ar.
Qed.

(** [block_to_arena] looks at the magic number of the arena only. *)
Lemma block_to_arena_same (b : Z) (st st' : heap) (ar ar' : arena) :
  arenas st !! pg_round_down b = Some ar ->
  arenas st' !! pg_round_down b = Some ar' ->
  magic ar' = magic ar ->
  block_to_arena NDEBUG b st' = block_to_arena NDEBUG b st.
Proof.
  intros Ha Ha' Hm. unfold block_to_arena, get_arena. rewrite Ha, Ha'.
  destruct (ASSERT NDEBUG (negb (pg_round_down b =? NULL))) as [[]| |]; [|reflexivity..].
  cbn [obind of_option]. by rewrite Hm.
Qed.

(** The steps of [free] before the loop. *)
Lemma free_ret (p : Z) (st st' : heap) :
  p <> NULL -> free NDEBUG p st = Ret st' ->
  exists a ar b_sz idx,
    a = pg_round_down p
    /\ block_to_arena NDEBUG p st = Ret a
    /\ arenas st !! a = Some ar
    /\ (Z.to_nat (slot_index a p) < length (arr ar))%nat
    /\ block_size NDEBUG p st = Ret b_sz
    /\ free_loop (length (descs st) - idx) a p b_sz idx
         (set_arenas (<[a := Arena (magic ar) (<[Z.to_nat (slot_index a p) := 0]> (arr ar))]>
                        (arenas st))
            (debug_fill NDEBUG p b_sz st))
       = Ret st'.
Proof.
  intros Hp H. unfold free in H.
  destruct (Z.eqb_spec p NULL); [contradiction|].
  destruct (block_to_arena NDEBUG p st) as [a| |] eqn:Ha; try discriminate.
  cbn [obind] in H.
  destruct (block_size NDEBUG p st) as [b_sz| |] eqn:Hb; try discriminate.
  cbn [obind] in H.
  fold (debug_fill NDEBUG p b_sz st) in H.
  unfold arr_write, get_arena in H.
  assert (Hars : arenas (debug_fill NDEBUG p b_sz st) = arenas st) by (by destruct NDEBUG).
  rewrite Hars in H.
  destruct (block_to_arena_ret p a st Ha) as (Hpa & ar & Har).
  rewrite Har in H. cbn [obind of_option] in H.
  destruct (Nat.ltb_spec (Z.to_nat (slot_index a p)) (length (arr ar))) as [Hlt|];
    [|discriminate].
  cbn [obind] in H.
  destruct (class_index b_sz) as [idx| |]; try discriminate.
  cbn [obind] in H.
  exists a, ar, b_sz, idx. split_and!; try done.
  rewrite <- H. f_equal. by destruct NDEBUG.
Qed.


(** X13: [free] cannot be called on a block whose SlotMap entry is 0
    (a block that is free, or an address inside a block): with size 0
    the block is its own buddy, and the loop ends unlinking from its
    free list an element that is on none. In particular a block cannot
    be freed twice: after a [free] that returns, a second [free] of the
    same block finds the entry cleared, or the arena gone. *)
Theorem X13_double_free (p : Z) (st : heap) :
  p <> NULL ->
  (forall a, block_to_arena NDEBUG p st = Ret a ->
     arr_read a (slot_index a p) st = Ret 0 ->
     free NDEBUG p st = Undef)
  /\ (forall st1, free NDEBUG p st = Ret st1 -> free NDEBUG p st1 = Undef).
Proof.
  intros Hp.
  assert (Hzero : forall s a, block_to_arena NDEBUG p s = Ret a ->
            arr_read a (slot_index a p) s = Ret 0 -> free NDEBUG p s = Undef).
  { intros s a Ha Hr. unfold free.
    destruct (Z.eqb_spec p NULL); [contradiction|].
    rewrite Ha. cbn [obind]. unfold block_size. rewrite Ha. cbn [obind].
    rewrite Hr. cbn [obind]. change (wrap 0) with 0.
    unfold arr_read, get_arena in Hr. unfold arr_write, get_arena.
    assert (arenas (if NDEBUG then s else memset p 204 0 s) = arenas s) as ->
      by (by destruct NDEBUG).
    destruct (arenas s !! a) as [ar|]; [|discriminate].
    cbn [obind of_option] in *.
    destruct (arr ar !! Z.to_nat (slot_index a p)) eqn:Hi; [|discriminate].
    apply lookup_lt_Some in Hi.
    destruct (Nat.ltb_spec (Z.to_nat (slot_index a p)) (length (arr ar))); [|lia].
    cbn [obind]. change (class_index 0) with (Ret (A := nat) 0%nat). cbn [obind].
    apply free_loop_zero. }
  split; [apply Hzero|].
  intros st1 H.
  destruct (free_ret p st st1 Hp H) as (a & ar & b_sz & idx & Hpa & Ha & Har & Hlt & Hb & Hl).
  apply free_loop_frame in Hl as (_ & _ & Hr). simpl in Hr.
  destruct Hr as [(Hars1 & _)|(Hars1 & _)].
  - set (ar' := Arena (magic ar) (<[Z.to_nat (slot_index a p) := 0]> (arr ar))) in *.
    assert (Ha1 : arenas st1 !! a = Some ar') by (rewrite Hars1; apply lookup_insert_eq).
    apply (Hzero st1 a).
    + rewrite <- Ha. subst a. by apply (block_to_arena_same p st st1 ar ar').
    + unfold arr_read, get_arena. rewrite Ha1. cbn [obind of_option]. simpl.
      by rewrite list_lookup_insert_eq.
  - assert (Ha1 : arenas st1 !! a = None).
    { rewrite Hars1, lookup_delete_eq. reflexivity. }
    unfold free. destruct (Z.eqb_spec p NULL); [contradiction|].
    unfold block_to_arena, get_arena. rewrite <- Hpa, Ha1.
    destruct (ASSERT NDEBUG (negb (a =? NULL))) as [[]| |] eqn:HA; [reflexivity| |].
    + unfold block_to_arena in Ha. rewrite <- Hpa, HA in Ha. discriminate.
    + unfold ASSERT in HA. destruct (NDEBUG || negb (a =? NULL)); discriminate.
Qed.

End FreeFrame.

(** ** Initialisation, and which block [malloc] returns *)

Section Allocation.

Variable NDEBUG : bool.

(** X14: [malloc_init], called once on the zero-initialised statics,
    sets up the eight classes of 16 to 2048 bytes with empty free lists
    and an empty arena list, and touches nothing else; the allocator is
    then in the state that [malloc] relies on. It cannot be called a
    second time: the third descriptor it would add lies outside
    [descs], which the assertion catches in a debugging build. *)
Theorem X14_malloc_init (st : heap) :
  desc_cnt st = 0%nat ->
  length (descs st) = DESCS_LEN ->
  exists st',
    malloc_init NDEBUG st = Ret st'
    /\ desc_cnt st' = 8%nat
    /\ (forall k, (k < 8)%nat -> descs st' !! k = Some (Desc (class_size k) []))
    /\ (forall k, (8 <= k)%nat -> descs st' !! k = descs st !! k)
    /\ page_list st' = []
    /\ arenas st' = arenas st /\ mem st' = mem st /\ pool st' = pool st
    /\ (desc_block_size <$> drop 8 (descs st) = [0; 0] ->
        (forall pg, pg ∈ pool st -> valid_page pg) ->
        heap_ok st')
    /\ malloc_init NDEBUG st' = if NDEBUG then Undef else Panic.
Proof.
  intros Hcnt Hlen. destruct st as [ds cnt pl ars m pool0]. simpl in Hcnt, Hlen. subst cnt.
  do 10 (destruct ds as [|? ds]; [discriminate|]). destruct ds; [|discriminate].
  exists (Heap [Desc 16 []; Desc 32 []; Desc 64 []; Desc 128 []; Desc 256 []; Desc 512 [];
                Desc 1024 []; Desc 2048 []; d7; d8] 8 [] ars m pool0).
  split; [destruct NDEBUG; reflexivity|]. split; [reflexivity|].
  split.
  { intros k Hk. do 8 (destruct k as [|k]; [reflexivity|]). lia. }
  split.
  { intros k Hk. do 8 (destruct k as [|k]; [lia|]). reflexivity. }
  split; [reflexivity|]. split; [reflexivity|]. split; [reflexivity|].
  split; [reflexivity|]. split; [|destruct NDEBUG; reflexivity].
  simpl. intros [= H7 H8] Hpool. split; simpl.
  - unfold std_sizes. by rewrite H7, H8.
  - reflexivity.
  - intros k dsc b Hk Hd Hb.
    do 8 (destruct k as [|k]; [injection Hd as <-; by apply elem_of_nil in Hb|]). lia.
  - exact Hpool.
Qed.

(** The loop over the descriptors stops at the first class that fits. *)
Lemma scan_first_fit (size : Z) (st : heap) (k : nat) (dsc : desc) (b : Z) (l : list Z) :
  heap_ok st ->
  (k < 8)%nat -> descs st !! k = Some dsc ->
  size <= desc_block_size dsc -> free_list dsc = b :: l ->
  no_fit_below size st k ->
  forall n d, (d + n = 8)%nat -> (d <= k)%nat ->
  exists a st1, malloc_scan NDEBUG n d size st = Ret (Some (k, b, a, st1))
    /\ pool st1 = pool st /\ page_list st1 = page_list st.
Proof.
  intros Hok Hk Hdsc Hfit Hl Hbelow.
  induction n as [|n IH]; intros d Hdn Hdk; [lia|].
  rewrite malloc_scan_S.
  destruct (decide (d = k)) as [->|Hne].
  - unfold get_desc at 1. rewrite Hdsc. cbn [of_option obind].
    destruct (Z.geb_spec (desc_block_size dsc) size); [|lia].
    rewrite Hl. cbn [list_empty negb andb].
    destruct (pop_ok st k dsc b l Hok Hk Hdsc Hl)
      as (st1 & Hpop & Hok1 & Hars & Hmem & Hpl & Hpool & Hb).
    rewrite Hpop, obind_ret.
    destruct Hb as (a & off & ar & -> & Hp & Ha & Hm & Hlen & Ho & Hin).
    change (PGSIZE / 2) with 2048 in Hin. pose proof (class_size_pos k).
    rewrite (block_to_arena_blk NDEBUG st1 a off ar Hp) by
      first [done | rewrite PGSIZE_eq, sizeof_arena_eq; lia | by rewrite Hars].
    cbn [obind]. by exists a, st1.
  - destruct (desc_at st d (ok_sizes st Hok) ltac:(lia)) as (dsc' & Hdsc' & Hsz).
    unfold get_desc at 1. rewrite Hdsc'. cbn [of_option obind].
    assert (Hno : (desc_block_size dsc' >=? size) && negb (list_empty (free_list dsc'))
                  = false).
    { destruct (Hbelow d dsc' ltac:(lia) Hdsc') as [Hlt| ->]; [|apply andb_false_r].
      destruct (Z.geb_spec (desc_block_size dsc') size); [lia|reflexivity]. }
    rewrite Hno. rewrite (ok_cnt st Hok).
    destruct (Nat.eqb_spec (S d) 8); [lia|].
    apply IH; lia.
Qed.


(** After the loop over the descriptors, [malloc] returns the block
    found, and gets no page of its own. *)
Lemma malloc_after_scan (size : Z) (st : heap) (d : nat) (b a : Z) (st1 : heap) :
  heap_ok st -> 0 < size <= PGSIZE / 2 ->
  malloc_scan NDEBUG 8 0 size st = Ret (Some (d, b, a, st1)) ->
  exists st', malloc NDEBUG size st = Ret (b, st')
    /\ pool st' = pool st1 /\ page_list st' = page_list st1
    /\ allocated NDEBUG size st st' b.
Proof.
  intros Hok Hsize Hscan.
  destruct (malloc_ok NDEBUG size st Hok Hsize) as (p & st' & Hm & Hres).
  destruct (scan_ok NDEBUG size st Hok Hsize 8 0 ltac:(lia) ltac:(lia)) as (r & Hr & Hfound).
  rewrite Hscan in Hr. injection Hr as <-.
  destruct Hfound as (Hd & Hle & Hok1 & Hmem1 & Hp & off & ar & -> & Ho & Hfit & Ha & Hmg & Hlen).
  destruct (split_ok a off size ar Hp Ho Hsize d st1 Hok1 Hd Hle Hfit Ha Hmg Hlen)
    as (d' & st2 & Hsplit & Hd' & Hle' & Hstop & Hok2 & Hars2 & Hmem2 & Hpl2 & Hpool2).
  assert (Hrun : exists st3, malloc NDEBUG size st = Ret (blk a off, st3)
                   /\ pool st3 = pool st1 /\ page_list st3 = page_list st1).
  { unfold malloc.
    destruct (Z.leb_spec size (PGSIZE / 2)); [|lia]. rewrite ASSERT_true, obind_ret.
    destruct (Z.eqb_spec size 0); [lia|].
    destruct (Z.gtb_spec size (PGSIZE / 2)); [lia|]. cbn [orb].
    rewrite (ok_cnt st Hok), Hscan. cbn [obind]. rewrite Hsplit. cbn [obind].
    destruct (desc_at st2 d' (ok_sizes st2 Hok2) ltac:(lia)) as (dsc & Hdsc & Hsz).
    unfold get_desc. rewrite Hdsc. cbn [of_option obind].
    unfold arr_write, get_arena. rewrite Hars2, Ha. cbn [of_option obind].
    change (PGSIZE / 2) with 2048 in *. pose proof (class_size_pos d).
    rewrite slot_index_blk by (change (2 ^ SIZE_BITS) with 4294967296; lia).
    assert (Hidx : (Z.to_nat (off / 16) < length (arr ar))%nat).
    { rewrite Hlen. change ARR_LEN with (Z.to_nat 128).
      apply Z2Nat.inj_lt; [apply Z.div_pos; lia|lia|].
      apply Z.div_lt_upper_bound; lia. }
    destruct (Nat.ltb_spec (Z.to_nat (off / 16)) (length (arr ar))); [|lia].
    cbn [obind]. eexists. split; [reflexivity|]. simpl. by rewrite Hpl2, Hpool2. }
  destruct Hrun as (st3 & Hm3 & Hpool3 & Hpl3).
  rewrite Hm3 in Hm. injection Hm as <- <-.
  exists st3. split; [exact Hm3|]. split; [exact Hpool3|]. split; [exact Hpl3|].
  destruct Hres as [(Hnull & _)|Hall]; [|exact Hall].
  exfalso. destruct Hp as (Hpos & _). revert Hnull. unfold blk, NULL.
  rewrite sizeof_arena_eq. lia.
Qed.


End Allocation.

(** ** [malloc] then [free], when no block is free *)











Section RoundTrip.

Variable NDEBUG : bool.


End RoundTrip.

(** ** Instances on the example allocator *)

Lemma example_page_valid : valid_page example_page.
Proof.
  unfold valid_page, example_page. split; [lia|]. split; [reflexivity|].
  vm_compute. discriminate.
Qed.

Lemma example_block_not_null : blk example_page 0 <> NULL.
Proof. vm_compute. discriminate. Qed.

(** Freeing the only block of [example_one] gives the page back. *)
Lemma example_one_free :
  free true (blk example_page 0) example_one = Ret example_fresh.
Proof. vm_compute. reflexivity. Qed.


Lemma X13_double_free_witness :
  blk example_page 0 <> NULL
  /\ free true (blk example_page 0) example_one = Ret example_fresh
  /\ free true (blk example_page 0) example_fresh = Undef.
Proof.
  split; [exact example_block_not_null|]. split; [exact example_one_free|].
  exact (proj2 (X13_double_free true (blk example_page 0) example_one
                  example_block_not_null) _ example_one_free).
Defined.

Lemma X14_malloc_init_witness :
  desc_cnt (boot [example_page; 0x200000]) = 0%nat
  /\ length (descs (boot [example_page; 0x200000])) = DESCS_LEN
  /\ exists st',
       malloc_init false (boot [example_page; 0x200000]) = Ret st'
       /\ desc_cnt st' = 8%nat
       /\ malloc_init false st' = Panic.
Proof.
  split; [reflexivity|]. split; [reflexivity|].
  destruct (X14_malloc_init false (boot [example_page; 0x200000]) eq_refl eq_refl)
    as (st' & Hi & Hc & _ & _ & _ & _ & _ & _ & _ & H2).
  exists st'. split; [exact Hi|]. split; [exact Hc|exact H2].
Defined.




(** ** The buddy system as a state invariant *)

(** *** Blocks *)

Lemma class_size_inj (k j : nat) : class_size k = class_size j -> k = j.
Proof.
  unfold class_size. intros H.
  assert (2 ^ Z.of_nat k = 2 ^ Z.of_nat j) as E by lia.
  apply Z.pow_inj_r in E; lia.
Qed.

Lemma class_size_mul (k j : nat) :
  (k <= j)%nat -> exists m, 1 <= m /\ class_size j = m * class_size k.
Proof.
  intros Hkj. exists (2 ^ (Z.of_nat j - Z.of_nat k)). split.
  - assert (0 < 2 ^ (Z.of_nat j - Z.of_nat k)) by (apply Z.pow_pos_nonneg; lia). lia.
  - unfold class_size.
    replace (Z.of_nat j) with ((Z.of_nat j - Z.of_nat k) + Z.of_nat k) at 1 by lia.
    rewrite Z.pow_add_r by lia. lia.
Qed.

Lemma aligned_mul (off d : Z) : 0 < d -> off mod d = 0 -> exists q, off = q * d.
Proof.
  intros Hd H. exists (off / d). rewrite (Z.div_mod off d) at 1 by lia. lia.
Qed.

(** Two aligned blocks that share a byte are nested. *)
Lemma dyadic (k1 k2 : nat) (o1 o2 : Z) :
  (k1 <= k2)%nat ->
  o1 mod class_size k1 = 0 -> o2 mod class_size k2 = 0 ->
  o1 < o2 + class_size k2 -> o2 < o1 + class_size k1 ->
  o2 <= o1 /\ o1 + class_size k1 <= o2 + class_size k2.
Proof.
  intros Hk H1 H2 Ha Hb.
  pose proof (class_size_pos k1). pose proof (class_size_pos k2).
  destruct (class_size_mul k1 k2 Hk) as (m & Hm & Hc).
  destruct (aligned_mul o1 (class_size k1) ltac:(lia) H1) as (q1 & ->).
  destruct (aligned_mul o2 (class_size k2) ltac:(lia) H2) as (q2 & ->).
  rewrite Hc in *. set (c := class_size k1) in *.
  assert (q2 * m <= q1) by nia.
  assert (q1 + 1 <= q2 * m + m) by nia.
  split; nia.
Qed.

Lemma dyadic_same (k : nat) (o1 o2 : Z) :
  o1 mod class_size k = 0 -> o2 mod class_size k = 0 ->
  o1 < o2 + class_size k -> o2 < o1 + class_size k -> o1 = o2.
Proof.
  intros H1 H2 Ha Hb.
  destruct (dyadic k k o1 o2 ltac:(lia) H1 H2 Ha Hb).
  destruct (dyadic k k o2 o1 ltac:(lia) H2 H1 Hb Ha). lia.
Qed.

Lemma tile_ok_bounds (a off : Z) (k : nat) :
  tile_ok (a, off, k) ->
  0 <= off < 2048 /\ off mod 16 = 0 /\ 16 <= class_size k <= 2048
  /\ class_size k mod 16 = 0 /\ off + class_size k <= 2048.
Proof.
  intros (Hk & H0 & Hal & Hfit). change (PGSIZE / 2) with 2048 in Hfit.
  destruct (class_size_bounds k Hk) as [Hb H16]. change (PGSIZE / 2) with 2048 in Hb.
  split; [lia|]. split; [|lia].
  destruct (aligned_mul off (class_size k) ltac:(lia) Hal) as (q & ->).
  destruct (aligned_mul (class_size k) 16 ltac:(lia) H16) as (c & ->).
  replace (q * (c * 16)) with ((q * c) * 16) by lia. apply Z.mod_mul. lia.
Qed.

Lemma tile_ok_intro (a off : Z) (k : nat) :
  (k <= 7)%nat -> 0 <= off -> off mod class_size k = 0 -> off + class_size k <= 2048 ->
  tile_ok (a, off, k).
Proof. intros. red. change (PGSIZE / 2) with 2048. tauto. Qed.

Lemma blk_inj (a a' off off' : Z) :
  valid_page a -> valid_page a' ->
  0 <= off < 2048 -> 0 <= off' < 2048 ->
  blk a off = blk a' off' -> a = a' /\ off = off'.
Proof.
  intros Ha Ha' Ho Ho' E.
  assert (a = a') as <-.
  { rewrite <- (pg_round_down_blk a off Ha), <- (pg_round_down_blk a' off' Ha'), E;
      [reflexivity| |]; rewrite PGSIZE_eq, sizeof_arena_eq; lia. }
  split; [reflexivity|]. unfold blk in E. lia.
Qed.

(** The two halves of a block. *)
Lemma halves_ok (a off : Z) (k : nat) :
  tile_ok (a, off, S k) ->
  tile_ok (a, off, k) /\ tile_ok (a, off + class_size k, k)
  /\ Z.lxor off (class_size k) = off + class_size k
  /\ Z.lxor (off + class_size k) (class_size k) = off.
Proof.
  intros (Hk & H0 & Hal & Hfit). rewrite class_size_S in Hal, Hfit.
  pose proof (class_size_pos k) as Hpos.
  destruct (aligned_mul off (2 * class_size k) ltac:(lia) Hal) as (q & Hq).
  assert (Hlow : off mod class_size k = 0).
  { rewrite Hq. replace (q * (2 * class_size k)) with ((q * 2) * class_size k) by lia.
    apply Z.mod_mul. lia. }
  assert (Hup : (off + class_size k) mod class_size k = 0).
  { rewrite Hq.
    replace (q * (2 * class_size k) + class_size k) with ((q * 2 + 1) * class_size k) by lia.
    apply Z.mod_mul. lia. }
  assert (Hbit : Z.testbit off (Z.of_nat k + 4) = false).
  { rewrite Hq. unfold class_size.
    replace (q * (2 * (16 * 2 ^ Z.of_nat k))) with (q * 2 * 2 ^ (Z.of_nat k + 4)).
    2:{ rewrite Z.pow_add_r by lia. change (2 ^ 4) with 16. lia. }
    rewrite Z.mul_pow2_bits by lia.
    replace (Z.of_nat k + 4 - (Z.of_nat k + 4)) with 0 by lia.
    rewrite Z.bit0_odd. replace (q * 2) with (2 * q) by lia.
    rewrite Z.odd_mul. reflexivity. }
  assert (Hcs : class_size k = 2 ^ (Z.of_nat k + 4)).
  { unfold class_size. rewrite Z.pow_add_r by lia. change (2 ^ 4) with 16. lia. }
  assert (Hx : Z.lxor off (class_size k) = off + class_size k).
  { rewrite Hcs, lxor_pow2 by lia. by rewrite Hbit. }
  change (PGSIZE / 2) with 2048 in *.
  split; [|split; [|split]].
  - apply tile_ok_intro; [lia|lia|exact Hlow|lia].
  - apply tile_ok_intro; [lia|lia|exact Hup|lia].
  - exact Hx.
  - rewrite <- Hx, Z.lxor_assoc, Z.lxor_nilpotent, Z.lxor_0_r. reflexivity.
Qed.

(** The block that a block and its buddy make up. *)
Lemma parent_ok (a off : Z) (k : nat) :
  (k < 7)%nat -> tile_ok (a, off, k) ->
  let b := Z.lxor off (class_size k) in
  let p := Z.min off b in
  tile_ok (a, b, k) /\ tile_ok (a, p, S k)
  /\ (b = off + class_size k \/ b = off - class_size k)
  /\ (p = off \/ p = b)
  /\ Z.lxor b (class_size k) = off.
Proof.
  intros Hk (_ & H0 & Hal & Hfit) b p.
  destruct (buddy_offset off k ltac:(lia) H0 Hal Hfit) as (Hb & Hb0 & Hbfit & Hbal & Hpal & Hpfit).
  fold b in Hb, Hb0, Hbfit, Hbal, Hpal, Hpfit. fold p in Hpal, Hpfit.
  change (PGSIZE / 2) with 2048 in *.
  split; [apply tile_ok_intro; [lia|lia|exact Hbal|lia]|].
  split; [apply tile_ok_intro; [lia|lia|exact Hpal|lia]|].
  split; [exact Hb|]. split; [unfold p; lia|].
  unfold b. rewrite Z.lxor_assoc, Z.lxor_nilpotent, Z.lxor_0_r. reflexivity.
Qed.

Lemma overlap_sym (t1 t2 : tile) : overlap t1 t2 -> overlap t2 t1.
Proof. destruct t1 as [[a1 o1] k1], t2 as [[a2 o2] k2]. simpl. intuition. Qed.

Lemma overlap_refl (t : tile) : tile_ok t -> overlap t t.
Proof.
  destruct t as [[a o] k]. intros Ht. pose proof (class_size_pos k). simpl. lia.
Qed.

(** A block that overlaps a block of a class at least its own lies
    within it. *)
Lemma overlap_within (a o1 o2 : Z) (k1 k2 : nat) :
  (k1 <= k2)%nat -> tile_ok (a, o1, k1) -> tile_ok (a, o2, k2) ->
  overlap (a, o1, k1) (a, o2, k2) ->
  o2 <= o1 /\ o1 + class_size k1 <= o2 + class_size k2.
Proof.
  intros Hk (_ & _ & H1 & _) (_ & _ & H2 & _) (_ & Ha & Hb).
  by apply dyadic.
Qed.

(** *** The SlotMap entries of a range *)

Lemma range_quiet_spec (ar : list Z) (off d : Z) :
  0 <= off -> 0 <= d -> off mod 16 = 0 -> d mod 16 = 0 ->
  (range_busy ar off d = false <->
   forall i v, off <= 16 * Z.of_nat i < off + d -> ar !! i = Some v -> v = 0).
Proof.
  intros H0 Hd Ho16 Hd16.
  pose proof (range_busy_spec ar off d H0 Hd Ho16 Hd16) as Hs.
  split.
  - intros Hq i v Hi Hv. destruct (decide (v = 0)) as [|Hne]; [done|].
    assert (range_busy ar off d = true) as Hb; [|congruence].
    apply Hs. exists (Z.of_nat i), v. rewrite Nat2Z.id.
    split; [exact Hi|]. split; [exact Hv|exact Hne].
  - intros Hall. destruct (range_busy ar off d) eqn:Hb; [|reflexivity].
    destruct (proj1 Hs eq_refl) as (i & v & Hi & Hv & Hne).
    exfalso. apply Hne. apply (Hall (Z.to_nat i) v); [|exact Hv].
    rewrite Z2Nat.id by lia. exact Hi.
Qed.

(** *** What the invariant gives *)

Lemma quiet_entries (st : heap) (a off : Z) (k : nat) (ar : arena) :
  tile_ok (a, off, k) -> arenas st !! a = Some ar ->
  (quiet st (a, off, k) <->
   forall i v, off <= 16 * Z.of_nat i < off + class_size k -> arr ar !! i = Some v -> v = 0).
Proof.
  intros Ht Ha. destruct (tile_ok_bounds a off k Ht) as (Ho & Ho16 & Hc & Hc16 & _).
  unfold quiet. split.
  - intros Hq. apply range_quiet_spec; [lia|lia|done|done|]. by apply Hq.
  - intros Hall ar' Ha'. rewrite Ha in Ha'. injection Ha' as <-.
    apply range_quiet_spec; [lia|lia|done|done|]. exact Hall.
Qed.

(** A quiet block has no block in use inside. *)
Lemma quiet_not_live (st : heap) (a o1 o2 : Z) (k1 k2 : nat) :
  tile_ok (a, o2, k2) -> quiet st (a, o2, k2) -> live st (a, o1, k1) ->
  o2 <= o1 < o2 + class_size k2 -> False.
Proof.
  intros Ht Hq (ar & Ha & H0 & H16 & He) Hin.
  pose proof (proj1 (quiet_entries st a o2 k2 ar Ht Ha) Hq (Z.to_nat (o1 / 16))
                (class_size k1)) as Hz.
  pose proof (class_size_pos k1).
  assert (16 * Z.of_nat (Z.to_nat (o1 / 16)) = o1) as E.
  { rewrite Z2Nat.id by (apply Z.div_pos; lia).
    rewrite (Z.div_mod o1 16) at 2 by lia. lia. }
  rewrite E in Hz. specialize (Hz Hin He). lia.
Qed.

Lemma quiet_sub (st : heap) (a o1 o2 : Z) (k1 k2 : nat) :
  tile_ok (a, o1, k1) -> tile_ok (a, o2, k2) ->
  o2 <= o1 -> o1 + class_size k1 <= o2 + class_size k2 ->
  quiet st (a, o2, k2) -> quiet st (a, o1, k1).
Proof.
  intros H1 H2 Hlo Hhi Hq.
  destruct (arenas st !! a) as [ar|] eqn:Ha; [|intros ar Ha'; congruence].
  apply (quiet_entries st a o1 k1 ar H1 Ha). intros i v Hi Hv.
  apply (proj1 (quiet_entries st a o2 k2 ar H2 Ha) Hq i v); [lia|exact Hv].
Qed.

Lemma class_size_nonzero (k : nat) : class_size k <> 0.
Proof. pose proof (class_size_pos k). lia. Qed.

Lemma slot_of_offset (off : Z) :
  0 <= off -> off mod 16 = 0 -> 16 * Z.of_nat (Z.to_nat (off / 16)) = off.
Proof.
  intros H0 H16. rewrite Z2Nat.id by (apply Z.div_pos; lia).
  rewrite (Z.div_mod off 16) at 2 by lia. lia.
Qed.

Lemma offset_of_slot (i : nat) : Z.to_nat (16 * Z.of_nat i / 16) = i.
Proof.
  replace (16 * Z.of_nat i) with (Z.of_nat i * 16) by lia.
  rewrite Z.div_mul by lia. apply Nat2Z.id.
Qed.

Section Invariant.

Variable hole : option tile.
Variable st : heap.
Hypothesis Hinv : buddy_inv hole st.

Lemma inv_valid (a off : Z) (k : nat) : in_arena st (a, off, k) -> valid_page a.
Proof. intros [ar Ha]. by destruct (bi_arenas hole st Hinv a ar Ha). Qed.

Lemma tile_blk_inj (a a' off off' : Z) (k k' : nat) :
  tile_ok (a, off, k) -> in_arena st (a, off, k) ->
  tile_ok (a', off', k') -> in_arena st (a', off', k') ->
  blk a off = blk a' off' -> a = a' /\ off = off'.
Proof.
  intros Ht Ha Ht' Ha' E.
  destruct (tile_ok_bounds a off k Ht) as (Ho & _).
  destruct (tile_ok_bounds a' off' k' Ht') as (Ho' & _).
  apply blk_inj; try done; by eapply inv_valid.
Qed.

Lemma live_tile (a off : Z) (k : nat) :
  live st (a, off, k) -> tile_ok (a, off, k) /\ in_arena st (a, off, k).
Proof.
  intros (ar & Ha & H0 & H16 & He). split; [|by exists ar].
  destruct (bi_live hole st Hinv a ar _ _ Ha He (class_size_nonzero k)) as (k' & Hk & Ht).
  apply class_size_inj in Hk as <-. by rewrite slot_of_offset in Ht.
Qed.

Lemma listed_tile (k : nat) (dsc : desc) (b : Z) :
  descs st !! k = Some dsc -> b ∈ free_list dsc ->
  (k < 7)%nat /\ exists a off, b = blk a off /\ tile_ok (a, off, k)
    /\ in_arena st (a, off, k) /\ listed st (a, off, k).
Proof.
  intros Hd Hb. destruct (bi_listed hole st Hinv k dsc b Hd Hb) as (Hk & a & off & -> & Ha & Ht).
  split; [exact Hk|]. exists a, off. split_conj; try done. by exists dsc.
Qed.

Lemma hole_not_live (t : tile) : hole = Some t -> live st t -> False.
Proof.
  intros Hh Hl. destruct (bi_hole hole st Hinv t Hh) as (Ht & Ha & _).
  destruct t as [[a off] k].
  pose proof (bi_quiet hole st Hinv _ Ht Ha (or_intror Hh)) as Hq.
  destruct (tile_ok_bounds a off k Ht) as (_ & _ & Hc & _).
  apply (quiet_not_live st a off off k k Ht Hq Hl). lia.
Qed.

Lemma listed_not_live (t : tile) :
  tile_ok t -> in_arena st t -> listed st t -> live st t -> False.
Proof.
  intros Ht Ha Hli Hl. destruct t as [[a off] k].
  pose proof (bi_quiet hole st Hinv _ Ht Ha (or_introl Hli)) as Hq.
  destruct (tile_ok_bounds a off k Ht) as (_ & _ & Hc & _).
  apply (quiet_not_live st a off off k k Ht Hq Hl). lia.
Qed.

Lemma hole_not_listed (t : tile) : hole = Some t -> listed st t -> False.
Proof. intros Hh Hl. by destruct (bi_hole hole st Hinv t Hh) as (_ & _ & Hn). Qed.

(** Two blocks at the same place are one block. *)
Lemma tile_class (a off : Z) (k1 k2 : nat) :
  is_tile st hole (a, off, k1) -> is_tile st hole (a, off, k2) -> k1 = k2.
Proof.
  intros H1 H2.
  assert (overlap (a, off, k1) (a, off, k2)) as Ho.
  { pose proof (class_size_pos k1). pose proof (class_size_pos k2). simpl. lia. }
  pose proof (bi_disjoint hole st Hinv _ _ H1 H2 Ho) as E. congruence.
Qed.

(** No block in use begins in a quiet block. *)
Lemma quiet_no_live (a o r : Z) (j k : nat) :
  tile_ok (a, r, k) -> quiet st (a, r, k) -> live st (a, o, j) ->
  r <= o < r + class_size k -> False.
Proof. intros. by eapply (quiet_not_live st a o r j k). Qed.

(** The invariant contains what [malloc] relies on. *)
Lemma inv_heap_ok : heap_ok st.
Proof.
  split.
  - exact (bi_sizes hole st Hinv).
  - exact (bi_cnt hole st Hinv).
  - intros k dsc b Hk Hd Hb.
    destruct (bi_listed hole st Hinv k dsc b Hd Hb) as (_ & a & off & -> & [ar Ha] & Ht).
    destruct (bi_arenas hole st Hinv a ar Ha) as (Hp & Hm & Hlen & _).
    destruct Ht as (_ & H0 & _ & Hfit).
    exists a, off, ar. by split_conj.
  - intros pg Hpg. by destruct (proj2 (bi_pool hole st Hinv) pg Hpg).
Qed.

(** Inside a quiet block that the hole does not touch there is no
    free block of a smaller class: its buddy would be free as well. *)
Lemma no_small_listed (a r : Z) (k : nat) :
  tile_ok (a, r, k) -> in_arena st (a, r, k) -> quiet st (a, r, k) ->
  (forall h, hole = Some h -> ~ overlap h (a, r, k)) ->
  forall j o, (j < k)%nat -> tile_ok (a, o, j) -> overlap (a, o, j) (a, r, k) ->
              listed st (a, o, j) -> False.
Proof.
  intros HR HRa Hq Hh.
  induction j as [j IH] using lt_wf_ind. intros o Hj Ht Hov Hl.
  destruct HRa as [ar Ha].
  assert (Hk7 : (k <= 7)%nat) by (by destruct HR).
  destruct (parent_ok a o j ltac:(lia) Ht) as (Hb & Hp & Hbo & Hpo & Hinvol).
  set (b := Z.lxor o (class_size j)) in *. set (p := Z.min o b) in *.
  pose proof (class_size_pos j) as Hcj. pose proof (class_size_S j) as HcS.
  (* the parent of the block lies within the quiet block *)
  assert (Hpov : overlap (a, p, S j) (a, r, k)).
  { destruct Hov as (_ & H1 & H2). simpl. lia. }
  destruct (overlap_within a p r (S j) k ltac:(lia) Hp HR Hpov) as [Hp1 Hp2].
  (* the tile that covers the first slot of the buddy *)
  destruct (tile_ok_bounds a b j Hb) as (Hb0 & Hb16 & _ & _ & Hbfit).
  assert (Hslot : (Z.to_nat (b / 16) < ARR_LEN)%nat).
  { change ARR_LEN with (Z.to_nat 128). apply Z2Nat.inj_lt; [apply Z.div_pos; lia|lia|].
    apply Z.div_lt_upper_bound; lia. }
  destruct (bi_cover hole st Hinv a ar _ Ha Hslot) as (u & i & Hu & Hin).
  rewrite slot_of_offset in Hin by lia.
  assert (HT : is_tile st hole (a, o, j)).
  { split; [exact Ht|]. split; [by exists ar|]. right. by left. }
  destruct Hu as (Hut & Hua & Hukind).
  assert (Hub : overlap (a, u, i) (a, b, j)) by (simpl; lia).
  destruct (Nat.lt_trichotomy i j) as [Hlt|[->|Hgt]].
  - (* a smaller tile inside the buddy *)
    destruct (overlap_within a u b i j ltac:(lia) Hut Hb Hub) as [Hu1 Hu2].
    assert (Hur : overlap (a, u, i) (a, r, k)).
    { pose proof (class_size_pos i). simpl. lia. }
    destruct Hukind as [Hlive|[Hlisted|Hhole]].
    + apply (quiet_no_live a u r i k HR Hq Hlive). lia.
    + apply (IH i Hlt u ltac:(lia) Hut Hur Hlisted).
    + by apply (Hh _ Hhole).
  - (* the buddy itself *)
    assert (u = b) as ->.
    { destruct Hut as (_ & _ & Hual & _). destruct Hb as (_ & _ & Hbal & _).
      apply (dyadic_same j); [done|done|lia|lia]. }
    destruct Hukind as [Hlive|[Hlisted|Hhole]].
    + apply (quiet_no_live a b r j k HR Hq Hlive). lia.
    + apply (bi_max hole st Hinv a o j ltac:(lia) Ht (ex_intro _ ar Ha) Hl Hlisted).
    + apply (Hh _ Hhole). simpl. lia.
  - (* a larger tile: it holds the block as well *)
    assert (Hup : overlap (a, p, S j) (a, u, i)).
    { pose proof (class_size_pos i).
      destruct (overlap_within a b u j i ltac:(lia) Hb Hut (overlap_sym _ _ Hub)).
      simpl. lia. }
    destruct (overlap_within a p u (S j) i ltac:(lia) Hp Hut Hup) as [Hq1 Hq2].
    assert (Hou : overlap (a, o, j) (a, u, i)) by (simpl; lia).
    pose proof (bi_disjoint hole st Hinv _ _ HT (conj Hut (conj Hua Hukind)) Hou) as E.
    injection E as _ E. lia.
Qed.

(** The buddy of a block, when none of its entries is set and the hole
    does not touch it, is a free block of the same class. *)
Lemma buddy_free (a off : Z) (k : nat) :
  is_tile st hole (a, off, k) -> (k < 7)%nat ->
  quiet st (a, Z.lxor off (class_size k), k) ->
  (forall h, hole = Some h -> ~ overlap h (a, Z.lxor off (class_size k), k)) ->
  listed st (a, Z.lxor off (class_size k), k).
Proof.
  intros HH Hk Hq Hfar.
  destruct HH as (Ht & [ar Ha] & Hkind0).
  assert (HH : is_tile st hole (a, off, k)).
  { split; [exact Ht|]. split; [by exists ar|exact Hkind0]. }
  destruct (parent_ok a off k Hk Ht) as (Hb & Hp & Hbo & Hpo & Hinvol).
  set (b := Z.lxor off (class_size k)) in *. set (p := Z.min off b) in *.
  pose proof (class_size_pos k) as Hck. pose proof (class_size_S k) as HcS.
  destruct (tile_ok_bounds a b k Hb) as (Hb0 & Hb16 & _ & _ & Hbfit).
  assert (Hslot : (Z.to_nat (b / 16) < ARR_LEN)%nat).
  { change ARR_LEN with (Z.to_nat 128). apply Z2Nat.inj_lt; [apply Z.div_pos; lia|lia|].
    apply Z.div_lt_upper_bound; lia. }
  destruct (bi_cover hole st Hinv a ar _ Ha Hslot) as (u & i & Hu & Hin).
  rewrite slot_of_offset in Hin by lia.
  destruct Hu as (Hut & Hua & Hukind).
  assert (Hub : overlap (a, u, i) (a, b, k)) by (unfold overlap; lia).
  destruct (Nat.lt_trichotomy i k) as [Hlt|[->|Hgt]].
  - exfalso.
    destruct (overlap_within a u b i k ltac:(lia) Hut Hb Hub) as [Hu1 Hu2].
    destruct Hukind as [Hlive|[Hlisted|Hhole]].
    + apply (quiet_no_live a u b i k Hb Hq Hlive). lia.
    + apply (no_small_listed a b k Hb (ex_intro _ ar Ha) Hq Hfar i u Hlt Hut Hub Hlisted).
    + by apply (Hfar _ Hhole).
  - assert (u = b) as ->.
    { destruct Hut as (_ & _ & Hual & _). destruct Hb as (_ & _ & Hbal & _).
      apply (dyadic_same k); [done|done|lia|lia]. }
    destruct Hukind as [Hlive|[Hlisted|Hhole]].
    + exfalso. apply (quiet_no_live a b b k k Hb Hq Hlive). lia.
    + exact Hlisted.
    + exfalso. by apply (Hfar _ Hhole).
  - exfalso.
    assert (Hup : overlap (a, p, S k) (a, u, i)).
    { pose proof (class_size_pos i).
      destruct (overlap_within a b u k i ltac:(lia) Hb Hut (overlap_sym _ _ Hub)).
      unfold overlap. lia. }
    destruct (overlap_within a p u (S k) i ltac:(lia) Hp Hut Hup) as [Hq1 Hq2].
    assert (Hou : overlap (a, off, k) (a, u, i)) by (unfold overlap; lia).
    pose proof (bi_disjoint hole st Hinv _ _ HH (conj Hut (conj Hua Hukind)) Hou) as E.
    injection E as _ E. lia.
Qed.

(** The buddy of the hole, when none of its entries is set, is a free
    block of the class of the hole. *)
Lemma buddy_listed (a off : Z) (k : nat) :
  hole = Some (a, off, k) -> (k < 7)%nat ->
  quiet st (a, Z.lxor off (class_size k), k) ->
  listed st (a, Z.lxor off (class_size k), k).
Proof.
  intros Hh Hk Hq.
  destruct (bi_hole hole st Hinv _ Hh) as (Ht & Ha & Hnl).
  destruct (parent_ok a off k Hk Ht) as (Hb & Hp & Hbo & Hpo & Hinvol).
  pose proof (class_size_pos k) as Hck.
  apply buddy_free; [|exact Hk|exact Hq|].
  - split; [exact Ht|]. split; [exact Ha|]. right. by right.
  - intros h Hh'. rewrite Hh in Hh'. injection Hh' as <-. unfold overlap. lia.
Qed.

End Invariant.

(** *** The free lists after an update *)

Lemma listed_replace (st : heap) (k : nat) (dsc : desc) (l' : list Z) (a off : Z) (j : nat) :
  descs st !! k = Some dsc ->
  listed (set_descs (<[k := Desc (desc_block_size dsc) l']> (descs st)) st) (a, off, j)
  <-> (j = k /\ blk a off ∈ l') \/ (j <> k /\ listed st (a, off, j)).
Proof.
  intros Hd. unfold listed, set_descs. simpl.
  destruct (decide (j = k)) as [->|Hne].
  - rewrite list_lookup_insert_eq by (by eapply lookup_lt_Some). split.
    + intros (d' & [= <-] & Hin). left. by split.
    + intros [[_ Hin]|[Hne _]]; [|done]. eexists. split; [reflexivity|exact Hin].
  - rewrite list_lookup_insert_ne by done. split.
    + intros H. right. by split.
    + intros [[E _]|[_ H]]; [done|exact H].
Qed.

Lemma unlink_elem (e x : Z) (dsc : desc) :
  x ∈ free_list (unlink e dsc) <-> x ∈ free_list dsc /\ x <> e.
Proof.
  unfold unlink. simpl. rewrite !list_elem_of_In, List.filter_In.
  rewrite negb_true_iff, Z.eqb_neq. reflexivity.
Qed.

Lemma listed_unlink (st : heap) (e a off : Z) (j : nat) :
  listed (set_descs (map (unlink e) (descs st)) st) (a, off, j)
  <-> listed st (a, off, j) /\ blk a off <> e.
Proof.
  unfold listed, set_descs. simpl.
  change (map (unlink e) (descs st)) with (unlink e <$> descs st).
  rewrite list_lookup_fmap. destruct (descs st !! j) as [dsc|]; simpl.
  - split.
    + intros (d' & [= <-] & Hin). apply unlink_elem in Hin as [Hin Hne].
      split; [|exact Hne]. by exists dsc.
    + intros [(d' & [= <-] & Hin) Hne]. eexists. split; [reflexivity|].
      apply unlink_elem. by split.
  - split; [intros (d' & [=] & _)|intros [(d' & [=] & _) _]].
Qed.

Lemma sizes_unlink (e : Z) (ds : list desc) :
  desc_block_size <$> map (unlink e) ds = desc_block_size <$> ds.
Proof.
  change (map (unlink e) ds) with (unlink e <$> ds).
  rewrite <- list_fmap_compose. apply list_fmap_ext. by intros ? [].
Qed.

(** *** The steps of [malloc] and [free] on the free lists *)

(** Taking the first block of a free list: the block becomes the
    hole. *)
Lemma inv_pop (st : heap) (k : nat) (dsc : desc) (b : Z) (l : list Z) :
  buddy_inv None st ->
  descs st !! k = Some dsc -> free_list dsc = b :: l ->
  exists a off,
    b = blk a off /\ (k < 7)%nat
    /\ buddy_inv (Some (a, off, k))
         (set_descs (<[k := Desc (desc_block_size dsc) l]> (descs st)) st).
Proof.
  intros Hinv Hd Hl.
  assert (Hbin : b ∈ free_list dsc) by (rewrite Hl; apply list_elem_of_here).
  destruct (listed_tile None st Hinv k dsc b Hd Hbin) as (Hk & a & off & -> & Ht & Ha & Hli).
  pose proof (bi_nodup None st Hinv k dsc Hd) as Hnd. rewrite Hl in Hnd.
  exists a, off. split; [reflexivity|]. split; [exact Hk|].
  set (st' := set_descs (<[k := Desc (desc_block_size dsc) l]> (descs st)) st).
  assert (Hold : forall a' o' j, listed st' (a', o', j) -> listed st (a', o', j)).
  { intros a' o' j H. apply (listed_replace st k dsc l a' o' j Hd) in H as [[-> Hin]|[_ H]];
      [|exact H].
    exists dsc. split; [exact Hd|]. rewrite Hl. by apply list_elem_of_further. }
  assert (Hnot : ~ listed st' (a, off, k)).
  { intros H. apply (listed_replace st k dsc l a off k Hd) in H as [[_ Hin]|[Hne _]]; [|done].
    by apply NoDup_cons_1_1 in Hnd. }
  assert (Hnew : forall t, tile_ok t -> in_arena st t -> listed st t ->
                   listed st' t \/ t = (a, off, k)).
  { intros [[a' o'] j] Ht' Ha' (d' & Hd' & Hin).
    destruct (decide (j = k)) as [->|Hne].
    - rewrite Hd in Hd'. revert Hd'; intros [= <-]. rewrite Hl in Hin.
      apply elem_of_cons in Hin as [E|Hin].
      + right. destruct (tile_blk_inj None st Hinv a' a o' off k k Ht' Ha' Ht Ha E) as [-> ->].
        reflexivity.
      + left. apply (listed_replace st k dsc l a' o' k Hd). left. by split.
    - left. apply (listed_replace st k dsc l a' o' j Hd). right. split; [done|].
      by exists d'. }
  split.
  - unfold st'. simpl. rewrite (sizes_insert _ _ _ _ Hd). exact (bi_sizes None st Hinv).
  - exact (bi_cnt None st Hinv).
  - exact (bi_arenas None st Hinv).
  - exact (bi_pages None st Hinv).
  - exact (bi_pool None st Hinv).
  - exact (bi_live None st Hinv).
  - intros j d' b' Hd' Hb'. unfold st' in Hd'. simpl in Hd'.
    destruct (decide (j = k)) as [->|Hne].
    + rewrite list_lookup_insert_eq in Hd' by (by eapply lookup_lt_Some).
      revert Hd'; intros [= <-]. simpl in Hb'.
      apply (bi_listed None st Hinv k dsc b' Hd). rewrite Hl. by apply list_elem_of_further.
    + rewrite list_lookup_insert_ne in Hd' by done.
      by apply (bi_listed None st Hinv j d' b').
  - intros j d' Hd'. unfold st' in Hd'. simpl in Hd'.
    destruct (decide (j = k)) as [->|Hne].
    + rewrite list_lookup_insert_eq in Hd' by (by eapply lookup_lt_Some).
      revert Hd'; intros [= <-]. simpl. by apply NoDup_cons_1_2 in Hnd.
    + rewrite list_lookup_insert_ne in Hd' by done. by apply (bi_nodup None st Hinv j d').
  - intros t [= <-]. split; [exact Ht|]. split; [exact Ha|exact Hnot].
  - intros t Ht' Ha' [H|[= <-]].
    + destruct t as [[a' o'] j]. apply Hold in H.
      exact (bi_quiet None st Hinv _ Ht' Ha' (or_introl H)).
    + exact (bi_quiet None st Hinv _ Ht Ha (or_introl Hli)).
  - assert (Hback : forall t, is_tile st' (Some (a, off, k)) t -> is_tile st None t).
    { intros [[a' o'] j] (Ht' & Ha' & [H|[H|[= -> -> ->]]]).
      - split; [exact Ht'|]. split; [exact Ha'|]. by left.
      - split; [exact Ht'|]. split; [exact Ha'|]. right. left. by apply Hold.
      - split; [exact Ht'|]. split; [exact Ha'|]. right. by left. }
    intros t1 t2 H1 H2. apply (bi_disjoint None st Hinv); by apply Hback.
  - intros a' ar i Ha' Hi.
    destruct (bi_cover None st Hinv a' ar i Ha' Hi) as (o' & j & (Ht' & Hia & Hkind) & Hin).
    exists o', j. split; [|exact Hin]. split; [exact Ht'|]. split; [exact Hia|].
    destruct Hkind as [H|[H|H]]; [by left| |done].
    destruct (Hnew _ Ht' Hia H) as [H'|E]; [right; by left|right; right; by rewrite E].
  - intros a' o' j Hj Ht' Ha' H1 H2.
    apply (bi_max None st Hinv a' o' j Hj Ht' Ha'); by apply Hold.
Qed.

(** A block that is in use or free does not touch the hole. *)
Lemma hole_apart (st : heap) (h t : tile) :
  buddy_inv (Some h) st ->
  tile_ok t -> in_arena st t -> live st t \/ listed st t -> overlap t h -> False.
Proof.
  intros Hinv Ht Ha Hkind Hov.
  destruct (bi_hole (Some h) st Hinv h eq_refl) as (Hth & Hah & Hnl).
  assert (t = h) as ->.
  { apply (bi_disjoint (Some h) st Hinv); [| |exact Hov].
    - split; [exact Ht|]. split; [exact Ha|]. destruct Hkind; [by left|right; by left].
    - split; [exact Hth|]. split; [exact Hah|]. right. by right. }
  destruct Hkind as [Hl|Hl]; [|done].
  by apply (hole_not_live (Some h) st Hinv h).
Qed.

(** Putting the hole on the free list of its class, its buddy being
    busy. *)
Lemma inv_push_back (st : heap) (a off : Z) (k : nat) (dsc : desc) :
  buddy_inv (Some (a, off, k)) st -> (k < 7)%nat ->
  descs st !! k = Some dsc ->
  ~ quiet st (a, Z.lxor off (class_size k), k) ->
  buddy_inv None
    (set_descs (<[k := Desc (desc_block_size dsc) (free_list dsc ++ [blk a off])]> (descs st))
       st).
Proof.
  intros Hinv Hk Hd Hbusy.
  destruct (bi_hole _ st Hinv _ eq_refl) as (Ht & Ha & Hnl).
  destruct (parent_ok a off k Hk Ht) as (Hb & Hp & Hbo & Hpo & Hinvol).
  pose proof (class_size_pos k) as Hck.
  set (st' := set_descs _ st).
  assert (Hiff : forall a' o' j, listed st' (a', o', j)
                   <-> listed st (a', o', j) \/ (j = k /\ blk a' o' = blk a off)).
  { intros a' o' j. unfold st'. rewrite (listed_replace st k dsc _ a' o' j Hd).
    rewrite elem_of_app, list_elem_of_singleton. split.
    - intros [[-> [Hin|E]]|[_ H]]; [left; by exists dsc|right; by split|by left].
    - intros [(d' & Hd' & Hin)|[-> E]].
      + destruct (decide (j = k)) as [->|Hne].
        * left. split; [done|]. left. congruence.
        * right. split; [done|]. by exists d'.
      + left. split; [done|]. by right. }
  assert (Hnew : forall t, tile_ok t -> in_arena st t -> listed st' t ->
                   listed st t \/ t = (a, off, k)).
  { intros [[a' o'] j] Ht' Ha' H. apply Hiff in H as [H|[-> E]]; [by left|right].
    destruct (tile_blk_inj _ st Hinv a' a o' off k k Ht' Ha' Ht Ha E) as [-> ->].
    reflexivity. }
  assert (Hbuddy : ~ listed st (a, Z.lxor off (class_size k), k)).
  { intros H. apply Hbusy. apply (bi_quiet _ st Hinv _ Hb Ha). by left. }
  split.
  - unfold st'. simpl. rewrite (sizes_insert _ _ _ _ Hd). exact (bi_sizes _ st Hinv).
  - exact (bi_cnt _ st Hinv).
  - exact (bi_arenas _ st Hinv).
  - exact (bi_pages _ st Hinv).
  - exact (bi_pool _ st Hinv).
  - exact (bi_live _ st Hinv).
  - intros j d' b' Hd' Hb'. unfold st' in Hd'. simpl in Hd'.
    destruct (decide (j = k)) as [->|Hne].
    + rewrite list_lookup_insert_eq in Hd' by (by eapply lookup_lt_Some).
      revert Hd'; intros [= <-]. simpl in Hb'.
      apply elem_of_app in Hb' as [Hb'|Hb'].
      * by apply (bi_listed _ st Hinv k dsc b' Hd).
      * apply list_elem_of_singleton in Hb' as ->.
        split; [exact Hk|]. by exists a, off.
    + rewrite list_lookup_insert_ne in Hd' by done.
      by apply (bi_listed _ st Hinv j d' b').
  - intros j d' Hd'. unfold st' in Hd'. simpl in Hd'.
    destruct (decide (j = k)) as [->|Hne].
    + rewrite list_lookup_insert_eq in Hd' by (by eapply lookup_lt_Some).
      revert Hd'; intros [= <-]. simpl. apply NoDup_app.
      split; [by apply (bi_nodup _ st Hinv k dsc)|]. split; [|apply NoDup_singleton].
      intros x Hx Hx'. apply list_elem_of_singleton in Hx' as ->.
      apply Hnl. by exists dsc.
    + rewrite list_lookup_insert_ne in Hd' by done. by apply (bi_nodup _ st Hinv j d').
  - intros t [=].
  - intros t Ht' Ha' [H|[=]].
    destruct (Hnew t Ht' Ha' H) as [H' | ->].
    + exact (bi_quiet _ st Hinv _ Ht' Ha' (or_introl H')).
    + exact (bi_quiet _ st Hinv _ Ht Ha (or_intror eq_refl)).
  - assert (Hback : forall t, is_tile st' None t -> is_tile st (Some (a, off, k)) t).
    { intros t (Ht' & Ha' & [H|[H|[=]]]).
      - split; [exact Ht'|]. split; [exact Ha'|]. by left.
      - split; [exact Ht'|]. split; [exact Ha'|].
        destruct (Hnew t Ht' Ha' H) as [H' | ->]; [right; by left|right; by right]. }
    intros t1 t2 H1 H2. apply (bi_disjoint _ st Hinv); by apply Hback.
  - intros a' ar i Ha' Hi.
    destruct (bi_cover _ st Hinv a' ar i Ha' Hi) as (o' & j & (Ht' & Hia & Hkind) & Hin).
    exists o', j. split; [|exact Hin]. split; [exact Ht'|]. split; [exact Hia|].
    destruct Hkind as [H|[H|[= -> -> ->]]]; [by left| |].
    + right. left. apply Hiff. by left.
    + right. left. apply Hiff. right. by split.
  - intros a' o' j Hj Ht' Ha' H1 H2.
    destruct (parent_ok a' o' j Hj Ht') as (Hb' & _ & Hbo' & _ & Hinvol').
    destruct (Hnew _ Ht' Ha' H1) as [H1'|E1]; destruct (Hnew _ Hb' Ha' H2) as [H2'|E2].
    + by apply (bi_max _ st Hinv a' o' j Hj Ht' Ha').
    + revert E2; intros [= -> E ->]. apply Hbuddy. rewrite <- E, Hinvol'. exact H1'.
    + revert E1; intros [= -> -> ->]. by apply Hbuddy.
    + revert E1; intros [= -> -> ->]. injection E2 as E. lia.
Qed.

(** Cutting the hole in two: the upper half goes to the free list of
    the class below, the lower half is the hole. *)
Lemma inv_split (st : heap) (a off : Z) (d : nat) (dsc : desc) :
  buddy_inv (Some (a, off, S d)) st ->
  descs st !! d = Some dsc ->
  buddy_inv (Some (a, off, d))
    (set_descs
       (<[d := Desc (desc_block_size dsc) (free_list dsc ++ [blk a (off + class_size d)])]>
          (descs st))
       st).
Proof.
  intros Hinv Hd.
  destruct (bi_hole _ st Hinv _ eq_refl) as (HtP & Ha & HnlP).
  destruct (halves_ok a off d HtP) as (HtL & HtU & HxL & HxU).
  assert (Hd7 : (d < 7)%nat) by (destruct HtP; lia).
  pose proof (class_size_pos d) as Hcd. pose proof (class_size_S d) as HcS.
  set (st' := set_descs _ st).
  assert (HovL : overlap (a, off, d) (a, off, S d)) by (simpl; lia).
  assert (HovU : overlap (a, off + class_size d, d) (a, off, S d)) by (simpl; lia).
  assert (Hiff : forall a' o' j, listed st' (a', o', j)
                   <-> listed st (a', o', j)
                       \/ (j = d /\ blk a' o' = blk a (off + class_size d))).
  { intros a' o' j. unfold st'. rewrite (listed_replace st d dsc _ a' o' j Hd).
    rewrite elem_of_app, list_elem_of_singleton. split.
    - intros [[-> [Hin|E]]|[_ H]]; [left; by exists dsc|right; by split|by left].
    - intros [(d' & Hd' & Hin)|[-> E]].
      + destruct (decide (j = d)) as [->|Hne].
        * left. split; [done|]. left. congruence.
        * right. split; [done|]. by exists d'.
      + left. split; [done|]. by right. }
  assert (Hnew : forall t, tile_ok t -> in_arena st t -> listed st' t ->
                   listed st t \/ t = (a, off + class_size d, d)).
  { intros [[a' o'] j] Ht' Ha' H. apply Hiff in H as [H|[-> E]]; [by left|right].
    destruct (tile_blk_inj _ st Hinv a' a o' _ d d Ht' Ha' HtU Ha E) as [-> ->].
    reflexivity. }
  assert (HnoL : ~ listed st' (a, off, d)).
  { intros H. destruct (Hnew _ HtL Ha H) as [H'|E].
    - apply (hole_apart st _ _ Hinv HtL Ha (or_intror H') HovL).
    - injection E as E. lia. }
  assert (HqP : quiet st (a, off, S d)).
  { apply (bi_quiet _ st Hinv _ HtP Ha). by right. }
  split.
  - unfold st'. simpl. rewrite (sizes_insert _ _ _ _ Hd). exact (bi_sizes _ st Hinv).
  - exact (bi_cnt _ st Hinv).
  - exact (bi_arenas _ st Hinv).
  - exact (bi_pages _ st Hinv).
  - exact (bi_pool _ st Hinv).
  - exact (bi_live _ st Hinv).
  - intros j d' b' Hd' Hb'. unfold st' in Hd'. simpl in Hd'.
    destruct (decide (j = d)) as [->|Hne].
    + rewrite list_lookup_insert_eq in Hd' by (by eapply lookup_lt_Some).
      revert Hd'; intros [= <-]. simpl in Hb'.
      apply elem_of_app in Hb' as [Hb'|Hb'].
      * by apply (bi_listed _ st Hinv d dsc b' Hd).
      * apply list_elem_of_singleton in Hb' as ->.
        split; [exact Hd7|]. by exists a, (off + class_size d).
    + rewrite list_lookup_insert_ne in Hd' by done.
      by apply (bi_listed _ st Hinv j d' b').
  - intros j d' Hd'. unfold st' in Hd'. simpl in Hd'.
    destruct (decide (j = d)) as [->|Hne].
    + rewrite list_lookup_insert_eq in Hd' by (by eapply lookup_lt_Some).
      revert Hd'; intros [= <-]. simpl. apply NoDup_app.
      split; [by apply (bi_nodup _ st Hinv d dsc)|]. split; [|apply NoDup_singleton].
      intros x Hx Hx'. apply list_elem_of_singleton in Hx' as ->.
      apply (hole_apart st _ _ Hinv HtU Ha); [|exact HovU]. right. by exists dsc.
    + rewrite list_lookup_insert_ne in Hd' by done. by apply (bi_nodup _ st Hinv j d').
  - intros t [= <-]. split; [exact HtL|]. split; [exact Ha|exact HnoL].
  - intros t Ht' Ha' [H|[= <-]].
    + destruct (Hnew t Ht' Ha' H) as [H' | ->].
      * exact (bi_quiet _ st Hinv _ Ht' Ha' (or_introl H')).
      * apply (quiet_sub st a _ off d (S d) HtU HtP); [lia|lia|exact HqP].
    + apply (quiet_sub st a _ off d (S d) HtL HtP); [lia|lia|exact HqP].
  - assert (Hcls : forall t, is_tile st' (Some (a, off, d)) t ->
              (tile_ok t /\ in_arena st t /\ (live st t \/ listed st t))
              \/ t = (a, off + class_size d, d) \/ t = (a, off, d)).
    { intros t (Ht' & Ha' & [H|[H|[= <-]]]).
      - left. split; [exact Ht'|]. split; [exact Ha'|]. by left.
      - destruct (Hnew t Ht' Ha' H) as [H' | ->]; [|right; by left].
        left. split; [exact Ht'|]. split; [exact Ha'|]. by right.
      - right. by right. }
    assert (Hold : forall t, tile_ok t /\ in_arena st t /\ (live st t \/ listed st t) ->
              is_tile st (Some (a, off, S d)) t).
    { intros t (Ht' & Ha' & [H|H]); (split; [exact Ht'|]); (split; [exact Ha'|]);
        [by left|right; by left]. }
    assert (Hin : forall t t', tile_ok t /\ in_arena st t /\ (live st t \/ listed st t) ->
              t' = (a, off + class_size d, d) \/ t' = (a, off, d) -> overlap t t' -> False).
    { intros [[a' o'] j] t' (Ht' & Ha' & Hkind) Ht'' Hov.
      apply (hole_apart st _ _ Hinv Ht' Ha' Hkind).
      destruct Ht'' as [-> | ->]; destruct Hov as (-> & H1 & H2); simpl; lia. }
    intros t1 t2 H1 H2 Hov.
    destruct (Hcls t1 H1) as [H1'|H1']; destruct (Hcls t2 H2) as [H2'|H2'].
    + apply (bi_disjoint _ st Hinv); [by apply Hold|by apply Hold|exact Hov].
    + exfalso. by apply (Hin t1 t2).
    + exfalso. apply (Hin t2 t1 H2' H1'). by apply overlap_sym.
    + destruct H1' as [-> | ->]; destruct H2' as [-> | ->]; try reflexivity;
        destruct Hov as (_ & Ho1 & Ho2); lia.
  - intros a' ar i Ha' Hi.
    destruct (bi_cover _ st Hinv a' ar i Ha' Hi) as (o' & j & (Ht' & Hia & Hkind) & Hin).
    destruct Hkind as [H|[H|[= <- <- <-]]].
    + exists o', j. split; [|exact Hin]. split; [exact Ht'|]. split; [exact Hia|]. by left.
    + exists o', j. split; [|exact Hin]. split; [exact Ht'|]. split; [exact Hia|].
      right. left. apply Hiff. by left.
    + destruct (Z.lt_ge_cases (16 * Z.of_nat i) (off + class_size d)).
      * exists off, d. split; [|lia]. split; [exact HtL|]. split; [exact Ha|].
        right. by right.
      * exists (off + class_size d), d. split; [|lia].
        split; [exact HtU|]. split; [exact Ha|]. right. left. apply Hiff. right. by split.
  - intros a' o' j Hj Ht' Ha' H1 H2.
    destruct (parent_ok a' o' j Hj Ht') as (Hb' & _ & Hbo' & _ & Hinvol').
    destruct (Hnew _ Ht' Ha' H1) as [H1'|E1]; destruct (Hnew _ Hb' Ha' H2) as [H2'|E2].
    + by apply (bi_max _ st Hinv a' o' j Hj Ht' Ha').
    + revert E2; intros [= -> E ->]. apply HnoL.
      replace off with o'; [exact H1|]. rewrite <- Hinvol', E. exact HxU.
    + revert E1; intros [= -> -> ->]. apply HnoL. by rewrite HxU in H2.
    + revert E1; intros [= -> -> ->]. injection E2 as E. lia.
Qed.

Lemma NoDup_list_filter (f : Z -> bool) (l : list Z) : NoDup l -> NoDup (List.filter f l).
Proof.
  induction 1 as [|x l Hx Hnd IH]; simpl; [constructor|].
  destruct (f x); [|exact IH]. constructor; [|exact IH].
  intros Hin. apply Hx. apply list_elem_of_In in Hin. apply List.filter_In in Hin as [Hin _].
  by apply list_elem_of_In.
Qed.

(** Merging the hole with its free buddy. *)
Lemma inv_merge (st : heap) (a off : Z) (k : nat) :
  buddy_inv (Some (a, off, k)) st -> (k < 7)%nat ->
  listed st (a, Z.lxor off (class_size k), k) ->
  buddy_inv (Some (a, Z.min off (Z.lxor off (class_size k)), S k))
    (set_descs (map (unlink (blk a (Z.lxor off (class_size k)))) (descs st)) st).
Proof.
  intros Hinv Hk HlB.
  destruct (bi_hole _ st Hinv _ eq_refl) as (Ht & Ha & Hnl).
  destruct (parent_ok a off k Hk Ht) as (HtB & HtP & Hbo & Hpo & Hinvol).
  remember (Z.lxor off (class_size k)) as b eqn:Hbdef.
  remember (Z.min off b) as p eqn:Hpm.
  pose proof (class_size_pos k) as Hck. pose proof (class_size_S k) as HcS.
  assert (HovH : overlap (a, p, S k) (a, off, k)) by (unfold overlap; lia).
  assert (Hpart : forall t, overlap t (a, p, S k) ->
                    overlap t (a, off, k) \/ overlap t (a, b, k)).
  { intros [[a' o'] j] (-> & H1 & H2). pose proof (class_size_pos j). unfold overlap. lia. }
  assert (HinP : forall x, off <= x < off + class_size k \/ b <= x < b + class_size k ->
                   p <= x < p + class_size (S k)) by lia.
  set (st' := set_descs _ st).
  assert (HB : is_tile st (Some (a, off, k)) (a, b, k)).
  { split; [exact HtB|]. split; [exact Ha|]. right. by left. }
  assert (Hiff : forall a' o' j, listed st' (a', o', j)
                   <-> listed st (a', o', j) /\ blk a' o' <> blk a b).
  { intros a' o' j. apply listed_unlink. }
  assert (Hkeep : forall t, tile_ok t -> in_arena st t -> listed st t ->
                    listed st' t \/ t = (a, b, k)).
  { intros [[a' o'] j] Ht' Ha' H.
    destruct (decide (blk a' o' = blk a b)) as [E|Hne]; [right|left; by apply Hiff].
    destruct (tile_blk_inj _ st Hinv a' a o' b j k Ht' Ha' HtB Ha E) as [-> ->].
    f_equal. apply (tile_class _ st Hinv a b); [|exact HB].
    split; [exact Ht'|]. split; [exact Ha'|]. right. by left. }
  split.
  - unfold st'. simpl. rewrite sizes_unlink. exact (bi_sizes _ st Hinv).
  - exact (bi_cnt _ st Hinv).
  - exact (bi_arenas _ st Hinv).
  - exact (bi_pages _ st Hinv).
  - exact (bi_pool _ st Hinv).
  - exact (bi_live _ st Hinv).
  - intros j d' b' Hd' Hb'. unfold st' in Hd'. simpl in Hd'.
    change (map (unlink (blk a b)) (descs st)) with (unlink (blk a b) <$> descs st) in Hd'.
    rewrite list_lookup_fmap in Hd'.
    destruct (descs st !! j) as [d0|] eqn:Hd0; [|discriminate].
    revert Hd'; intros [= <-]. apply unlink_elem in Hb' as [Hb' _].
    by apply (bi_listed _ st Hinv j d0 b').
  - intros j d' Hd'. unfold st' in Hd'. simpl in Hd'.
    change (map (unlink (blk a b)) (descs st)) with (unlink (blk a b) <$> descs st) in Hd'.
    rewrite list_lookup_fmap in Hd'.
    destruct (descs st !! j) as [d0|] eqn:Hd0; [|discriminate].
    revert Hd'; intros [= <-]. unfold unlink. simpl. apply NoDup_list_filter.
    by apply (bi_nodup _ st Hinv j d0).
  - intros t [= <-]. split; [exact HtP|]. split; [exact Ha|].
    intros H. apply Hiff in H as [H _].
    apply (hole_apart st _ _ Hinv HtP Ha (or_intror H) HovH).
  - intros t Ht' Ha' [H|[= <-]].
    + destruct t as [[a' o'] j]. apply Hiff in H as [H _].
      exact (bi_quiet _ st Hinv _ Ht' Ha' (or_introl H)).
    + destruct Ha as [ar Har].
      apply (quiet_entries st a p (S k) ar HtP Har). intros i v Hi Hv.
      pose proof (bi_quiet _ st Hinv _ Ht (ex_intro _ ar Har) (or_intror eq_refl)) as HqH.
      pose proof (bi_quiet _ st Hinv _ HtB (ex_intro _ ar Har) (or_introl HlB)) as HqB.
      destruct (Z.lt_ge_cases (16 * Z.of_nat i) (Z.max off b)).
      * destruct (Z.le_gt_cases off b).
        -- apply (proj1 (quiet_entries st a off k ar Ht Har) HqH i v); [lia|exact Hv].
        -- apply (proj1 (quiet_entries st a b k ar HtB Har) HqB i v); [lia|exact Hv].
      * destruct (Z.le_gt_cases off b).
        -- apply (proj1 (quiet_entries st a b k ar HtB Har) HqB i v); [lia|exact Hv].
        -- apply (proj1 (quiet_entries st a off k ar Ht Har) HqH i v); [lia|exact Hv].
  - assert (Hcls : forall t, is_tile st' (Some (a, p, S k)) t ->
              (tile_ok t /\ in_arena st t /\ (live st t \/ listed st' t))
              \/ t = (a, p, S k)).
    { intros t (Ht' & Ha' & [H|[H|[= <-]]]).
      - left. split; [exact Ht'|]. split; [exact Ha'|]. by left.
      - left. split; [exact Ht'|]. split; [exact Ha'|]. by right.
      - by right. }
    assert (Hold : forall t, tile_ok t /\ in_arena st t /\ (live st t \/ listed st' t) ->
              is_tile st (Some (a, off, k)) t).
    { intros [[a' o'] j] (Ht' & Ha' & [H|H]); (split; [exact Ht'|]); (split; [exact Ha'|]);
        [by left|right; left; by apply Hiff in H as [H _]]. }
    assert (Hin : forall t, tile_ok t /\ in_arena st t /\ (live st t \/ listed st' t) ->
              overlap t (a, p, S k) -> False).
    { intros t Hc Hov. pose proof (Hold t Hc) as Htile.
      destruct Hc as (Ht' & Ha' & Hkind).
      destruct (Hpart t Hov) as [HovH'|HovB].
      - apply (hole_apart st _ t Hinv Ht' Ha'); [|exact HovH'].
        destruct t as [[a' o'] j].
        destruct Hkind as [H|H]; [by left|right; by apply Hiff in H as [H _]].
      - pose proof (bi_disjoint _ st Hinv _ _ Htile HB HovB) as ->.
        destruct Hkind as [H|H].
        + by apply (listed_not_live _ st Hinv (a, b, k)).
        + apply Hiff in H as [_ H]. by apply H. }
    intros t1 t2 H1 H2 Hov.
    destruct (Hcls t1 H1) as [H1'|H1']; destruct (Hcls t2 H2) as [H2'|H2'].
    + apply (bi_disjoint _ st Hinv); [by apply Hold|by apply Hold|exact Hov].
    + exfalso. subst t2. by apply (Hin t1).
    + exfalso. subst t1. apply (Hin t2 H2'). by apply overlap_sym.
    + by subst.
  - intros a' ar i Ha' Hi.
    destruct (bi_cover _ st Hinv a' ar i Ha' Hi) as (o' & j & (Ht' & Hia & Hkind) & Hin).
    destruct Hkind as [H|[H|[= <- <- <-]]].
    + exists o', j. split; [|exact Hin]. split; [exact Ht'|]. split; [exact Hia|]. by left.
    + destruct (Hkeep _ Ht' Hia H) as [H'|E].
      * exists o', j. split; [|exact Hin]. split; [exact Ht'|]. split; [exact Hia|].
        right. by left.
      * revert E; intros [= -> -> ->]. exists p, (S k). split; [|apply HinP; by right].
        split; [exact HtP|]. split; [exact Ha|]. right. by right.
    + exists p, (S k). split; [|apply HinP; by left].
      split; [exact HtP|]. split; [exact Ha|]. right. by right.
  - intros a' o' j Hj Ht' Ha' H1 H2.
    apply Hiff in H1 as [H1 _]. apply Hiff in H2 as [H2 _].
    by apply (bi_max _ st Hinv a' o' j Hj Ht' Ha').
Qed.

(** *** The steps of [malloc] and [free] on the SlotMap *)

(** The invariant does not look at the bytes of memory. *)
Lemma inv_frame (hole : option tile) (st st' : heap) :
  descs st' = descs st -> desc_cnt st' = desc_cnt st -> page_list st' = page_list st ->
  arenas st' = arenas st -> pool st' = pool st ->
  buddy_inv hole st -> buddy_inv hole st'.
Proof.
  destruct st as [ds c pl ars m po], st' as [ds' c' pl' ars' m' po']. simpl.
  intros -> -> -> -> -> Hinv. destruct Hinv. split; assumption.
Qed.

Lemma slot_lt (off : Z) : 0 <= off < 2048 -> (Z.to_nat (off / 16) < ARR_LEN)%nat.
Proof.
  intros H. change ARR_LEN with (Z.to_nat 128).
  apply Z2Nat.inj_lt; [apply Z.div_pos; lia|lia|]. apply Z.div_lt_upper_bound; lia.
Qed.

Lemma slot_inj (o1 o2 : Z) :
  0 <= o1 -> o1 mod 16 = 0 -> 0 <= o2 -> o2 mod 16 = 0 ->
  Z.to_nat (o1 / 16) = Z.to_nat (o2 / 16) -> o1 = o2.
Proof.
  intros H1 H1' H2 H2' E.
  rewrite <- (slot_of_offset o1 H1 H1'), <- (slot_of_offset o2 H2 H2'), E. reflexivity.
Qed.

Lemma set_slot_lookup (st : heap) (a : Z) (ar : arena) (s : nat) (v : Z) (a' : Z) :
  arenas st !! a = Some ar -> (s < length (arr ar))%nat ->
  match arenas (set_slot a s v ar st) !! a', arenas st !! a' with
  | Some ar', Some ar0 =>
      magic ar' = magic ar0 /\ length (arr ar') = length (arr ar0)
      /\ forall i, arr ar' !! i = if decide (a' = a /\ i = s) then Some v else arr ar0 !! i
  | None, None => True
  | _, _ => False
  end.
Proof.
  intros Ha Hs. unfold set_slot. simpl. destruct (decide (a' = a)) as [->|Hne].
  - rewrite lookup_insert_eq, Ha. simpl. split; [done|]. split; [apply length_insert|].
    intros i. destruct (decide (a = a /\ i = s)) as [[_ ->]|Hn].
    + by apply list_lookup_insert_eq.
    + apply list_lookup_insert_ne. intros ->. by apply Hn.
  - rewrite lookup_insert_ne by done. destruct (arenas st !! a') as [ar0|]; [|done].
    split; [done|]. split; [done|]. intros i.
    destruct (decide (a' = a /\ i = s)) as [[E _]|_]; [done|reflexivity].
Qed.

Lemma in_arena_set_slot (st : heap) (a : Z) (ar : arena) (s : nat) (v : Z) (t : tile) :
  arenas st !! a = Some ar ->
  in_arena (set_slot a s v ar st) t <-> in_arena st t.
Proof.
  intros Ha. destruct t as [[a' o'] j]. unfold in_arena, set_slot. simpl.
  destruct (decide (a' = a)) as [->|Hne].
  - rewrite lookup_insert_eq, Ha. split; intros _; by eexists.
  - by rewrite lookup_insert_ne.
Qed.

Lemma live_set_slot (st : heap) (a : Z) (ar : arena) (s : nat) (v : Z) (a' o' : Z) (j : nat) :
  arenas st !! a = Some ar -> (s < length (arr ar))%nat ->
  live (set_slot a s v ar st) (a', o', j)
  <-> if decide (a' = a /\ Z.to_nat (o' / 16) = s)
      then 0 <= o' /\ o' mod 16 = 0 /\ v = class_size j
      else live st (a', o', j).
Proof.
  intros Ha Hs. pose proof (set_slot_lookup st a ar s v a' Ha Hs) as HL.
  unfold live. split.
  - intros (ar' & Ha' & H0 & H16 & He). rewrite Ha' in HL.
    destruct (arenas st !! a') as [ar0|] eqn:Ha0; [|done].
    destruct HL as (_ & _ & Hi). rewrite Hi in He.
    destruct (decide (a' = a /\ Z.to_nat (o' / 16) = s)) as [_|_].
    + revert He; intros [= ->]. done.
    + by exists ar0.
  - destruct (decide (a' = a /\ Z.to_nat (o' / 16) = s)) as [[-> Hs']|Hn].
    + intros (H0 & H16 & ->).
      destruct (arenas (set_slot a s (class_size j) ar st) !! a) as [ar'|] eqn:Ha';
        [|by rewrite Ha in HL].
      rewrite Ha in HL. destruct HL as (_ & _ & Hi).
      exists ar'. split; [reflexivity|]. split; [exact H0|]. split; [exact H16|].
      rewrite Hi. by rewrite decide_True.
    + intros (ar0 & Ha0 & H0 & H16 & He). rewrite Ha0 in HL.
      destruct (arenas (set_slot a s v ar st) !! a') as [ar'|] eqn:Ha'; [|done].
      destruct HL as (_ & _ & Hi).
      exists ar'. split; [reflexivity|]. split; [exact H0|]. split; [exact H16|].
      rewrite Hi. by rewrite decide_False.
Qed.

(** The blocks in use once the hole is in use. *)
Lemma live_write (st : heap) (a off : Z) (k : nat) (ar : arena) :
  buddy_inv (Some (a, off, k)) st -> arenas st !! a = Some ar ->
  forall t, live (set_slot a (Z.to_nat (off / 16)) (class_size k) ar st) t
            <-> live st t \/ t = (a, off, k).
Proof.
  intros Hinv Ha.
  destruct (bi_hole _ st Hinv _ eq_refl) as (Ht & Hain & Hnl).
  destruct (tile_ok_bounds a off k Ht) as (Ho & Ho16 & Hc & Hc16 & Hfit).
  destruct (bi_arenas _ st Hinv a ar Ha) as (Hvp & Hmg & Hlen & Hpl).
  pose proof (slot_lt off Ho) as Hs. rewrite <- Hlen in Hs.
  pose proof (bi_quiet _ st Hinv _ Ht Hain (or_intror eq_refl)) as HqH.
  intros [[a' o'] j]. rewrite (live_set_slot st a ar _ _ a' o' j Ha Hs).
  destruct (decide (a' = a /\ Z.to_nat (o' / 16) = Z.to_nat (off / 16))) as [[-> Hs']|Hn].
  - split.
    + intros (H0 & H16 & E). right. apply class_size_inj in E as ->.
      f_equal. f_equal. apply slot_inj; [lia|done|lia|done|exact Hs'].
    + intros [Hl|[= -> ->]].
      * exfalso. assert (o' = off) as ->.
        { destruct Hl as (ar0 & Ha0 & H0 & H16 & He).
          apply slot_inj; [lia|done|lia|done|exact Hs']. }
        apply (quiet_not_live st a off off j k Ht HqH Hl). lia.
      * split; [lia|]. split; [exact Ho16|reflexivity].
  - split; [by left|]. intros [Hl|[= -> -> ->]]; [exact Hl|]. exfalso. by apply Hn.
Qed.

(** Recording the size of the hole in its SlotMap entry: the hole is in
    use. *)
Lemma inv_write (st : heap) (a off : Z) (k : nat) (ar : arena) :
  buddy_inv (Some (a, off, k)) st -> arenas st !! a = Some ar ->
  buddy_inv None (set_slot a (Z.to_nat (off / 16)) (class_size k) ar st).
Proof.
  intros Hinv Ha.
  destruct (bi_hole _ st Hinv _ eq_refl) as (Ht & Hain & Hnl).
  destruct (tile_ok_bounds a off k Ht) as (Ho & Ho16 & Hc & Hc16 & Hfit).
  destruct (bi_arenas _ st Hinv a ar Ha) as (Hvp & Hmg & Hlen & Hpl).
  pose proof (slot_lt off Ho) as Hs. rewrite <- Hlen in Hs.
  pose proof (bi_quiet _ st Hinv _ Ht Hain (or_intror eq_refl)) as HqH.
  set (s := Z.to_nat (off / 16)) in *.
  set (st' := set_slot a s (class_size k) ar st).
  assert (HL : forall a', match arenas st' !! a', arenas st !! a' with
             | Some ar', Some ar0 =>
                 magic ar' = magic ar0 /\ length (arr ar') = length (arr ar0)
                 /\ forall i, arr ar' !! i
                      = if decide (a' = a /\ i = s) then Some (class_size k) else arr ar0 !! i
             | None, None => True
             | _, _ => False
             end).
  { intros a'. by apply set_slot_lookup. }
  assert (Hin : forall t, in_arena st' t <-> in_arena st t).
  { intros t. by apply in_arena_set_slot. }
  pose proof (live_write st a off k ar Hinv Ha) as Hlive. fold s in Hlive. fold st' in Hlive.
  assert (Hold : forall t, is_tile st' None t -> is_tile st (Some (a, off, k)) t).
  { intros t (Ht' & Ha' & Hkind). split; [exact Ht'|]. split; [by apply Hin|].
    destruct Hkind as [H|[H|H]]; [|right; by left|done].
    apply Hlive in H as [H| ->]; [by left|right; by right]. }
  assert (Hnew : forall t, is_tile st (Some (a, off, k)) t -> is_tile st' None t).
  { intros t (Ht' & Ha' & Hkind). split; [exact Ht'|]. split; [by apply Hin|].
    destruct Hkind as [H|[H|[= <-]]].
    - left. apply Hlive. by left.
    - right. by left.
    - left. apply Hlive. by right. }
  split.
  - exact (bi_sizes _ st Hinv).
  - exact (bi_cnt _ st Hinv).
  - intros a' ar' Ha'. specialize (HL a'). rewrite Ha' in HL.
    destruct (arenas st !! a') as [ar0|] eqn:Ha0; [|done].
    destruct HL as (Hm' & Hl' & _).
    destruct (bi_arenas _ st Hinv a' ar0 Ha0) as (Hvp0 & Hmg0 & Hlen0 & Hpl0).
    split; [exact Hvp0|]. split; [congruence|]. split; [congruence|exact Hpl0].
  - intros a' Ha'. apply (Hin (a', 0, 0%nat)). by apply (bi_pages _ st Hinv).
  - destruct (bi_pool _ st Hinv) as [Hnd Hp]. split; [exact Hnd|].
    intros pg Hpg. destruct (Hp pg Hpg) as [Hv Hnone]. split; [exact Hv|].
    specialize (HL pg). rewrite Hnone in HL.
    by destruct (arenas st' !! pg).
  - intros a' ar' i v Ha' Hv Hne. specialize (HL a'). rewrite Ha' in HL.
    destruct (arenas st !! a') as [ar0|] eqn:Ha0; [|done].
    destruct HL as (_ & _ & Hi). rewrite Hi in Hv.
    destruct (decide (a' = a /\ i = s)) as [[-> ->]|_].
    + revert Hv; intros [= <-]. exists k. split; [reflexivity|].
      unfold s. rewrite slot_of_offset by first [lia|done]. exact Ht.
    + by apply (bi_live _ st Hinv a' ar0 i v).
  - intros j dsc b Hd Hb.
    destruct (bi_listed _ st Hinv j dsc b Hd Hb) as (Hj & a' & o' & -> & Ha' & Ht').
    split; [exact Hj|]. exists a', o'. split; [reflexivity|]. split; [|exact Ht'].
    by apply (Hin (a', o', j)).
  - exact (bi_nodup _ st Hinv).
  - intros t [=].
  - intros [[a' o'] j] Ht' Ha' [Hli|[=]].
    apply Hin in Ha'. pose proof (bi_quiet _ st Hinv _ Ht' Ha' (or_introl Hli)) as Hq.
    destruct Ha' as [ar0 Ha0]. specialize (HL a'). rewrite Ha0 in HL.
    destruct (arenas st' !! a') as [ar'|] eqn:Ha1; [|done].
    destruct HL as (_ & _ & Hi).
    apply (quiet_entries st' a' o' j ar' Ht' Ha1). intros i v Hrange Hv.
    rewrite Hi in Hv. destruct (decide (a' = a /\ i = s)) as [[-> ->]|_].
    + exfalso. unfold s in Hrange. rewrite slot_of_offset in Hrange by first [lia|done].
      apply (hole_apart st (a, off, k) (a, o', j) Hinv Ht' (ex_intro _ ar0 Ha0)
               (or_intror Hli)).
      unfold overlap. lia.
    + by apply (proj1 (quiet_entries st a' o' j ar0 Ht' Ha0) Hq i v).
  - intros t1 t2 H1 H2 Hov.
    apply (bi_disjoint _ st Hinv); [by apply Hold|by apply Hold|exact Hov].
  - intros a' ar' i Ha' Hi. specialize (HL a'). rewrite Ha' in HL.
    destruct (arenas st !! a') as [ar0|] eqn:Ha0; [|done].
    destruct (bi_cover _ st Hinv a' ar0 i Ha0 Hi) as (o' & j & Htile & Hrange).
    exists o', j. split; [by apply Hnew|exact Hrange].
  - intros a' o' j Hj Ht' Ha' H1 H2. apply Hin in Ha'.
    by apply (bi_max _ st Hinv a' o' j Hj Ht' Ha').
Qed.

(** The blocks in use once the entry of one of them is cleared. *)
Lemma live_clear (st : heap) (a off : Z) (k : nat) (ar : arena) :
  buddy_inv None st -> live st (a, off, k) -> arenas st !! a = Some ar ->
  forall t, live (set_slot a (Z.to_nat (off / 16)) 0 ar st) t
            <-> live st t /\ t <> (a, off, k).
Proof.
  intros Hinv Hl Ha.
  destruct (live_tile _ st Hinv a off k Hl) as (Ht & Hain).
  destruct (tile_ok_bounds a off k Ht) as (Ho & Ho16 & Hc & Hc16 & Hfit).
  destruct (bi_arenas _ st Hinv a ar Ha) as (Hvp & Hmg & Hlen & Hpl).
  pose proof (slot_lt off Ho) as Hs. rewrite <- Hlen in Hs.
  assert (He : arr ar !! Z.to_nat (off / 16) = Some (class_size k)).
  { destruct Hl as (ar0 & Ha0 & _ & _ & He). congruence. }
  intros [[a' o'] j]. rewrite (live_set_slot st a ar _ _ a' o' j Ha Hs).
  destruct (decide (a' = a /\ Z.to_nat (o' / 16) = Z.to_nat (off / 16))) as [[-> Hs']|Hn].
  - split.
    + intros (_ & _ & E). pose proof (class_size_pos j). lia.
    + intros [(ar0 & Ha0 & H0 & H16 & He0) Hne]. exfalso. apply Hne.
      assert (o' = off) as -> by (apply slot_inj; [lia|done|lia|done|exact Hs']).
      rewrite Ha in Ha0. revert Ha0; intros [= <-].
      rewrite He in He0. revert He0; intros [= E].
      apply class_size_inj in E. by subst.
  - split.
    + intros H. split; [exact H|]. intros [= -> -> ->]. by apply Hn.
    + by intros [H _].
Qed.

(** Clearing the SlotMap entry of a block in use: the block is the
    hole. *)
Lemma inv_clear (st : heap) (a off : Z) (k : nat) (ar : arena) :
  buddy_inv None st -> live st (a, off, k) -> arenas st !! a = Some ar ->
  buddy_inv (Some (a, off, k)) (set_slot a (Z.to_nat (off / 16)) 0 ar st).
Proof.
  intros Hinv Hl Ha.
  destruct (live_tile _ st Hinv a off k Hl) as (Ht & Hain).
  destruct (tile_ok_bounds a off k Ht) as (Ho & Ho16 & Hc & Hc16 & Hfit).
  destruct (bi_arenas _ st Hinv a ar Ha) as (Hvp & Hmg & Hlen & Hpl).
  pose proof (slot_lt off Ho) as Hs. rewrite <- Hlen in Hs.
  assert (He : arr ar !! Z.to_nat (off / 16) = Some (class_size k)).
  { destruct Hl as (ar0 & Ha0 & _ & _ & He). congruence. }
  set (s := Z.to_nat (off / 16)) in *.
  set (st' := set_slot a s 0 ar st).
  assert (HL : forall a', match arenas st' !! a', arenas st !! a' with
             | Some ar', Some ar0 =>
                 magic ar' = magic ar0 /\ length (arr ar') = length (arr ar0)
                 /\ forall i, arr ar' !! i
                      = if decide (a' = a /\ i = s) then Some 0 else arr ar0 !! i
             | None, None => True
             | _, _ => False
             end).
  { intros a'. by apply set_slot_lookup. }
  assert (Hin : forall t, in_arena st' t <-> in_arena st t).
  { intros t. by apply in_arena_set_slot. }
  pose proof (live_clear st a off k ar Hinv Hl Ha) as Hlive. fold s in Hlive. fold st' in Hlive.
  assert (HH : is_tile st None (a, off, k)).
  { split; [exact Ht|]. split; [exact Hain|]. by left. }
  assert (Hold : forall t, is_tile st' (Some (a, off, k)) t -> is_tile st None t).
  { intros t (Ht' & Ha' & Hkind). destruct Hkind as [H|[H|[= <-]]]; [| |exact HH].
    - split; [exact Ht'|]. split; [by apply Hin|]. left. by apply Hlive in H as [H _].
    - split; [exact Ht'|]. split; [by apply Hin|]. right. by left. }
  assert (Hnew : forall t, is_tile st None t -> is_tile st' (Some (a, off, k)) t).
  { intros t (Ht' & Ha' & Hkind). split; [exact Ht'|]. split; [by apply Hin|].
    destruct Hkind as [H|[H|[=]]]; [|right; by left].
    destruct (decide (t = (a, off, k))) as [->|Hne]; [right; by right|].
    left. by apply Hlive. }
  split.
  - exact (bi_sizes _ st Hinv).
  - exact (bi_cnt _ st Hinv).
  - intros a' ar' Ha'. specialize (HL a'). rewrite Ha' in HL.
    destruct (arenas st !! a') as [ar0|] eqn:Ha0; [|done].
    destruct HL as (Hm' & Hl' & _).
    destruct (bi_arenas _ st Hinv a' ar0 Ha0) as (Hvp0 & Hmg0 & Hlen0 & Hpl0).
    split; [exact Hvp0|]. split; [congruence|]. split; [congruence|exact Hpl0].
  - intros a' Ha'. apply (Hin (a', 0, 0%nat)). by apply (bi_pages _ st Hinv).
  - destruct (bi_pool _ st Hinv) as [Hnd Hp]. split; [exact Hnd|].
    intros pg Hpg. destruct (Hp pg Hpg) as [Hv Hnone]. split; [exact Hv|].
    specialize (HL pg). rewrite Hnone in HL.
    by destruct (arenas st' !! pg).
  - intros a' ar' i v Ha' Hv Hne. specialize (HL a'). rewrite Ha' in HL.
    destruct (arenas st !! a') as [ar0|] eqn:Ha0; [|done].
    destruct HL as (_ & _ & Hi). rewrite Hi in Hv.
    destruct (decide (a' = a /\ i = s)) as [_|_]; [congruence|].
    by apply (bi_live _ st Hinv a' ar0 i v).
  - intros j dsc b Hd Hb.
    destruct (bi_listed _ st Hinv j dsc b Hd Hb) as (Hj & a' & o' & -> & Ha' & Ht').
    split; [exact Hj|]. exists a', o'. split; [reflexivity|]. split; [|exact Ht'].
    by apply (Hin (a', o', j)).
  - exact (bi_nodup _ st Hinv).
  - intros t [= <-]. split; [exact Ht|]. split; [by apply Hin|].
    intros Hli. by apply (listed_not_live _ st Hinv (a, off, k)).
  - intros [[a' o'] j] Ht' Ha' Hkind.
    apply Hin in Ha'. destruct Ha' as [ar0 Ha0].
    pose proof (HL a') as HLa. rewrite Ha0 in HLa.
    destruct (arenas st' !! a') as [ar'|] eqn:Ha1; [|done].
    destruct HLa as (_ & _ & Hi).
    apply (quiet_entries st' a' o' j ar' Ht' Ha1). intros i v Hrange Hv.
    rewrite Hi in Hv. destruct (decide (a' = a /\ i = s)) as [_|Hn]; [congruence|].
    destruct Hkind as [Hli|[= <- <- <-]].
    + pose proof (bi_quiet _ st Hinv _ Ht' (ex_intro _ ar0 Ha0) (or_introl Hli)) as Hq.
      by apply (proj1 (quiet_entries st a' o' j ar0 Ht' Ha0) Hq i v).
    + destruct (decide (v = 0)) as [|Hv0]; [done|]. exfalso.
      destruct (bi_live _ st Hinv a ar0 i v Ha0 Hv Hv0) as (j' & -> & Ht2).
      assert (HT2 : is_tile st None (a, 16 * Z.of_nat i, j')).
      { split; [exact Ht2|]. split; [by exists ar0|]. left.
        exists ar0. split; [exact Ha0|]. split; [lia|].
        split; [rewrite Z.mul_comm; apply Z.mod_mul; lia|].
        by rewrite offset_of_slot. }
      assert (Hov : overlap (a, 16 * Z.of_nat i, j') (a, off, k)).
      { pose proof (class_size_pos j'). unfold overlap. lia. }
      pose proof (bi_disjoint _ st Hinv _ _ HT2 HH Hov) as E.
      revert E; intros [= E ->]. apply Hn. split; [reflexivity|].
      unfold s. rewrite <- E. by rewrite offset_of_slot.
  - intros t1 t2 H1 H2 Hov.
    apply (bi_disjoint _ st Hinv); [by apply Hold|by apply Hold|exact Hov].
  - intros a' ar' i Ha' Hi. specialize (HL a'). rewrite Ha' in HL.
    destruct (arenas st !! a') as [ar0|] eqn:Ha0; [|done].
    destruct (bi_cover _ st Hinv a' ar0 i Ha0 Hi) as (o' & j & Htile & Hrange).
    exists o', j. split; [by apply Hnew|exact Hrange].
  - intros a' o' j Hj Ht' Ha' H1 H2. apply Hin in Ha'.
    by apply (bi_max _ st Hinv a' o' j Hj Ht' Ha').
Qed.

(** *** Taking a page and giving it back *)

(** A free block lies in the arena its address names. *)
Lemma listed_in_arena (hole : option tile) (st : heap) (a off : Z) (k : nat) :
  buddy_inv hole st -> tile_ok (a, off, k) -> valid_page a ->
  listed st (a, off, k) -> in_arena st (a, off, k).
Proof.
  intros Hinv Ht Hv (dsc & Hd & Hb).
  destruct (bi_listed _ st Hinv k dsc _ Hd Hb) as (_ & a2 & o2 & E & [ar2 Ha2] & Ht2).
  destruct (bi_arenas _ st Hinv a2 ar2 Ha2) as (Hv2 & _).
  destruct (tile_ok_bounds a off k Ht) as (Ho & _).
  destruct (tile_ok_bounds a2 o2 k Ht2) as (Ho2 & _).
  destruct (blk_inj a a2 off o2 Hv Hv2 Ho Ho2 E) as [-> _]. by exists ar2.
Qed.

Lemma whole_page_ok (pg : Z) : tile_ok (pg, 0, 7%nat).
Proof. apply tile_ok_intro; [lia|lia|reflexivity|]. change (class_size 7) with 2048. lia. Qed.

Lemma fresh_entries (o : option arena) (ar' : arena) (i : nat) (v : Z) :
  o = Some (Arena ARENA_MAGIC (replicate ARR_LEN 0)) -> o = Some ar' ->
  arr ar' !! i = Some v -> v = 0.
Proof.
  intros E E'. assert (ar' = Arena ARENA_MAGIC (replicate ARR_LEN 0)) as -> by congruence.
  cbn [arr]. intros H. by apply lookup_replicate in H as [-> _].
Qed.

(** A new arena has no block in use. *)
Lemma live_refill (st st' : heap) (pg : Z) :
  arenas st !! pg = None ->
  arenas st' = <[pg := Arena ARENA_MAGIC (replicate ARR_LEN 0)]> (arenas st) ->
  forall t, live st' t <-> live st t.
Proof.
  intros Hnone Hars [[a' o'] j]. unfold live. rewrite Hars.
  destruct (decide (a' = pg)) as [->|Hne].
  - split.
    + intros (ar' & E & _ & _ & He).
      pose proof (fresh_entries _ ar' _ _ (lookup_insert_eq _ _ _) E He).
      pose proof (class_size_pos j). lia.
    + intros (ar' & E & _). congruence.
  - by rewrite lookup_insert_ne.
Qed.

(** A page of the provider becomes an arena: its payload is the hole. *)
Lemma inv_refill (st st' : heap) (pg : Z) (rest : list Z) :
  buddy_inv None st -> pool st = pg :: rest ->
  descs st' = descs st -> desc_cnt st' = desc_cnt st ->
  page_list st' = page_list st ++ [pg] ->
  arenas st' = <[pg := Arena ARENA_MAGIC (replicate ARR_LEN 0)]> (arenas st) ->
  pool st' = rest ->
  buddy_inv (Some (pg, 0, 7%nat)) st'.
Proof.
  intros Hinv Hpool.
  destruct st' as [ds' c' pl' ars' m' po']. cbn [descs desc_cnt page_list arenas pool].
  intros -> -> -> -> ->.
  set (st' := Heap _ _ _ _ _ _).
  destruct (bi_pool _ st Hinv) as [Hnd Hp]. rewrite Hpool in Hnd, Hp.
  destruct (Hp pg ltac:(apply list_elem_of_here)) as [Hpgv Hnone].
  assert (Hfresh : arenas st' !! pg = Some (Arena ARENA_MAGIC (replicate ARR_LEN 0)))
    by apply lookup_insert_eq.
  assert (Hother : forall a', a' <> pg -> arenas st' !! a' = arenas st !! a').
  { intros a' Hne. unfold st'. simpl. by rewrite lookup_insert_ne. }
  assert (Hin : forall t, in_arena st t -> in_arena st' t /\ fst (fst t) <> pg).
  { intros [[a' o'] j] [ar0 Ha0]. simpl.
    assert (a' <> pg) as Hne by (intros ->; congruence).
    split; [|exact Hne]. red. rewrite Hother by done. by exists ar0. }
  assert (Hlive : forall t, live st' t <-> live st t) by (by apply (live_refill st st' pg)).
  assert (Hcls : forall t, is_tile st' (Some (pg, 0, 7%nat)) t ->
            t = (pg, 0, 7%nat) \/ (is_tile st None t /\ in_arena st t)).
  { intros [[a' o'] j] (Ht' & Ha' & Hkind).
    destruct Hkind as [H|[H|[= <- <- <-]]]; [| |by left]; right.
    - apply Hlive in H. destruct (live_tile _ st Hinv a' o' j H) as [_ Hia].
      split; [|exact Hia]. split; [exact Ht'|]. split; [exact Hia|]. by left.
    - assert (Hv : valid_page a').
      { destruct Ha' as [ar' Ha']. destruct (decide (a' = pg)) as [->|Hne]; [exact Hpgv|].
        rewrite Hother in Ha' by done. by destruct (bi_arenas _ st Hinv a' ar' Ha'). }
      pose proof (listed_in_arena _ st a' o' j Hinv Ht' Hv H) as Hia.
      split; [|exact Hia]. split; [exact Ht'|]. split; [exact Hia|]. right. by left. }
  split.
  - exact (bi_sizes _ st Hinv).
  - exact (bi_cnt _ st Hinv).
  - intros a' ar' Ha'. destruct (decide (a' = pg)) as [->|Hne].
    + assert (ar' = Arena ARENA_MAGIC (replicate ARR_LEN 0)) as -> by congruence.
      split; [exact Hpgv|]. split; [reflexivity|]. split; [apply length_replicate|].
      apply elem_of_app. right. by apply list_elem_of_singleton.
    + rewrite Hother in Ha' by done.
      destruct (bi_arenas _ st Hinv a' ar' Ha') as (Hv & Hm & Hl & Hpl).
      split; [exact Hv|]. split; [exact Hm|]. split; [exact Hl|].
      apply elem_of_app. by left.
  - intros a' Ha'. simpl in Ha'. apply elem_of_app in Ha' as [Ha'|Ha'].
    + by apply (Hin (a', 0, 0%nat)), (bi_pages _ st Hinv).
    + apply list_elem_of_singleton in Ha' as ->. eexists; exact Hfresh.
  - simpl. split; [by apply NoDup_cons_1_2 in Hnd|].
    intros p Hpin. destruct (Hp p ltac:(by apply list_elem_of_further)) as [Hv Hn].
    split; [exact Hv|].
    assert (p <> pg) as Hne by (intros ->; by apply NoDup_cons_1_1 in Hnd).
    by rewrite lookup_insert_ne.
  - intros a' ar' i v Ha' Hv Hv0. destruct (decide (a' = pg)) as [->|Hne].
    + exfalso. apply Hv0. exact (fresh_entries _ ar' i v Hfresh Ha' Hv).
    + rewrite Hother in Ha' by done. by apply (bi_live _ st Hinv a' ar' i v).
  - intros j dsc b Hd Hb.
    destruct (bi_listed _ st Hinv j dsc b Hd Hb) as (Hj & a' & o' & -> & Ha' & Ht').
    split; [exact Hj|]. exists a', o'. split; [reflexivity|]. split; [|exact Ht'].
    by apply (Hin (a', o', j)).
  - exact (bi_nodup _ st Hinv).
  - intros t [= <-]. split; [apply whole_page_ok|]. split; [eexists; exact Hfresh|].
    intros (dsc & Hd & Hb). destruct (bi_listed _ st Hinv _ dsc _ Hd Hb) as [Hlt _]. lia.
  - intros [[a' o'] j] Ht' Ha' Hkind.
    destruct (Hcls (a', o', j)) as [[= -> -> ->]|[Htile Hia]].
    { split; [exact Ht'|]. split; [exact Ha'|]. destruct Hkind; [right; by left|right; by right]. }
    + intros ar' Har'.
      assert (ar' = Arena ARENA_MAGIC (replicate ARR_LEN 0)) as -> by congruence.
      vm_compute. reflexivity.
    + destruct (Hin _ Hia) as [_ Hne]. simpl in Hne.
      destruct Hkind as [Hli|[= E _ _]]; [|by subst].
      pose proof (bi_quiet _ st Hinv _ Ht' Hia (or_introl Hli)) as Hq.
      intros ar' Har'. rewrite Hother in Har' by done. by apply Hq.
  - intros t1 t2 H1 H2 Hov.
    destruct (Hcls t1 H1) as [->|[H1' Hi1]]; destruct (Hcls t2 H2) as [->|[H2' Hi2]].
    + reflexivity.
    + exfalso. destruct t2 as [[a2 o2] j2]. destruct (Hin _ Hi2) as [_ Hne].
      destruct Hov as (E & _). simpl in Hne. by subst.
    + exfalso. destruct t1 as [[a1 o1] j1]. destruct (Hin _ Hi1) as [_ Hne].
      destruct Hov as (E & _). simpl in Hne. by subst.
    + by apply (bi_disjoint _ st Hinv).
  - intros a' ar' i Ha' Hi. destruct (decide (a' = pg)) as [->|Hne].
    + exists 0, 7%nat. split.
      * split; [apply whole_page_ok|]. split; [eexists; exact Hfresh|]. right. by right.
      * change (class_size 7) with 2048. change ARR_LEN with 128%nat in Hi. lia.
    + rewrite Hother in Ha' by done.
      destruct (bi_cover _ st Hinv a' ar' i Ha' Hi) as (o' & j & (Ht' & Hia & Hkind) & Hr).
      exists o', j. split; [|exact Hr]. split; [exact Ht'|].
      split; [by apply (Hin (a', o', j))|].
      destruct Hkind as [H|[H|[=]]]; [left; by apply Hlive|right; by left].
  - intros a' o' j Hj Ht' Ha' H1 H2.
    assert (Hv : valid_page a').
    { destruct Ha' as [ar' Ha']. destruct (decide (a' = pg)) as [->|Hne]; [exact Hpgv|].
      rewrite Hother in Ha' by done. by destruct (bi_arenas _ st Hinv a' ar' Ha'). }
    pose proof (listed_in_arena _ st a' o' j Hinv Ht' Hv H1) as Hia.
    by apply (bi_max _ st Hinv a' o' j Hj Ht' Hia).
Qed.

(** An arena whose payload is the hole has no block in use. *)
Lemma live_release (st st' : heap) (a off : Z) :
  buddy_inv (Some (a, off, 7%nat)) st ->
  arenas st' = delete a (arenas st) ->
  forall t, live st' t <-> live st t.
Proof.
  intros Hinv Hars [[a' o'] j].
  destruct (bi_hole _ st Hinv _ eq_refl) as (Ht & Hain & Hnl).
  destruct (tile_ok_bounds a off _ Ht) as (Hoff & _ & _ & _ & Hfit).
  change (class_size 7) with 2048 in Hfit.
  destruct (decide (a' = a)) as [->|Hne].
  - split.
    + intros (ar' & E & _). rewrite Hars, lookup_delete_eq in E. discriminate.
    + intros Hl. exfalso. destruct (live_tile _ st Hinv a o' j Hl) as [Ht' Ha'].
      apply (hole_apart st (a, off, 7%nat) (a, o', j) Hinv Ht' Ha' (or_introl Hl)).
      destruct (tile_ok_bounds a o' j Ht') as (Ho & _ & Hc & _ & Hfit').
      unfold overlap. change (class_size 7) with 2048. lia.
  - unfold live. rewrite Hars. by rewrite lookup_delete_ne.
Qed.

(** The hole is the whole payload: the arena goes back to the page
    provider. *)
Lemma inv_release (st : heap) (a off : Z) :
  buddy_inv (Some (a, off, 7%nat)) st ->
  buddy_inv None
    (palloc_free_page a
       (set_page_list (List.filter (fun x => negb (x =? a)) (page_list st)) st)).
Proof.
  intros Hinv.
  destruct (bi_hole _ st Hinv _ eq_refl) as (Ht & Hain & Hnl).
  assert (off = 0) as ->.
  { destruct Ht as (_ & H0 & Hal & Hfit). change (class_size 7) with 2048 in *.
    change (PGSIZE / 2) with 2048 in Hfit. lia. }
  set (st' := palloc_free_page a _).
  assert (Hars : arenas st' = delete a (arenas st)) by reflexivity.
  assert (Hempty : forall a' o' j, tile_ok (a', o', j) -> in_arena st (a', o', j) ->
            live st (a', o', j) \/ listed st (a', o', j) -> a' <> a).
  { intros a' o' j Ht' Ha' Hkind ->.
    apply (hole_apart st (a, 0, 7%nat) (a, o', j) Hinv Ht' Ha' Hkind).
    destruct (tile_ok_bounds a o' j Ht') as (Ho & _ & Hc & _ & Hfit).
    unfold overlap. change (class_size 7) with 2048. lia. }
  assert (Hother : forall a', a' <> a -> arenas st' !! a' = arenas st !! a').
  { intros a' Hne. rewrite Hars. by rewrite lookup_delete_ne. }
  assert (Hgone : arenas st' !! a = None) by (rewrite Hars; apply lookup_delete_eq).
  assert (Hin : forall a' o' j, in_arena st' (a', o', j) ->
            a' <> a /\ in_arena st (a', o', j)).
  { intros a' o' j [ar' Ha']. destruct (decide (a' = a)) as [->|Hne]; [congruence|].
    split; [exact Hne|]. rewrite Hother in Ha' by done. by exists ar'. }
  assert (Hlive : forall t, live st' t <-> live st t)
    by (by apply (live_release st st' a 0)).
  split.
  - exact (bi_sizes _ st Hinv).
  - exact (bi_cnt _ st Hinv).
  - intros a' ar' Ha'. destruct (Hin a' 0 0%nat (ex_intro _ ar' Ha')) as [Hne _].
    rewrite Hother in Ha' by done.
    destruct (bi_arenas _ st Hinv a' ar' Ha') as (Hv & Hm & Hl & Hpl).
    split; [exact Hv|]. split; [exact Hm|]. split; [exact Hl|].
    simpl. apply list_elem_of_In, List.filter_In. split; [by apply list_elem_of_In|].
    apply negb_true_iff, Z.eqb_neq. exact Hne.
  - intros a' Ha'. simpl in Ha'. apply list_elem_of_In, List.filter_In in Ha' as [Ha' Hne].
    apply negb_true_iff, Z.eqb_neq in Hne. rewrite Hother by done.
    by apply (bi_pages _ st Hinv), list_elem_of_In.
  - destruct (bi_pool _ st Hinv) as [Hnd Hp]. simpl. split.
    + apply NoDup_cons_2; [|exact Hnd]. intros Hapool.
      destruct (Hp a Hapool) as [_ Hn]. destruct Hain as [ar Har]. congruence.
    + intros pg Hpg. apply elem_of_cons in Hpg as [->|Hpg].
      * split; [by apply (inv_valid _ st Hinv a 0 7%nat)|apply lookup_delete_eq].
      * destruct (Hp pg Hpg) as [Hv Hn]. split; [exact Hv|].
        apply lookup_delete_None. by right.
  - intros a' ar' i v Ha' Hv Hv0. destruct (Hin a' 0 0%nat (ex_intro _ ar' Ha')) as [Hne _].
    rewrite Hother in Ha' by done. by apply (bi_live _ st Hinv a' ar' i v).
  - intros j dsc b Hd Hb.
    destruct (listed_tile _ st Hinv j dsc b Hd Hb) as (Hj & a' & o' & -> & Ht' & Ha' & Hli).
    split; [exact Hj|]. exists a', o'. split; [reflexivity|]. split; [|exact Ht'].
    pose proof (Hempty a' o' j Ht' Ha' (or_intror Hli)) as Hne.
    rewrite Hother by done. exact Ha'.
  - exact (bi_nodup _ st Hinv).
  - intros t [=].
  - intros [[a' o'] j] Ht' Ha' [Hli|[=]]. destruct (Hin a' o' j Ha') as [Hne Hia].
    pose proof (bi_quiet _ st Hinv _ Ht' Hia (or_introl Hli)) as Hq.
    intros ar' Har'. rewrite Hother in Har' by done. by apply Hq.
  - intros t1 t2 H1 H2 Hov.
    assert (Hold : forall t, is_tile st' None t -> is_tile st (Some (a, 0, 7%nat)) t).
    { intros [[a' o'] j] (Ht' & Ha' & Hkind). destruct (Hin a' o' j Ha') as [_ Hia].
      split; [exact Ht'|]. split; [exact Hia|].
      destruct Hkind as [H|[H|[=]]]; [left; by apply Hlive|right; by left]. }
    apply (bi_disjoint _ st Hinv); [by apply Hold|by apply Hold|exact Hov].
  - intros a' ar' i Ha' Hi. destruct (Hin a' 0 0%nat (ex_intro _ ar' Ha')) as [Hne _].
    pose proof Ha' as Ha0. rewrite Hother in Ha0 by done.
    destruct (bi_cover _ st Hinv a' ar' i Ha0 Hi) as (o' & j & (Ht' & Hia & Hkind) & Hr).
    exists o', j. split; [|exact Hr]. split; [exact Ht'|]. split; [by exists ar'|].
    destruct Hkind as [H|[H|[= E _ _]]]; [left; by apply Hlive|right; by left|by subst].
  - intros a' o' j Hj Ht' Ha' H1 H2. destruct (Hin a' o' j Ha') as [_ Hia].
    by apply (bi_max _ st Hinv a' o' j Hj Ht' Hia).
Qed.

(** *** [malloc] and [free] keep the buddy system *)

Lemma live_same (st st' : heap) :
  arenas st' = arenas st -> forall t, live st' t <-> live st t.
Proof. intros E [[a o] k]. unfold live. by rewrite E. Qed.

Lemma pop_eq (st : heap) (d : nat) (dsc : desc) (b : Z) (l : list Z) :
  descs st !! d = Some dsc -> free_list dsc = b :: l ->
  list_pop_front_desc d st
  = Ret (b, set_descs (<[d := Desc (desc_block_size dsc) l]> (descs st)) st).
Proof.
  intros Hd Hl. unfold list_pop_front_desc, get_desc. rewrite Hd. simpl. by rewrite Hl.
Qed.

Lemma push_eq (st : heap) (d : nat) (dsc : desc) (e : Z) :
  descs st !! d = Some dsc ->
  list_push_back_desc d e st
  = Ret (set_descs (<[d := Desc (desc_block_size dsc) (free_list dsc ++ [e])]> (descs st)) st).
Proof. intros Hd. unfold list_push_back_desc, get_desc. by rewrite Hd. Qed.

Lemma refill_eq (st : heap) (dsc : desc) (pg : Z) (rest : list Z) :
  descs st !! 7%nat = Some dsc -> free_list dsc = [] -> pool st = pg :: rest ->
  malloc_refill st
  = Ret (Some (blk pg 0, pg,
               Heap (descs st) (desc_cnt st) (page_list st ++ [pg])
                 (<[pg := Arena ARENA_MAGIC (replicate ARR_LEN 0)]> (arenas st))
                 (mem st) rest)).
Proof.
  intros Hd Hl Hpool. unfold malloc_refill, palloc_get_page. rewrite Hpool.
  unfold malloc_refill_install, list_push_back_desc, get_desc.
  cbn [descs set_pool set_page_list set_arenas set_descs]. rewrite Hd.
  cbn [of_option obind]. unfold list_pop_front_desc, get_desc.
  cbn [descs set_pool set_page_list set_arenas set_descs].
  rewrite list_lookup_insert_eq by (by apply lookup_lt_Some in Hd).
  cbn [of_option obind free_list desc_block_size]. rewrite Hl. cbn [app].
  rewrite list_insert_insert_eq.
  assert (Hid : <[7%nat := Desc (desc_block_size dsc) []]> (descs st) = descs st).
  { apply list_insert_id. rewrite Hd. destruct dsc; simpl in *; by subst. }
  rewrite blk_0.
  unfold set_descs, set_pool, set_page_list, set_arenas.
  cbn [descs desc_cnt page_list arenas mem pool]. rewrite Hid. reflexivity.
Qed.

Section Safety.

Variable NDEBUG : bool.

(** The loop over the descriptors leaves the block it found as the
    hole. *)
Lemma scan_inv (size : Z) (st : heap) :
  buddy_inv None st -> 0 < size <= PGSIZE / 2 ->
  forall n d, (d + n = 8)%nat -> (0 < n)%nat ->
  exists r, malloc_scan NDEBUG n d size st = Ret r
    /\ match r with
       | None => pool st = []
       | Some (d', b, a, st1) =>
           exists off, b = blk a off /\ size <= class_size d'
             /\ buddy_inv (Some (a, off, d')) st1 /\ mem st1 = mem st
             /\ (forall t, live st1 t <-> live st t)
       end.
Proof.
  intros Hinv Hsize. change (PGSIZE / 2) with 2048 in *.
  induction n as [|n IH]; intros d Hdn Hn; [lia|].
  rewrite malloc_scan_S.
  destruct (desc_at st d (bi_sizes _ st Hinv) ltac:(lia)) as (dsc & Hdsc & Hsz).
  unfold get_desc at 1. rewrite Hdsc. cbn [of_option obind]. rewrite Hsz.
  destruct ((class_size d >=? size) && negb (list_empty (free_list dsc))) eqn:Hc.
  - apply andb_true_iff in Hc as [Hge Hne].
    destruct (free_list dsc) as [|b l] eqn:Hl; [discriminate|].
    rewrite (pop_eq st d dsc b l Hdsc Hl), obind_ret.
    destruct (inv_pop st d dsc b l Hinv Hdsc Hl) as (a & off & -> & Hd7 & Hinv1).
    set (st1 := set_descs _ st) in *.
    destruct (bi_hole _ st1 Hinv1 _ eq_refl) as (Ht & [ar Ha] & _).
    destruct (bi_arenas _ st1 Hinv1 a ar Ha) as (Hp & Hm & _).
    destruct (tile_ok_bounds a off d Ht) as (Ho & _).
    rewrite (block_to_arena_blk NDEBUG st1 a off ar Hp) by
      first [done | rewrite PGSIZE_eq, sizeof_arena_eq; lia].
    cbn [obind]. eexists. split; [reflexivity|]. cbn beta iota.
    exists off. apply Z.geb_le in Hge.
    split; [reflexivity|]. split; [exact Hge|]. split; [exact Hinv1|].
    split; [reflexivity|]. by apply live_same.
  - rewrite (bi_cnt _ st Hinv).
    destruct (Nat.eqb_spec (S d) 8) as [E|Hne].
    + assert (d = 7%nat) by lia. subst d.
      assert (Hempty : free_list dsc = []).
      { destruct (free_list dsc) as [|b l] eqn:Hl; [done|]. exfalso.
        destruct (bi_listed _ st Hinv 7%nat dsc b Hdsc) as [Hlt _];
          [rewrite Hl; apply list_elem_of_here|lia]. }
      destruct (pool st) as [|pg rest] eqn:Hpool.
      * unfold malloc_refill, palloc_get_page. rewrite Hpool. cbn [obind].
        exists None. by split.
      * rewrite (refill_eq st dsc pg rest Hdsc Hempty Hpool). cbn [obind].
        eexists. split; [reflexivity|]. cbn beta iota. exists 0.
        split; [reflexivity|]. split; [change (class_size 7) with 2048; lia|].
        split; [by apply (inv_refill st _ pg rest Hinv Hpool)|]. split; [reflexivity|].
        apply (live_refill st _ pg); [|reflexivity].
        destruct (bi_pool _ st Hinv) as [_ Hp].
        destruct (Hp pg) as [_ Hnone]; [rewrite Hpool; apply list_elem_of_here|exact Hnone].
    + apply IH; lia.
Qed.

(** The splitting loop cuts the hole down to the class of the
    request. *)
Lemma split_inv (a off size : Z) :
  0 < size <= PGSIZE / 2 ->
  forall (d : nat) (st : heap),
  buddy_inv (Some (a, off, d)) st -> size <= class_size d ->
  exists d' st', malloc_split d (blk a off) size st = Ret (d', st')
    /\ (d' <= d)%nat /\ size <= class_size d'
    /\ (d' = 0%nat \/ class_size d' < 2 * size)
    /\ buddy_inv (Some (a, off, d')) st' /\ arenas st' = arenas st /\ mem st' = mem st
    /\ pool st' = pool st /\ page_list st' = page_list st.
Proof.
  intros Hsize. change (PGSIZE / 2) with 2048 in *.
  induction d as [|d IH]; intros st Hinv Hle.
  - exists 0%nat, st. rewrite malloc_split_eq.
    destruct (desc_at st 0 (bi_sizes _ st Hinv) ltac:(lia)) as (dsc & Hdsc & Hsz).
    unfold get_desc. rewrite Hdsc. cbn [of_option obind]. rewrite Hsz.
    change (class_size 0 =? 16) with true. cbn iota.
    split; [reflexivity|]. split; [lia|]. split; [exact Hle|]. split; [by left|].
    by split_conj.
  - rewrite malloc_split_eq.
    destruct (bi_hole _ st Hinv _ eq_refl) as (Ht & _ & _).
    assert (Hd : (S d < 8)%nat) by (destruct Ht; lia).
    destruct (desc_at st (S d) (bi_sizes _ st Hinv) Hd) as (dsc & Hdsc & Hsz).
    unfold get_desc at 1. rewrite Hdsc. cbn [of_option obind]. rewrite Hsz.
    pose proof (class_size_pos d) as Hpos. pose proof (class_size_S d) as HcS.
    destruct (Z.eqb_spec (class_size (S d)) 16); [lia|].
    rewrite wrap_small by (change (2 ^ SIZE_BITS) with 4294967296; lia).
    destruct (Z.geb_spec (class_size (S d)) (2 * size)) as [Hge|Hlt].
    + destruct (desc_at st d (bi_sizes _ st Hinv) ltac:(lia)) as (dsc' & Hdsc' & Hsz').
      unfold get_desc. rewrite Hdsc'. cbn [of_option obind]. rewrite Hsz', blk_add.
      rewrite (push_eq st d dsc' _ Hdsc'). cbn [obind].
      pose proof (inv_split st a off d dsc' Hinv Hdsc') as Hinv1.
      destruct (IH _ Hinv1 ltac:(lia))
        as (d' & st' & Hsp & Hd' & Hle' & Hstop & Hinv' & Hars' & Hmem' & Hpool' & Hpl').
      exists d', st'. split; [exact Hsp|]. split; [lia|]. split; [exact Hle'|].
      split; [exact Hstop|]. split; [exact Hinv'|]. by split_conj.
    + exists (S d), st. split; [reflexivity|]. split; [lia|]. split; [exact Hle|].
      split; [right; lia|]. by split_conj.
Qed.

(** The coalescing loop turns the hole into free blocks, or gives the
    page back. *)
Lemma free_loop_inv (n : nat) :
  forall (k : nat) (a off : Z) (st : heap),
  (k + n = 7)%nat -> buddy_inv (Some (a, off, k)) st ->
  exists st', free_loop (10 - k) a (blk a off) (class_size k) k st = Ret st'
    /\ buddy_inv None st' /\ mem st' = mem st
    /\ (forall t, live st' t <-> live st t).
Proof.
  induction n as [|n IH]; intros k a off st Hkn Hinv;
    destruct (bi_hole _ st Hinv _ eq_refl) as (Ht & [ar Ha] & Hnl);
    destruct (bi_arenas _ st Hinv a ar Ha) as (Hvp & Hmg & Hlen & Hpl).
  - assert (k = 7%nat) by lia. subst k.
    change (class_size 7) with (PGSIZE / 2). rewrite free_loop_release.
    rewrite (release_arena_listed a st Hpl).
    eexists. split; [reflexivity|]. split; [by apply (inv_release st a off)|].
    split; [reflexivity|]. by apply (live_release st _ a off).
  - assert (Hk : (k < 7)%nat) by lia.
    destruct (tile_ok_bounds a off k Ht) as (Ho & Ho16 & Hc & Hc16 & Hfit).
    destruct (parent_ok a off k Hk Ht) as (HtB & HtP & Hbo & Hpo & Hinvol).
    pose proof (class_size_S k) as HcS.
    assert (Hc7 : class_size k < 2048).
    { pose proof (class_size_mono (S k) 7 ltac:(lia)) as Hm.
      change (class_size 7) with 2048 in Hm. lia. }
    destruct (tile_ok_bounds a _ k HtB) as (Hb & Hb16 & _ & _ & Hbfit).
    replace (10 - k)%nat with (S (10 - S k)) by lia.
    rewrite (free_loop_step (10 - S k) a off (class_size k) k st ar Hvp Ha Hlen)
      by (change (PGSIZE / 2) with 2048; first [done|lia]).
    destruct (desc_at st k (bi_sizes _ st Hinv) ltac:(lia)) as (dsc & Hdsc & Hsz).
    destruct (range_busy (arr ar) (Z.lxor off (class_size k)) (class_size k)) eqn:Hbusy.
    + rewrite (push_eq st k dsc _ Hdsc).
      eexists. split; [reflexivity|]. split; [|split; [reflexivity|by apply live_same]].
      apply (inv_push_back st a off k dsc Hinv Hk Hdsc).
      intros Hq. specialize (Hq ar Ha). congruence.
    + assert (Hq : quiet st (a, Z.lxor off (class_size k), k)).
      { intros ar' Ha'. congruence. }
      pose proof (buddy_listed _ st Hinv a off k eq_refl Hk Hq) as Hli.
      assert (Hrm : list_remove_block (blk a (Z.lxor off (class_size k))) st
                    = Ret (set_descs (map (unlink (blk a (Z.lxor off (class_size k))))
                                        (descs st)) st)).
      { unfold list_remove_block. destruct Hli as (dsc' & Hd' & Hin').
        assert (existsb (on_free_list (blk a (Z.lxor off (class_size k)))) (descs st) = true)
          as ->; [|reflexivity].
        apply existsb_exists. exists dsc'. split.
        - apply list_elem_of_In. by apply list_elem_of_lookup_2 in Hd'.
        - by apply on_free_list_elem. }
      rewrite Hrm. cbn [obind]. rewrite <- HcS.
      pose proof (inv_merge st a off k Hinv Hk Hli) as Hinv1.
      destruct (IH (S k) a _ _ ltac:(lia) Hinv1) as (st' & Hfl & Hinv' & Hmem' & Hlive').
      exists st'. split; [exact Hfl|]. split; [exact Hinv'|]. split; [exact Hmem'|].
      intros t. rewrite Hlive'. by apply live_same.
Qed.

(** [malloc] under the invariant, in terms of blocks. *)
Lemma malloc_inv (size : Z) (st : heap) :
  buddy_inv None st -> 0 < size <= PGSIZE / 2 ->
  exists p st', malloc NDEBUG size st = Ret (p, st')
    /\ buddy_inv None st' /\ mem st' = mem st
    /\ ((p = NULL /\ st' = st /\ pool st = [])
        \/ exists a off k,
             p = blk a off /\ p <> NULL
             /\ size <= class_size k /\ (k = 0%nat \/ class_size k < 2 * size)
             /\ (forall t, live st' t <-> live st t \/ t = (a, off, k))
             /\ (forall t, live st t -> ~ overlap t (a, off, k))).
Proof.
  intros Hinv Hsize. unfold malloc.
  destruct (Z.leb_spec size (PGSIZE / 2)); [|lia]. rewrite ASSERT_true, obind_ret.
  destruct (Z.eqb_spec size 0); [lia|].
  destruct (Z.gtb_spec size (PGSIZE / 2)); [lia|]. cbn [orb].
  rewrite (bi_cnt _ st Hinv).
  destruct (scan_inv size st Hinv Hsize 8 0 ltac:(lia) ltac:(lia)) as (r & -> & Hr).
  cbn [obind]. destruct r as [[[[d b] a] st1]|].
  2: { exists NULL, st. split; [reflexivity|]. split; [exact Hinv|]. split; [reflexivity|].
       by left. }
  destruct Hr as (off & -> & Hle & Hinv1 & Hmem1 & Hlive1).
  destruct (split_inv a off size Hsize d st1 Hinv1 Hle)
    as (k & st2 & -> & Hkd & Hle' & Hstop & Hinv2 & Hars2 & Hmem2 & _).
  cbn [obind].
  destruct (bi_hole _ st2 Hinv2 _ eq_refl) as (Ht & [ar Ha] & _).
  destruct (bi_arenas _ st2 Hinv2 a ar Ha) as (Hvp & Hmg & Hlen & _).
  destruct (tile_ok_bounds a off k Ht) as (Ho & Ho16 & Hc & Hc16 & Hfit).
  assert (Hk8 : (k < 8)%nat) by (destruct Ht; lia).
  destruct (desc_at st2 k (bi_sizes _ st2 Hinv2) Hk8) as (dsc & Hdsc & Hsz).
  unfold get_desc. rewrite Hdsc. cbn [of_option obind]. rewrite Hsz.
  rewrite slot_index_blk by (change (2 ^ SIZE_BITS) with 4294967296; lia).
  unfold arr_write, get_arena. rewrite Ha. cbn [of_option obind].
  pose proof (slot_lt off Ho) as Hs. rewrite <- Hlen in Hs.
  destruct (Nat.ltb_spec (Z.to_nat (off / 16)) (length (arr ar))); [|lia].
  fold (set_slot a (Z.to_nat (off / 16)) (class_size k) ar st2).
  eexists _, _. split; [reflexivity|].
  pose proof (live_write st2 a off k ar Hinv2 Ha) as Hlive3.
  pose proof (inv_write st2 a off k ar Hinv2 Ha) as Hinv3.
  assert (Hlive2 : forall t, live st2 t <-> live st t).
  { intros t. rewrite <- Hlive1. by apply live_same. }
  split; [exact Hinv3|]. split; [simpl; congruence|]. right.
  exists a, off, k. split; [reflexivity|].
  split; [unfold blk, NULL; destruct Hvp as (? & _); rewrite sizeof_arena_eq; lia|].
  split; [exact Hle'|]. split; [exact Hstop|]. split.
  - intros t. rewrite Hlive3, Hlive2. reflexivity.
  - intros t Hl Hov.
    assert (Ht3 : forall u, live (set_slot a (Z.to_nat (off / 16)) (class_size k) ar st2) u ->
              is_tile (set_slot a (Z.to_nat (off / 16)) (class_size k) ar st2) None u).
    { intros [[a' o'] j] Hu. destruct (live_tile _ _ Hinv3 a' o' j Hu) as [Hut Hua].
      split; [exact Hut|]. split; [exact Hua|]. by left. }
    assert (E : t = (a, off, k)).
    { apply (bi_disjoint _ _ Hinv3); [| |exact Hov]; apply Ht3, Hlive3.
      - left. by apply Hlive2.
      - by right. }
    subst t. apply Hlive2 in Hl.
    by apply (hole_not_live _ st2 Hinv2 (a, off, k)).
Qed.

(** [free] under the invariant, in terms of blocks. *)
Lemma free_inv (st : heap) (a off : Z) (k : nat) :
  buddy_inv None st -> live st (a, off, k) ->
  exists st', free NDEBUG (blk a off) st = Ret st'
    /\ buddy_inv None st'
    /\ (forall t, live st' t <-> live st t /\ t <> (a, off, k))
    /\ mem st' = mem (debug_fill NDEBUG (blk a off) (class_size k) st).
Proof.
  intros Hinv Hl.
  destruct (live_tile _ st Hinv a off k Hl) as (Ht & [ar Ha]).
  destruct (bi_arenas _ st Hinv a ar Ha) as (Hvp & Hmg & Hlen & Hpl).
  destruct (tile_ok_bounds a off k Ht) as (Ho & Ho16 & Hc & Hc16 & Hfit).
  assert (Hk : (k <= 7)%nat) by (by destruct Ht).
  assert (He : arr ar !! Z.to_nat (off / 16) = Some (class_size k)).
  { destruct Hl as (ar0 & Ha0 & _ & _ & He). congruence. }
  rewrite (free_enter NDEBUG st a off k ar Hvp Ha Hmg Hlen Hk)
    by (change (PGSIZE / 2) with 2048; first [done|lia]).
  assert (Hlen10 : length (descs st) = 10%nat).
  { rewrite <- (length_fmap desc_block_size), (bi_sizes _ st Hinv). reflexivity. }
  rewrite Hlen10.
  set (st0 := clear_slot a off ar _).
  assert (Hinv0 : buddy_inv (Some (a, off, k)) st0).
  { apply (inv_frame _ (set_slot a (Z.to_nat (off / 16)) 0 ar st));
      [by destruct NDEBUG..|]. by apply inv_clear. }
  assert (Hlive0 : forall t, live st0 t <-> live st t /\ t <> (a, off, k)).
  { intros t. rewrite <- (live_clear st a off k ar Hinv Hl Ha t).
    apply live_same. by destruct NDEBUG. }
  destruct (free_loop_inv (7 - k) k a off st0 ltac:(lia) Hinv0)
    as (st' & Hfl & Hinv' & Hmem' & Hlive').
  exists st'. split; [exact Hfl|]. split; [exact Hinv'|]. split.
  - intros t. rewrite Hlive'. apply Hlive0.
  - rewrite Hmem'. reflexivity.
Qed.

End Safety.

(** The allocator as [malloc_init] leaves it is a buddy system with no
    block. *)
Lemma init_inv (pages : list Z) :
  NoDup pages -> (forall pg, pg ∈ pages -> valid_page pg) ->
  buddy_inv None (Heap init_descs 8 [] ∅ (fun _ => 0) pages).
Proof.
  intros Hnd Hv.
  assert (Hnolist : forall k dsc b, init_descs !! k = Some dsc -> b ∈ free_list dsc -> False).
  { intros k dsc b Hd Hb.
    do 10 (destruct k as [|k]; [revert Hd; intros [= <-]; by apply elem_of_nil in Hb|]).
    discriminate. }
  assert (Hnolisted : forall t, ~ listed (Heap init_descs 8 [] ∅ (fun _ => 0) pages) t).
  { intros [[a o] k] (dsc & Hd & Hb). by apply (Hnolist k dsc _ Hd Hb). }
  split.
  - reflexivity.
  - reflexivity.
  - intros a ar Ha. simpl in Ha. by rewrite lookup_empty in Ha.
  - intros a Ha. by apply elem_of_nil in Ha.
  - split; [exact Hnd|]. intros pg Hpg. split; [by apply Hv|apply lookup_empty].
  - intros a ar i v Ha. simpl in Ha. by rewrite lookup_empty in Ha.
  - intros k dsc b Hd Hb. exfalso. by apply (Hnolist k dsc b Hd Hb).
  - intros k dsc Hd.
    do 10 (destruct k as [|k]; [revert Hd; intros [= <-]; apply NoDup_nil_2|]).
    discriminate.
  - intros t [=].
  - intros t _ _ [Hli|[=]]. by apply Hnolisted in Hli.
  - intros [[a o] k] t2 (_ & [ar Ha] & _). simpl in Ha. by rewrite lookup_empty in Ha.
  - intros a ar i Ha. simpl in Ha. by rewrite lookup_empty in Ha.
  - intros a off k _ _ _ Hli. by apply Hnolisted in Hli.
Qed.

(** X19: [malloc_init] sets up the buddy system, whatever distinct
    valid pages the provider holds: there is no arena and no block in
    use, and the provider is untouched. *)
Theorem X19_malloc_init_inv (NDEBUG : bool) (pages : list Z) :
  NoDup pages -> (forall pg, pg ∈ pages -> valid_page pg) ->
  exists st, malloc_init NDEBUG (boot pages) = Ret st
    /\ buddy_inv None st /\ pool st = pages /\ forall t, ~ live st t.
Proof.
  intros Hnd Hv. rewrite malloc_init_boot. eexists. split; [reflexivity|].
  split; [by apply init_inv|]. split; [reflexivity|].
  intros [[a o] k] (ar & Ha & _). simpl in Ha. by rewrite lookup_empty in Ha.
Qed.

(** Pages go back as soon as they can: every arena holds a block in
    use. *)
Lemma arena_in_use (st : heap) (a : Z) (ar : arena) :
  buddy_inv None st -> arenas st !! a = Some ar ->
  exists off k, live st (a, off, k).
Proof.
  intros Hinv Ha.
  destruct (bi_arenas _ st Hinv a ar Ha) as (_ & _ & Hlen & _).
  destruct (range_busy (arr ar) 0 2048) eqn:Hbusy.
  - apply (range_busy_spec (arr ar) 0 2048 ltac:(lia) ltac:(lia) eq_refl eq_refl) in Hbusy
      as (i & v & Hi & Hv & Hv0).
    destruct (bi_live _ st Hinv a ar _ v Ha Hv Hv0) as (j & -> & Htj).
    exists (16 * Z.of_nat (Z.to_nat i)), j. exists ar. split; [exact Ha|]. split; [lia|].
    split; [rewrite Z.mul_comm; apply Z.mod_mul; lia|]. by rewrite offset_of_slot.
  - exfalso.
    pose proof (proj1 (range_quiet_spec (arr ar) 0 2048 ltac:(lia) ltac:(lia) eq_refl eq_refl)
                  Hbusy) as Hz.
    assert (Hzero : forall i v, arr ar !! i = Some v -> v = 0).
    { intros i v Hv. apply (Hz i v); [|exact Hv]. apply lookup_lt_Some in Hv.
      rewrite Hlen in Hv. change ARR_LEN with 128%nat in Hv. lia. }
    destruct (bi_cover _ st Hinv a ar 0%nat Ha ltac:(change ARR_LEN with 128%nat; lia))
      as (o & k & (Ht & Hia & Hkind) & Hr).
    destruct Hkind as [Hl|[Hli|[=]]].
    + destruct Hl as (ar' & Ha' & _ & _ & He). rewrite Ha in Ha'. revert Ha'; intros [= <-].
      apply Hzero in He. by apply class_size_nonzero in He.
    + assert (Hk : (k < 7)%nat).
      { destruct Hli as (dsc & Hd & Hb). by destruct (bi_listed _ st Hinv k dsc _ Hd Hb). }
      destruct (parent_ok a o k Hk Ht) as (HtB & _).
      assert (Hq : quiet st (a, Z.lxor o (class_size k), k)).
      { apply (quiet_entries st a _ k ar HtB Ha). intros i v _ Hv. by apply (Hzero i v). }
      apply (bi_max _ st Hinv a o k Hk Ht Hia Hli).
      apply (buddy_free _ st Hinv a o k); [|exact Hk|exact Hq|by intros h [=]].
      split; [exact Ht|]. split; [exact Hia|]. right. by left.
Qed.

Lemma descs_init (ds : list desc) :
  desc_block_size <$> ds = std_sizes ->
  (forall k dsc, ds !! k = Some dsc -> free_list dsc = []) ->
  ds = init_descs.
Proof.
  intros Hs Hfl.
  assert (Hlen : length ds = 10%nat) by (by rewrite <- (length_fmap desc_block_size), Hs).
  apply list_eq. intros k.
  destruct (ds !! k) as [[sz l]|] eqn:Hd.
  - pose proof (Hfl k _ Hd) as Hl. simpl in Hl. subst l.
    assert (Hk : (desc_block_size <$> ds) !! k = Some sz)
      by (by rewrite list_lookup_fmap, Hd).
    rewrite Hs in Hk.
    do 10 (destruct k as [|k]; [revert Hk; by intros [= <-]|]). discriminate.
  - apply lookup_ge_None in Hd. symmetry. apply lookup_ge_None.
    change (length init_descs) with 10%nat. lia.
Qed.

(** X20: between two calls every arena of a buddy system holds a block
    in use: a page whose blocks are all free has gone back to the page
    provider. Hence, when no block is in use, the allocator is as
    [malloc_init] left it: no arena, an empty arena list and empty free
    lists. *)
Theorem X20_arena_in_use (st : heap) :
  buddy_inv None st ->
  (forall a ar, arenas st !! a = Some ar -> exists off k, live st (a, off, k))
  /\ ((forall t, ~ live st t) ->
      arenas st = ∅ /\ page_list st = [] /\ descs st = init_descs).
Proof.
  intros Hinv. split; [intros a ar; by apply arena_in_use|].
  intros Hnone.
  assert (Hars : arenas st = ∅).
  { apply map_empty. intros a. destruct (arenas st !! a) as [ar|] eqn:Ha; [|done].
    destruct (arena_in_use st a ar Hinv Ha) as (off & k & Hl). by apply Hnone in Hl. }
  split; [exact Hars|]. split.
  - destruct (page_list st) as [|a l] eqn:Hpl; [done|]. exfalso.
    destruct (bi_pages _ st Hinv a) as [ar Ha]; [rewrite Hpl; apply list_elem_of_here|].
    rewrite Hars in Ha. by rewrite lookup_empty in Ha.
  - apply descs_init; [exact (bi_sizes _ st Hinv)|].
    intros k dsc Hd. destruct (free_list dsc) as [|b l] eqn:Hl; [done|]. exfalso.
    destruct (bi_listed _ st Hinv k dsc b Hd) as (_ & a & off & _ & [ar Ha] & _);
      [rewrite Hl; apply list_elem_of_here|].
    rewrite Hars in Ha. by rewrite lookup_empty in Ha.
Qed.

(** *** Blocks and their bytes *)

Lemma bytes_page (a off : Z) (k : nat) (x : Z) :
  valid_page a -> tile_ok (a, off, k) -> bytes (a, off, k) x ->
  pg_round_down x = a /\ off <= x - a - sizeof_arena < off + class_size k.
Proof.
  intros Hv Ht Hb. destruct (tile_ok_bounds a off k Ht) as (Ho & _ & Hc & _ & Hfit).
  unfold bytes, blk in Hb. split; [|lia].
  replace x with (blk a (x - a - sizeof_arena)) by (unfold blk; lia).
  apply pg_round_down_blk; [exact Hv|]. rewrite PGSIZE_eq, sizeof_arena_eq.
  rewrite sizeof_arena_eq in Hb. lia.
Qed.

(** Blocks that share a byte overlap. *)
Lemma bytes_overlap (hole : option tile) (st : heap) (t1 t2 : tile) (x : Z) :
  buddy_inv hole st -> tile_ok t1 -> in_arena st t1 -> tile_ok t2 -> in_arena st t2 ->
  bytes t1 x -> bytes t2 x -> overlap t1 t2.
Proof.
  destruct t1 as [[a1 o1] k1], t2 as [[a2 o2] k2]. intros Hinv H1 Ha1 H2 Ha2 Hb1 Hb2.
  destruct (bytes_page a1 o1 k1 x (inv_valid _ st Hinv a1 o1 k1 Ha1) H1 Hb1) as [E1 R1].
  destruct (bytes_page a2 o2 k2 x (inv_valid _ st Hinv a2 o2 k2 Ha2) H2 Hb2) as [E2 R2].
  unfold overlap. split; [congruence|]. subst a1 a2. lia.
Qed.

(** Two blocks in use have no byte in common. *)
Lemma live_bytes_apart (st : heap) (t1 t2 : tile) (x : Z) :
  buddy_inv None st -> live st t1 -> live st t2 -> bytes t1 x -> bytes t2 x -> t1 = t2.
Proof.
  intros Hinv H1 H2 Hb1 Hb2. destruct t1 as [[a1 o1] k1], t2 as [[a2 o2] k2].
  destruct (live_tile _ st Hinv a1 o1 k1 H1) as [Ht1 Ha1].
  destruct (live_tile _ st Hinv a2 o2 k2 H2) as [Ht2 Ha2].
  apply (bi_disjoint _ st Hinv).
  - split; [exact Ht1|]. split; [exact Ha1|]. by left.
  - split; [exact Ht2|]. split; [exact Ha2|]. by left.
  - by apply (bytes_overlap None st _ _ x Hinv).
Qed.

Lemma debug_fill_out (n : bool) (b d : Z) (st : heap) (x : Z) :
  ~ (b <= x < b + d) -> mem (debug_fill n b d st) x = mem st x.
Proof.
  intros H. unfold debug_fill. destruct n; [reflexivity|]. simpl.
  destruct (Z.leb_spec b x); destruct (Z.ltb_spec x (b + d)); simpl; try reflexivity. lia.
Qed.

Lemma memcpy_in (dst src n : Z) (st : heap) (i : Z) :
  0 <= i < n -> mem (memcpy dst src n st) (dst + i) = mem st (src + i).
Proof.
  intros H. simpl.
  destruct (Z.leb_spec dst (dst + i)); [|lia].
  destruct (Z.ltb_spec (dst + i) (dst + n)); [|lia]. simpl. f_equal. lia.
Qed.

Lemma memcpy_out (dst src n : Z) (st : heap) (x : Z) :
  ~ (dst <= x < dst + n) -> mem (memcpy dst src n st) x = mem st x.
Proof.
  intros H. simpl.
  destruct (Z.leb_spec dst x); destruct (Z.ltb_spec x (dst + n)); simpl; try reflexivity. lia.
Qed.


Section EntryPoints.

Variable NDEBUG : bool.

(** [block_size] of a block in use is the size of its class. *)
Lemma block_size_live (hole : option tile) (st : heap) (a off : Z) (k : nat) :
  buddy_inv hole st -> live st (a, off, k) ->
  block_size NDEBUG (blk a off) st = Ret (class_size k).
Proof.
  intros Hinv Hl. destruct (live_tile _ st Hinv a off k Hl) as [Ht [ar Ha]].
  destruct (bi_arenas _ st Hinv a ar Ha) as (Hvp & Hmg & _).
  destruct (tile_ok_bounds a off k Ht) as (Ho & _ & Hc & _).
  assert (He : arr ar !! Z.to_nat (off / 16) = Some (class_size k)).
  { destruct Hl as (ar0 & Ha0 & _ & _ & He). congruence. }
  unfold block_size.
  rewrite (block_to_arena_blk NDEBUG st a off ar Hvp) by
    first [done | rewrite PGSIZE_eq, sizeof_arena_eq; lia].
  cbn [obind]. rewrite slot_index_blk by (change (2 ^ SIZE_BITS) with 4294967296; lia).
  rewrite (arr_read_blk st a ar _ Ha), He. cbn [of_option obind].
  rewrite wrap_small; [reflexivity|]. change (2 ^ SIZE_BITS) with 4294967296. lia.
Qed.

Lemma blk_not_null (hole : option tile) (st : heap) (a off : Z) (k : nat) :
  buddy_inv hole st -> tile_ok (a, off, k) -> in_arena st (a, off, k) -> blk a off <> NULL.
Proof.
  intros Hinv Ht Ha. destruct (inv_valid _ st Hinv a off k Ha) as (Hpos & _).
  destruct (tile_ok_bounds a off k Ht) as (Ho & _).
  unfold blk, NULL. rewrite sizeof_arena_eq. lia.
Qed.


(** X18: [free] on a buddy system. Freeing a block in use returns and
    leaves a buddy system; the blocks in use are the former ones but
    the freed one, and their bytes are as before (the 0xcc fill of a
    debugging build stays inside the freed block). *)
Theorem X18_free_safe (st : heap) (a off : Z) (k : nat) :
  buddy_inv None st -> live st (a, off, k) ->
  exists st', free NDEBUG (blk a off) st = Ret st'
    /\ buddy_inv None st'
    /\ (forall t, live st' t <-> live st t /\ t <> (a, off, k))
    /\ (forall t x, live st' t -> bytes t x -> mem st' x = mem st x).
Proof.
  intros Hinv Hl.
  destruct (free_inv NDEBUG st a off k Hinv Hl) as (st' & Hf & Hinv' & Hlive & Hmem).
  exists st'. split; [exact Hf|]. split; [exact Hinv'|]. split; [exact Hlive|].
  intros t x Hl' Hb. rewrite Hmem. apply debug_fill_out. intros Hx.
  apply Hlive in Hl' as [Hl0 Hne]. apply Hne.
  by apply (live_bytes_apart st t (a, off, k) x Hinv).
Qed.

(** X21: [realloc] on a buddy system, for a block in use and a new
    size of 1 to 2048 bytes. The call returns and leaves a buddy
    system. When the result is null nothing has changed: the old block
    is still in use. Otherwise the result is a block in use of a class
    that holds [new_size] bytes, the old block is no longer in use, the
    other blocks in use are the same, the first
    [min (new_size, old size)] bytes of the new block are those of the
    old one, and the bytes of the other blocks in use are as before. *)
Theorem X21_realloc_safe (st : heap) (a off : Z) (k : nat) (new_size : Z) :
  buddy_inv None st -> live st (a, off, k) -> 0 < new_size <= PGSIZE / 2 ->
  exists p st', realloc NDEBUG (blk a off) new_size st = Ret (p, st')
    /\ buddy_inv None st'
    /\ ((p = NULL /\ st' = st)
        \/ exists a' off' k',
             p = blk a' off' /\ p <> NULL /\ new_size <= class_size k'
             /\ (forall t, live st' t
                           <-> (live st t /\ t <> (a, off, k)) \/ t = (a', off', k'))
             /\ (forall i, 0 <= i < Z.min new_size (class_size k) ->
                   mem st' (p + i) = mem st (blk a off + i))
             /\ (forall t x, live st t -> t <> (a, off, k) -> bytes t x ->
                   mem st' x = mem st x)).
Proof.
  intros Hinv Hl Hsize. unfold realloc.
  destruct (Z.eqb_spec new_size 0) as [|_]; [lia|].
  destruct (malloc_inv NDEBUG new_size st Hinv Hsize) as (p & st1 & -> & Hinv1 & Hmem1 & Hres).
  cbn [obind].
  destruct (live_tile _ st Hinv a off k Hl) as [Ht Ha].
  pose proof (blk_not_null _ st a off k Hinv Ht Ha) as Hold.
  destruct (Z.eqb_spec (blk a off) NULL) as [|_]; [done|].
  destruct Hres as [(-> & -> & _)|(a' & off' & k' & -> & Hnn & Hle & _ & Hlive1 & Hapart)].
  { change (NULL =? NULL) with true. cbn [negb andb].
    exists NULL, st. split; [reflexivity|]. split; [exact Hinv|]. by left. }
  destruct (Z.eqb_spec (blk a' off') NULL) as [|_]; [done|]. cbn [negb andb].
  assert (Hl1 : live st1 (a, off, k)) by (apply Hlive1; by left).
  assert (Hnew1 : live st1 (a', off', k')) by (apply Hlive1; by right).
  rewrite (block_size_live None st1 a off k Hinv1 Hl1). cbn [obind].
  set (n := if new_size <? class_size k then new_size else class_size k).
  assert (Hn : n = Z.min new_size (class_size k)).
  { unfold n. destruct (Z.ltb_spec new_size (class_size k)); lia. }
  set (st2 := memcpy (blk a' off') (blk a off) n st1).
  assert (Hinv2 : buddy_inv None st2) by (by apply (inv_frame None st1)).
  assert (Hl2 : live st2 (a, off, k)) by exact Hl1.
  destruct (free_inv NDEBUG st2 a off k Hinv2 Hl2) as (st3 & -> & Hinv3 & Hlive3 & Hmem3).
  cbn [obind]. exists (blk a' off'), st3. split; [reflexivity|]. split; [exact Hinv3|].
  right. exists a', off', k'. split; [reflexivity|]. split; [exact Hnn|].
  split; [exact Hle|].
  assert (Hdiff : (a', off', k') <> (a, off, k)).
  { intros E. apply (Hapart (a, off, k) Hl). rewrite E. by apply overlap_refl. }
  assert (Hin_new : forall x, blk a' off' <= x < blk a' off' + n -> bytes (a', off', k') x).
  { intros x Hx. unfold bytes. lia. }
  split; [|split].
  - intros t. rewrite Hlive3.
    change (live st2 t) with (live st1 t). rewrite Hlive1. split.
    + intros [[H| ->] Hne]; [left; by split|by right].
    + intros [[H Hne]| ->]; [split; [by left|exact Hne]|split; [by right|exact Hdiff]].
  - intros i Hi. rewrite Hmem3, debug_fill_out.
    + unfold st2. rewrite memcpy_in by lia. by rewrite Hmem1.
    + intros Hx. apply Hdiff.
      apply (live_bytes_apart st1 _ _ (blk a' off' + i) Hinv1 Hnew1 Hl1); [|exact Hx].
      apply Hin_new. lia.
  - intros t x Hlt Hne Hb.
    assert (Hlt1 : live st1 t) by (apply Hlive1; by left).
    rewrite Hmem3, debug_fill_out.
    + unfold st2. rewrite memcpy_out; [by rewrite Hmem1|].
      intros Hx. apply (Hapart t Hlt).
      pose proof (live_bytes_apart st1 _ _ x Hinv1 Hlt1 Hnew1 Hb (Hin_new x Hx)) as ->.
      apply overlap_refl. by destruct (live_tile _ st1 Hinv1 a' off' k' Hnew1).
    + intros Hx. apply Hne. by apply (live_bytes_apart st1 _ _ x Hinv1 Hlt1 Hl1).
Qed.


End EntryPoints.

(** *** Instances of the invariant *)

Lemma example_pages_ok :
  NoDup [example_page; 0x200000]
  /\ forall pg, pg ∈ [example_page; 0x200000] -> valid_page pg.
Proof.
  split.
  - apply NoDup_cons_2; [|apply NoDup_singleton].
    intros H. apply list_elem_of_singleton in H. discriminate.
  - intros pg Hpg. apply elem_of_cons in Hpg as [->|Hpg]; [exact example_page_valid|].
    apply list_elem_of_singleton in Hpg as ->.
    split; [lia|]. split; [reflexivity|]. vm_compute. discriminate.
Qed.

Lemma example_fresh_inv : buddy_inv None example_fresh.
Proof. destruct example_pages_ok as [Hnd Hv]. by apply init_inv. Qed.

Lemma example_full_malloc :
  malloc true 2048 example_fresh = Ret (blk example_page 0, example_full).
Proof. vm_compute. reflexivity. Qed.

Lemma example_full_inv :
  buddy_inv None example_full /\ live example_full (example_page, 0, 7%nat).
Proof.
  set (fresh := Arena ARENA_MAGIC (replicate ARR_LEN 0)).
  set (st_r := Heap init_descs 8 ([] ++ [example_page]) (<[example_page := fresh]> ∅)
                 (fun _ => 0) [0x200000]).
  assert (Hr : buddy_inv (Some (example_page, 0, 7%nat)) st_r).
  { by apply (inv_refill example_fresh st_r example_page [0x200000] example_fresh_inv). }
  assert (Ha : arenas st_r !! example_page = Some fresh) by apply lookup_insert_eq.
  assert (Hars : arenas example_full
                 = arenas (set_slot example_page (Z.to_nat (0 / 16)) (class_size 7) fresh st_r)).
  { unfold set_slot, st_r, example_full. cbn [arenas set_arenas].
    rewrite insert_insert_eq. reflexivity. }
  split.
  - apply (inv_frame _ (set_slot example_page (Z.to_nat (0 / 16)) (class_size 7) fresh st_r));
      [reflexivity|reflexivity|reflexivity|exact Hars|reflexivity|].
    by apply inv_write.
  - apply (live_same _ _ Hars). apply (live_write st_r example_page 0 7 fresh Hr Ha). by right.
Qed.


Lemma X18_free_safe_witness :
  buddy_inv None example_full
  /\ live example_full (example_page, 0, 7%nat)
  /\ exists st', free false (blk example_page 0) example_full = Ret st'
       /\ buddy_inv None st' /\ ~ live st' (example_page, 0, 7%nat).
Proof.
  destruct example_full_inv as [Hinv Hl].
  split; [exact Hinv|]. split; [exact Hl|].
  destruct (X18_free_safe false example_full example_page 0 7 Hinv Hl)
    as (st' & Hf & Hinv' & Hlive).
  exists st'. split; [exact Hf|]. split; [exact Hinv'|].
  intros H. apply Hlive in H as [_ H]. by apply H.
Defined.

Lemma X19_malloc_init_inv_witness :
  NoDup [example_page; 0x200000]
  /\ (forall pg, pg ∈ [example_page; 0x200000] -> valid_page pg)
  /\ exists st, malloc_init false (boot [example_page; 0x200000]) = Ret st
       /\ buddy_inv None st.
Proof.
  destruct example_pages_ok as [Hnd Hv].
  split; [exact Hnd|]. split; [exact Hv|].
  destruct (X19_malloc_init_inv false [example_page; 0x200000] Hnd Hv)
    as (st & Hi & Hinv & _).
  exists st. split; [exact Hi|exact Hinv].
Defined.

Lemma X20_arena_in_use_witness :
  buddy_inv None example_full
  /\ exists off k, live example_full (example_page, off, k).
Proof.
  destruct example_full_inv as [Hinv _].
  split; [exact Hinv|].
  apply (proj1 (X20_arena_in_use example_full Hinv) example_page
           (Arena ARENA_MAGIC (<[0%nat := 2048]> (replicate ARR_LEN 0)))).
  apply lookup_insert_eq.
Defined.

Lemma X21_realloc_safe_witness :
  buddy_inv None example_full
  /\ live example_full (example_page, 0, 7%nat)
  /\ 0 < 16 <= PGSIZE / 2
  /\ exists p st', realloc false (blk example_page 0) 16 example_full = Ret (p, st')
       /\ buddy_inv None st'.
Proof.
  destruct example_full_inv as [Hinv Hl].
  assert (Hs : 0 < 16 <= PGSIZE / 2) by (vm_compute; split; [reflexivity|discriminate]).
  split; [exact Hinv|]. split; [exact Hl|]. split; [exact Hs|].
  destruct (X21_realloc_safe false example_full example_page 0 7 16 Hinv Hl Hs)
    as (p & st' & Hr & Hinv' & _).
  exists p, st'. split; [exact Hr|exact Hinv'].
Defined.


(** ** [printMemory] *)

(** *** Sorting by address *)

Lemma insert_ordered_perm (less : Z -> Z -> bool) (e : Z) (l : list Z) :
  list_insert_ordered less e l ≡ₚ e :: l.
Proof.
  induction l as [|x l IH]; simpl; [done|]. destruct (less e x); [done|].
  rewrite IH. apply Permutation_swap.
Qed.

Lemma sort_into_perm (less : Z -> Z -> bool) (l : list Z) :
  forall acc, list_sort_into less acc l ≡ₚ acc ++ l.
Proof.
  induction l as [|e l IH]; intros acc; simpl; [by rewrite app_nil_r|].
  rewrite IH, insert_ordered_perm. simpl. apply Permutation_middle.
Qed.

Lemma list_sort_perm (less : Z -> Z -> bool) (l : list Z) : list_sort less l ≡ₚ l.
Proof. unfold list_sort. by rewrite sort_into_perm. Qed.

Lemma insert_ordered_increasing (e : Z) (l : list Z) :
  increasing l -> e ∉ l -> increasing (list_insert_ordered cmp_addr e l).
Proof.
  induction l as [|x l IH]; intros Hinc Hnot; simpl.
  - split; [|done]. intros y Hy. by apply elem_of_nil in Hy.
  - destruct Hinc as [Hx Hinc]. apply not_elem_of_cons in Hnot as [Hne Hnot].
    unfold cmp_addr. destruct (Z.ltb_spec e x) as [Hlt|Hge].
    + split; [|by split]. intros y Hy. apply elem_of_cons in Hy as [->|Hy]; [exact Hlt|].
      specialize (Hx y Hy). lia.
    + split; [|by apply IH]. intros y Hy.
      rewrite insert_ordered_perm in Hy. apply elem_of_cons in Hy as [->|Hy]; [lia|].
      by apply Hx.
Qed.

Lemma sort_into_increasing (l : list Z) :
  forall acc, increasing acc -> NoDup (acc ++ l) ->
              increasing (list_sort_into cmp_addr acc l).
Proof.
  induction l as [|e l IH]; intros acc Hinc Hnd; simpl; [exact Hinc|].
  apply IH.
  - apply insert_ordered_increasing; [exact Hinc|].
    apply NoDup_app in Hnd as (_ & Hdis & _). intros He. apply (Hdis e He).
    apply list_elem_of_here.
  - rewrite insert_ordered_perm. simpl. by rewrite Permutation_middle.
Qed.

Lemma list_sort_increasing (l : list Z) : NoDup l -> increasing (list_sort cmp_addr l).
Proof. intros Hnd. by apply sort_into_increasing. Qed.

Lemma increasing_head (x : Z) (l : list Z) :
  increasing (x :: l) -> forall y, y ∈ x :: l -> x <= y.
Proof.
  intros [Hx _] y Hy. apply elem_of_cons in Hy as [->|Hy]; [lia|].
  specialize (Hx y Hy). lia.
Qed.


(** *** The state after the first loop *)

Lemma sort_free_lists_spec (n : nat) :
  forall (i : nat) (st : heap), (i + n <= length (descs st))%nat ->
  exists st', sort_free_lists n i st = Ret st'
    /\ desc_cnt st' = desc_cnt st /\ page_list st' = page_list st
    /\ arenas st' = arenas st /\ pool st' = pool st /\ mem st' = mem st
    /\ length (descs st') = length (descs st)
    /\ forall j, descs st' !! j =
         if (i <=? j)%nat && (j <? i + n)%nat
         then sorted_desc <$> descs st !! j else descs st !! j.
Proof.
  induction n as [|n IH]; intros i st Hlen.
  - exists st. split; [reflexivity|]. split_conj; try reflexivity.
    intros j. destruct (Nat.leb_spec i j); destruct (Nat.ltb_spec j (i + 0)); simpl;
      try reflexivity; lia.
  - destruct (lookup_lt_is_Some_2 (descs st) i ltac:(lia)) as [dsc Hd].
    cbn [sort_free_lists]. unfold get_desc. rewrite Hd. cbn [of_option obind].
    set (st1 := set_descs _ st).
    assert (Hlen1 : length (descs st1) = length (descs st)) by apply length_insert.
    destruct (IH (S i) st1 ltac:(rewrite Hlen1; lia))
      as (st' & Hrun & Hc & Hpl & Ha & Hp & Hm & Hl & Hlk).
    exists st'. split; [exact Hrun|]. split_conj; try done; try congruence.
    intros j. rewrite Hlk. unfold st1. cbn [descs set_descs].
    destruct (decide (j = i)) as [->|Hne].
    + rewrite list_lookup_insert_eq by (by apply lookup_lt_Some in Hd).
      destruct (Nat.leb_spec (S i) i); [lia|]. cbn [andb].
      destruct (Nat.leb_spec i i); [|lia]. destruct (Nat.ltb_spec i (i + S n)); [|lia].
      cbn [andb]. by rewrite Hd.
    + rewrite list_lookup_insert_ne by done.
      destruct (Nat.leb_spec (S i) j); destruct (Nat.ltb_spec j (S i + n));
        destruct (Nat.leb_spec i j); destruct (Nat.ltb_spec j (i + S n)); cbn [andb];
        try reflexivity; lia.
Qed.

(** A state with the same arenas and the same free blocks is a buddy
    system as well. *)
Lemma inv_same_blocks (hole : option tile) (st st' : heap) :
  buddy_inv hole st ->
  desc_cnt st' = desc_cnt st -> page_list st' = page_list st ->
  arenas st' = arenas st -> pool st' = pool st ->
  desc_block_size <$> descs st' = desc_block_size <$> descs st ->
  (forall k dsc' b, descs st' !! k = Some dsc' -> b ∈ free_list dsc' ->
     exists dsc, descs st !! k = Some dsc /\ b ∈ free_list dsc) ->
  (forall k dsc b, descs st !! k = Some dsc -> b ∈ free_list dsc ->
     exists dsc', descs st' !! k = Some dsc' /\ b ∈ free_list dsc') ->
  (forall k dsc', descs st' !! k = Some dsc' -> NoDup (free_list dsc')) ->
  buddy_inv hole st'.
Proof.
  intros Hinv. destruct st' as [ds' c' pl' ars' m' po'].
  cbn [descs desc_cnt page_list arenas pool]. intros -> -> -> -> Hs Hsub Hsup Hnd.
  set (st' := Heap ds' _ _ _ m' _).
  assert (Hli : forall t, listed st' t <-> listed st t).
  { intros [[a o] k]. split.
    - intros (dsc' & Hd & Hb). destruct (Hsub k dsc' _ Hd Hb) as (dsc & Hd0 & Hb0).
      by exists dsc.
    - intros (dsc & Hd & Hb). destruct (Hsup k dsc _ Hd Hb) as (dsc' & Hd0 & Hb0).
      by exists dsc'. }
  assert (Hti : forall t, is_tile st' hole t <-> is_tile st hole t).
  { intros t. unfold is_tile. rewrite Hli. reflexivity. }
  split.
  - rewrite <- (bi_sizes _ st Hinv). exact Hs.
  - exact (bi_cnt _ st Hinv).
  - exact (bi_arenas _ st Hinv).
  - exact (bi_pages _ st Hinv).
  - exact (bi_pool _ st Hinv).
  - exact (bi_live _ st Hinv).
  - intros k dsc' b Hd Hb. destruct (Hsub k dsc' b Hd Hb) as (dsc & Hd0 & Hb0).
    exact (bi_listed _ st Hinv k dsc b Hd0 Hb0).
  - exact Hnd.
  - intros t Ht. destruct (bi_hole _ st Hinv t Ht) as (H1 & H2 & H3).
    split; [exact H1|]. split; [exact H2|]. by rewrite Hli.
  - intros t Ht Ha Hkind. rewrite Hli in Hkind. exact (bi_quiet _ st Hinv t Ht Ha Hkind).
  - intros t1 t2 H1 H2. apply (bi_disjoint _ st Hinv); by apply Hti.
  - intros a ar i Ha Hi.
    destruct (bi_cover _ st Hinv a ar i Ha Hi) as (o & k & Htile & Hr).
    exists o, k. split; [by apply Hti|exact Hr].
  - intros a o k Hk Ht Ha H1 H2. apply Hli in H1, H2.
    exact (bi_max _ st Hinv a o k Hk Ht Ha H1 H2).
Qed.

(** *** What is printed *)

Lemma offsets_in_cons (a b : Z) (l : list Z) :
  offsets_in a (b :: l)
  = if pg_round_down b =? a then (b - a - sizeof_arena) :: offsets_in a l
    else offsets_in a l.
Proof. unfold offsets_in. cbn [List.filter]. by destruct (pg_round_down b =? a). Qed.



Section Printing.

Variable NDEBUG : bool.

Lemma print_blocks_spec (st : heap) (a : Z) (l : list Z) :
  buddy_inv None st ->
  (forall b, b ∈ l -> exists k dsc, descs st !! k = Some dsc /\ b ∈ free_list dsc) ->
  print_blocks NDEBUG a l st = Ret (OutBlock <$> offsets_in a l).
Proof.
  intros Hinv. induction l as [|b l IH]; intros Hl; [reflexivity|].
  destruct (Hl b ltac:(apply list_elem_of_here)) as (k & dsc & Hd & Hb).
  destruct (listed_tile _ st Hinv k dsc b Hd Hb) as (_ & a' & o' & -> & Ht & [ar Ha] & _).
  destruct (bi_arenas _ st Hinv a' ar Ha) as (Hvp & Hmg & _).
  destruct (tile_ok_bounds a' o' k Ht) as (Ho & _).
  assert (Hoff : 0 <= o' < PGSIZE - sizeof_arena)
    by (rewrite PGSIZE_eq, sizeof_arena_eq; lia).
  cbn [print_blocks].
  rewrite (block_to_arena_blk NDEBUG st a' o' ar Hvp Hoff Ha Hmg). cbn [obind].
  rewrite IH by (intros b' Hb'; apply Hl; by apply list_elem_of_further). cbn [obind].
  rewrite offsets_in_cons, (pg_round_down_blk a' o' Hvp Hoff), (Z.eqb_sym a' a).
  destruct (Z.eqb_spec a a') as [->|Hne]; cbn [negb]; [|reflexivity].
  rewrite fmap_cons. do 3 f_equal. unfold blk.
  replace (a' + sizeof_arena + o' - a' - sizeof_arena) with o' by lia.
  apply wrap_small. change (2 ^ SIZE_BITS) with 4294967296. lia.
Qed.

Lemma print_classes_spec (st : heap) (a : Z) :
  buddy_inv None st ->
  forall n i, (i + n <= length (descs st))%nat ->
  print_classes NDEBUG a n i st = Ret (take n (drop i (descs st)) ≫= report_class a).
Proof.
  intros Hinv. induction n as [|n IH]; intros i Hlen; [reflexivity|].
  destruct (lookup_lt_is_Some_2 (descs st) i ltac:(lia)) as [dsc Hd].
  cbn [print_classes]. unfold get_desc. rewrite Hd. cbn [of_option obind].
  rewrite (print_blocks_spec st a (free_list dsc) Hinv) by (intros b Hb; by exists i, dsc).
  cbn [obind]. rewrite IH by lia. cbn [obind].
  rewrite (drop_S _ _ _ Hd). cbn [take]. rewrite bind_cons. unfold report_class at 2.
  cbn [app]. rewrite <- app_assoc. reflexivity.
Qed.

Lemma print_pages_spec (st : heap) :
  buddy_inv None st ->
  forall pl n,
  print_pages NDEBUG pl n st = Ret (report_pages pl n (take (desc_cnt st) (descs st))).
Proof.
  intros Hinv. induction pl as [|a pl IH]; intros n; [reflexivity|].
  cbn [print_pages].
  assert (Hlen : (0 + desc_cnt st <= length (descs st))%nat).
  { rewrite (bi_cnt _ st Hinv), <- (length_fmap desc_block_size), (bi_sizes _ st Hinv).
    change (length std_sizes) with 10%nat. lia. }
  rewrite (print_classes_spec st a Hinv _ 0 Hlen). cbn [obind]. rewrite IH. reflexivity.
Qed.

(** [printMemory] on a buddy system: what it prints and what it
    leaves. *)
Lemma printMemory_inv (st : heap) :
  buddy_inv None st ->
  exists st', printMemory NDEBUG st = Ret (report st', st')
    /\ buddy_inv None st'
    /\ arenas st' = arenas st /\ page_list st' = page_list st
    /\ pool st' = pool st /\ mem st' = mem st
    /\ forall j, descs st' !! j = sorted_desc <$> descs st !! j.
Proof.
  intros Hinv.
  assert (Hlen : length (descs st) = 10%nat).
  { rewrite <- (length_fmap desc_block_size), (bi_sizes _ st Hinv). reflexivity. }
  unfold printMemory. rewrite (bi_cnt _ st Hinv).
  destruct (sort_free_lists_spec 8 0 st ltac:(lia))
    as (st' & -> & Hc & Hpl & Ha & Hp & Hm & Hl & Hlk).
  cbn [obind].
  assert (Hlk' : forall j, descs st' !! j = sorted_desc <$> descs st !! j).
  { intros j. rewrite Hlk. destruct (Nat.leb_spec 0 j); [|lia].
    destruct (Nat.ltb_spec j (0 + 8)); cbn [andb]; [reflexivity|].
    destruct (descs st !! j) as [[sz l]|] eqn:Hd; [|reflexivity].
    destruct l as [|b l]; [reflexivity|]. exfalso.
    destruct (bi_listed _ st Hinv j _ b Hd) as [Hlt _]; [apply list_elem_of_here|lia]. }
  assert (Hinv' : buddy_inv None st').
  { apply (inv_same_blocks None st st' Hinv Hc Hpl Ha Hp).
    - apply list_eq. intros j. rewrite !list_lookup_fmap, Hlk'.
      by destruct (descs st !! j).
    - intros k dsc' b Hd Hb. rewrite Hlk' in Hd.
      destruct (descs st !! k) as [dsc|]; [|discriminate]. revert Hd; intros [= <-].
      exists dsc. split; [reflexivity|]. simpl in Hb. by rewrite list_sort_perm in Hb.
    - intros k dsc b Hd Hb. exists (sorted_desc dsc). rewrite Hlk', Hd.
      split; [reflexivity|]. simpl. by rewrite list_sort_perm.
    - intros k dsc' Hd. rewrite Hlk' in Hd.
      destruct (descs st !! k) as [dsc|] eqn:Hd0; [|discriminate]. revert Hd; intros [= <-].
      simpl. rewrite list_sort_perm. by apply (bi_nodup _ st Hinv k). }
  rewrite (print_pages_spec st' Hinv'). cbn [obind].
  exists st'. split; [reflexivity|]. by split_conj.
Qed.


(** X24: [printMemory] is not a mere observer. After it, [malloc]
    serves a request from the lowest free block of the first class that
    fits, whatever the order in which the blocks were freed. *)
Theorem X24_printMemory_then_malloc (st : heap) (size : Z) (k : nat) (dsc : desc) :
  buddy_inv None st -> 0 < size <= PGSIZE / 2 ->
  descs st !! k = Some dsc -> size <= desc_block_size dsc -> free_list dsc <> [] ->
  no_fit_below size st k ->
  exists o st1 p st2,
    printMemory NDEBUG st = Ret (o, st1)
    /\ malloc NDEBUG size st1 = Ret (p, st2)
    /\ p ∈ free_list dsc /\ forall b, b ∈ free_list dsc -> p <= b.
Proof.
  intros Hinv Hsize Hd Hfit Hne Hbelow.
  destruct (printMemory_inv st Hinv) as (st1 & Hrun & Hinv1 & _ & _ & _ & _ & Hlk).
  assert (Hk : (k < 8)%nat).
  { destruct (free_list dsc) as [|b l] eqn:Hl; [done|].
    destruct (bi_listed _ st Hinv k dsc b Hd) as [Hlt _];
      [rewrite Hl; apply list_elem_of_here|lia]. }
  assert (Hd1 : descs st1 !! k = Some (sorted_desc dsc)) by (by rewrite Hlk, Hd).
  destruct (list_sort cmp_addr (free_list dsc)) as [|p l] eqn:Hs.
  { exfalso. apply Hne. apply Permutation_nil_r. by rewrite <- Hs, list_sort_perm. }
  assert (Hbelow1 : no_fit_below size st1 k).
  { intros j dsc' Hj Hdj. rewrite Hlk in Hdj.
    destruct (descs st !! j) as [dj|] eqn:Hdj0; [|discriminate]. revert Hdj; intros [= <-].
    destruct (Hbelow j dj Hj Hdj0) as [Hlt|Hnil]; [by left|right].
    simpl. rewrite Hnil. reflexivity. }
  pose proof (inv_heap_ok _ st1 Hinv1) as Hok1.
  destruct (scan_first_fit NDEBUG size st1 k (sorted_desc dsc) p l Hok1 Hk Hd1 Hfit Hs Hbelow1
              8 0 ltac:(lia) ltac:(lia)) as (a & st' & Hscan & _).
  destruct (malloc_after_scan NDEBUG size st1 k p a st' Hok1 Hsize Hscan)
    as (st2 & Hm & _).
  exists (report st1), st1, p, st2. split; [exact Hrun|]. split; [exact Hm|].
  assert (Hinc : increasing (p :: l)).
  { rewrite <- Hs. apply list_sort_increasing. by apply (bi_nodup _ st Hinv k). }
  split.
  - rewrite <- (list_sort_perm cmp_addr), Hs. apply list_elem_of_here.
  - intros b Hb. apply (increasing_head p l Hinc). by rewrite <- Hs, list_sort_perm.
Qed.

End Printing.

(** *** Instances of [printMemory] *)

Lemma example_one_inv : buddy_inv None example_one.
Proof.
  assert (Hs : 0 < 16 <= PGSIZE / 2) by (vm_compute; split; [reflexivity|discriminate]).
  destruct (malloc_inv false 16 example_fresh example_fresh_inv Hs)
    as (p & st' & Hm & Hinv & _).
  rewrite example_one_malloc in Hm. revert Hm; intros [= _ <-]. exact Hinv.
Qed.

(** What [printMemory] prints after [malloc (16)] on the fresh
    allocator: one page, and one free block in each class but the
    last. *)
Lemma example_print :
  printMemory true example_one
  = Ret ([OutPages 1; OutPage 1;
          OutSize 16; OutBlock 16; OutNewline; OutSize 32; OutBlock 32; OutNewline;
          OutSize 64; OutBlock 64; OutNewline; OutSize 128; OutBlock 128; OutNewline;
          OutSize 256; OutBlock 256; OutNewline; OutSize 512; OutBlock 512; OutNewline;
          OutSize 1024; OutBlock 1024; OutNewline; OutSize 2048; OutNewline; OutNewline],
         example_one).
Proof. vm_compute. reflexivity. Qed.


(** In [example_one] the class of 16 bytes holds the block at offset
    16. *)
Lemma X24_printMemory_then_malloc_witness :
  buddy_inv None example_one
  /\ 0 < 16 <= PGSIZE / 2
  /\ descs example_one !! 0%nat = Some (Desc 16 [blk example_page 16])
  /\ 16 <= desc_block_size (Desc 16 [blk example_page 16])
  /\ free_list (Desc 16 [blk example_page 16]) <> []
  /\ no_fit_below 16 example_one 0
  /\ exists o st1 p st2,
       printMemory false example_one = Ret (o, st1)
       /\ malloc false 16 st1 = Ret (p, st2)
       /\ p ∈ [blk example_page 16].
Proof.
  assert (Hs : 0 < 16 <= PGSIZE / 2) by (vm_compute; split; [reflexivity|discriminate]).
  assert (Hfit : 16 <= desc_block_size (Desc 16 [blk example_page 16])) by (simpl; lia).
  assert (Hne : free_list (Desc 16 [blk example_page 16]) <> []) by discriminate.
  assert (Hno : no_fit_below 16 example_one 0) by (intros j dsc Hj; lia).
  split; [exact example_one_inv|]. split; [exact Hs|]. split; [reflexivity|].
  split; [exact Hfit|]. split; [exact Hne|]. split; [exact Hno|].
  destruct (X24_printMemory_then_malloc false example_one 16 0 (Desc 16 [blk example_page 16])
              example_one_inv Hs eq_refl Hfit Hne Hno)
    as (o & st1 & p & st2 & Hrun & Hm & Hp & _).
  exists o, st1, p, st2. split; [exact Hrun|]. split; [exact Hm|exact Hp].
Defined.

End MallocProps.

(** * Further properties of the signals *)

Module SignalsProps.
Import Signals SignalsSpec.

Section Builders.

Variable NDEBUG : bool.
Variable cfg : sigconfig.
Hypothesis cfg_ok : sigconfig_ok cfg.

Lemma valid_set_sigset (s : Z) : valid_set cfg s -> 0 <= s < 2 ^ SIGSET_BITS cfg.
Proof.
  intros [H0 H1]. split; [exact H0|].
  apply Z.lt_le_trans with (2 ^ NUM_SIGNAL cfg); [exact H1|].
  pose proof (num_signal_pos cfg cfg_ok). pose proof (num_signal_set cfg cfg_ok).
  apply Z.pow_le_mono_r; lia.
Qed.

Lemma valid_set_bits (s i : Z) :
  valid_set cfg s -> NUM_SIGNAL cfg <= i -> Z.testbit s i = false.
Proof.
  intros [H0 H1] Hi. pose proof (num_signal_pos cfg cfg_ok).
  apply (lt_pow2_bits s (NUM_SIGNAL cfg)); lia.
Qed.

(** A [sigset_t] value whose bits are below NUM_SIGNAL is valid. *)
Lemma to_sigset_valid (z : Z) :
  (forall i, NUM_SIGNAL cfg <= i -> Z.testbit (to_sigset cfg z) i = false) ->
  valid_set cfg (to_sigset cfg z).
Proof.
  intros H. pose proof (num_signal_pos cfg cfg_ok). pose proof (num_signal_set cfg cfg_ok).
  assert (0 <= to_sigset cfg z).
  { unfold to_sigset. apply Z.mod_pos_bound, Z.pow_pos_nonneg; lia. }
  split; [assumption|]. apply lt_pow2_bits; [lia|lia|exact H].
Qed.

Lemma to_sigset_bits (z i : Z) :
  0 <= i ->
  Z.testbit (to_sigset cfg z) i = (i <? SIGSET_BITS cfg) && Z.testbit z i.
Proof.
  intros Hi. unfold to_sigset. pose proof (num_signal_pos cfg cfg_ok).
  pose proof (num_signal_set cfg cfg_ok).
  destruct (Z.ltb_spec i (SIGSET_BITS cfg)).
  - rewrite Z.mod_pow2_bits_low by lia. reflexivity.
  - rewrite Z.mod_pow2_bits_high by lia. reflexivity.
Qed.

Lemma builder_level (st : kernel) :
  level st = INTR_ON ->
  ASSERT NDEBUG (intr_on st) = Ret tt
  /\ intr_set_level (level st) (intr_set_level INTR_OFF st) = st.
Proof.
  intros Hon. split; [by rewrite (intr_on_ON st Hon), ASSERT_true|apply restore_level].
Qed.

Lemma sigaddset_unfold (s signum : Z) (st : kernel) :
  level st = INTR_ON -> 0 <= signum < NUM_SIGNAL cfg ->
  sigaddset NDEBUG cfg (Some s) signum st
  = Ret (0, Some (to_sigset cfg (Z.lor s (Z.shiftl 1 signum))), st).
Proof.
  intros Hon Hs. unfold sigaddset. pose proof (num_signal_int cfg cfg_ok).
  destruct (Z.geb_spec signum (NUM_SIGNAL cfg)); [lia|].
  destruct (builder_level st Hon) as [-> Hr]. simpl.
  rewrite int_shl1_ok by lia. simpl. by rewrite Hr.
Qed.

Lemma sigdelset_unfold (s signum : Z) (st : kernel) :
  level st = INTR_ON -> 0 <= signum < NUM_SIGNAL cfg ->
  sigdelset NDEBUG cfg (Some s) signum st
  = Ret (0, Some (to_sigset cfg (Z.land s (Z.lnot (Z.shiftl 1 signum)))), st).
Proof.
  intros Hon Hs. unfold sigdelset. pose proof (num_signal_int cfg cfg_ok).
  destruct (Z.geb_spec signum (NUM_SIGNAL cfg)); [lia|].
  destruct (builder_level st Hon) as [-> Hr]. simpl.
  rewrite int_shl1_ok by lia. simpl. by rewrite Hr.
Qed.

Lemma added_bits (s signum i : Z) :
  valid_set cfg s -> 0 <= signum < NUM_SIGNAL cfg -> 0 <= i ->
  Z.testbit (to_sigset cfg (Z.lor s (Z.shiftl 1 signum))) i
  = Z.testbit s i || (i =? signum).
Proof.
  intros Hv Hs Hi. pose proof (num_signal_set cfg cfg_ok).
  rewrite to_sigset_bits, Z.lor_spec, pow2_bit by lia.
  destruct (Z.ltb_spec i (SIGSET_BITS cfg)); [reflexivity|]. simpl.
  rewrite (valid_set_bits s i Hv) by lia.
  destruct (Z.eqb_spec i signum); [lia|reflexivity].
Qed.

Lemma deleted_bits (s signum i : Z) :
  valid_set cfg s -> 0 <= signum < NUM_SIGNAL cfg -> 0 <= i ->
  Z.testbit (to_sigset cfg (Z.land s (Z.lnot (Z.shiftl 1 signum)))) i
  = Z.testbit s i && negb (i =? signum).
Proof.
  intros Hv Hs Hi. pose proof (num_signal_set cfg cfg_ok).
  rewrite to_sigset_bits, Z.land_spec, Z.lnot_spec, pow2_bit by lia.
  destruct (Z.ltb_spec i (SIGSET_BITS cfg)); [reflexivity|]. simpl.
  rewrite (valid_set_bits s i Hv) by lia. reflexivity.
Qed.

Lemma sigaddset_spec (s signum : Z) (st : kernel) :
  level st = INTR_ON ->
  valid_set cfg s ->
  0 <= signum < NUM_SIGNAL cfg ->
  exists s',
    sigaddset NDEBUG cfg (Some s) signum st = Ret (0, Some s', st)
    /\ valid_set cfg s'
    /\ (forall i, 0 <= i -> Z.testbit s' i = Z.testbit s i || (i =? signum))
    /\ (Z.testbit s signum = true -> s' = s).
Proof.
  intros Hon Hv Hs. eexists. split; [by apply sigaddset_unfold|].
  set (s' := to_sigset cfg (Z.lor s (Z.shiftl 1 signum))).
  assert (Hb : forall i, 0 <= i -> Z.testbit s' i = Z.testbit s i || (i =? signum)).
  { intros i Hi. by apply added_bits. }
  assert (Hv' : valid_set cfg s').
  { apply to_sigset_valid. intros i Hi. pose proof (num_signal_pos cfg cfg_ok).
    fold s'. rewrite Hb by lia. rewrite (valid_set_bits s i Hv Hi).
    destruct (Z.eqb_spec i signum); [lia|reflexivity]. }
  split; [exact Hv'|]. split; [exact Hb|].
  intros Hset. apply Z.bits_inj'. intros i Hi. rewrite Hb by lia.
  destruct (Z.eqb_spec i signum) as [->|]; [by rewrite Hset|by rewrite orb_false_r].
Qed.

Lemma sigdelset_spec (s signum : Z) (st : kernel) :
  level st = INTR_ON ->
  valid_set cfg s ->
  0 <= signum < NUM_SIGNAL cfg ->
  exists s',
    sigdelset NDEBUG cfg (Some s) signum st = Ret (0, Some s', st)
    /\ valid_set cfg s'
    /\ (forall i, 0 <= i -> Z.testbit s' i = Z.testbit s i && negb (i =? signum))
    /\ (Z.testbit s signum = false -> s' = s).
Proof.
  intros Hon Hv Hs. eexists. split; [by apply sigdelset_unfold|].
  set (s' := to_sigset cfg (Z.land s (Z.lnot (Z.shiftl 1 signum)))).
  assert (Hb : forall i, 0 <= i -> Z.testbit s' i = Z.testbit s i && negb (i =? signum)).
  { intros i Hi. by apply deleted_bits. }
  assert (Hv' : valid_set cfg s').
  { apply to_sigset_valid. intros i Hi. pose proof (num_signal_pos cfg cfg_ok).
    fold s'. rewrite Hb by lia. by rewrite (valid_set_bits s i Hv Hi). }
  split; [exact Hv'|]. split; [exact Hb|].
  intros Hclr. apply Z.bits_inj'. intros i Hi. rewrite Hb by lia.
  destruct (Z.eqb_spec i signum) as [->|]; [by rewrite Hclr|by rewrite andb_true_r].
Qed.

(** X1: [sigaddset] and [sigdelset] with a signal number of the range
    return 0 and leave the kernel as it was; the first adds exactly bit
    [signum] to the set, the second removes exactly that bit, and the
    set stays within the valid bits, where [sigprocmask] accepts it. *)
Theorem X1_sigaddset_sigdelset_bits (s signum : Z) (st : kernel) :
  level st = INTR_ON ->
  valid_set cfg s ->
  0 <= signum < NUM_SIGNAL cfg ->
  (exists s',
     sigaddset NDEBUG cfg (Some s) signum st = Ret (0, Some s', st)
     /\ valid_set cfg s'
     /\ (forall i, 0 <= i -> Z.testbit s' i = Z.testbit s i || (i =? signum)))
  /\ (exists s',
     sigdelset NDEBUG cfg (Some s) signum st = Ret (0, Some s', st)
     /\ valid_set cfg s'
     /\ (forall i, 0 <= i -> Z.testbit s' i = Z.testbit s i && negb (i =? signum))).
Proof.
  intros Hon Hv Hs. split.
  - destruct (sigaddset_spec s signum st Hon Hv Hs) as (s' & H1 & H2 & H3 & _).
    by exists s'.
  - destruct (sigdelset_spec s signum st Hon Hv Hs) as (s' & H1 & H2 & H3 & _).
    by exists s'.
Qed.

(** X2: adding a signal to a set that lacks it and deleting it again
    gives the set back, and so does deleting a signal that the set
    holds and adding it again. *)
Theorem X2_sigaddset_sigdelset_round_trip (s signum : Z) (st : kernel) :
  level st = INTR_ON ->
  valid_set cfg s ->
  0 <= signum < NUM_SIGNAL cfg ->
  (Z.testbit s signum = false ->
     exists s1, sigaddset NDEBUG cfg (Some s) signum st = Ret (0, Some s1, st)
       /\ Z.testbit s1 signum = true
       /\ sigdelset NDEBUG cfg (Some s1) signum st = Ret (0, Some s, st))
  /\ (Z.testbit s signum = true ->
     exists s1, sigdelset NDEBUG cfg (Some s) signum st = Ret (0, Some s1, st)
       /\ Z.testbit s1 signum = false
       /\ sigaddset NDEBUG cfg (Some s1) signum st = Ret (0, Some s, st)).
Proof.
  intros Hon Hv Hs. split; intros Hbit.
  - destruct (sigaddset_spec s signum st Hon Hv Hs) as (s1 & Ha & Hv1 & Hb1 & _).
    exists s1. split; [exact Ha|]. split.
    { rewrite Hb1 by lia. by rewrite Z.eqb_refl, orb_true_r. }
    destruct (sigdelset_spec s1 signum st Hon Hv1 Hs) as (s2 & Hd & _ & Hb2 & _).
    rewrite Hd. assert (s2 = s) as ->; [|reflexivity].
    apply Z.bits_inj'. intros i Hi. rewrite Hb2, Hb1 by lia.
    destruct (Z.eqb_spec i signum) as [->|]; simpl.
    + by rewrite Hbit.
    + by rewrite orb_false_r, andb_true_r.
  - destruct (sigdelset_spec s signum st Hon Hv Hs) as (s1 & Hd & Hv1 & Hb1 & _).
    exists s1. split; [exact Hd|]. split.
    { rewrite Hb1 by lia. by rewrite Z.eqb_refl, andb_false_r. }
    destruct (sigaddset_spec s1 signum st Hon Hv1 Hs) as (s2 & Ha & _ & Hb2 & _).
    rewrite Ha. assert (s2 = s) as ->; [|reflexivity].
    apply Z.bits_inj'. intros i Hi. rewrite Hb2, Hb1 by lia.
    destruct (Z.eqb_spec i signum) as [->|]; simpl.
    + by rewrite Hbit.
    + by rewrite orb_false_r, andb_true_r.
Qed.

(** X3: the builders reject a null set, and [sigaddset] and [sigdelset]
    a signal number at or above NUM_SIGNAL, with -1 before the interrupt
    level is looked at; nothing changes. A negative signal number passes
    the test: the shift by it is undefined. *)
Theorem X3_set_builders_invalid (set : option Z) (signum : Z) (st : kernel) :
  (set = None ->
     sigemptyset NDEBUG set st = Ret (-1, None, st)
     /\ sigfillset NDEBUG cfg set st = Ret (-1, None, st)
     /\ sigaddset NDEBUG cfg set signum st = Ret (-1, None, st)
     /\ sigdelset NDEBUG cfg set signum st = Ret (-1, None, st))
  /\ (NUM_SIGNAL cfg <= signum ->
     sigaddset NDEBUG cfg set signum st = Ret (-1, set, st)
     /\ sigdelset NDEBUG cfg set signum st = Ret (-1, set, st))
  /\ (signum < 0 -> level st = INTR_ON -> forall s, set = Some s ->
     sigaddset NDEBUG cfg set signum st = Undef
     /\ sigdelset NDEBUG cfg set signum st = Undef).
Proof.
  split; [|split].
  - intros ->. by repeat split.
  - intros Hs. unfold sigaddset, sigdelset. destruct set as [s|]; [|by split].
    destruct (Z.geb_spec signum (NUM_SIGNAL cfg)); [by split|lia].
  - intros Hneg Hon s ->. unfold sigaddset, sigdelset.
    pose proof (num_signal_pos cfg cfg_ok).
    destruct (Z.geb_spec signum (NUM_SIGNAL cfg)); [lia|].
    destruct (builder_level st Hon) as [-> _]. simpl.
    unfold int_shl1. destruct (Z.leb_spec 0 signum); [lia|]. by split.
Qed.

End Builders.

Lemma with_mask_id (cur : thread) (st : kernel) :
  threads st !! running st = Some cur -> with_mask (mask cur) cur st = st.
Proof.
  intros H. unfold with_mask, set_threads.
  assert (set_mask (mask cur) cur = cur) as -> by (by destruct cur).
  rewrite insert_id by exact H. by destruct st.
Qed.

Lemma with_mask_twice (m1 m2 : Z) (cur : thread) (st : kernel) :
  with_mask m2 (set_mask m1 cur) (with_mask m1 cur st) = with_mask m2 cur st.
Proof.
  unfold with_mask, set_threads. simpl. by rewrite insert_insert_eq.
Qed.

Lemma with_mask_running (m : Z) (cur : thread) (st : kernel) :
  threads (with_mask m cur st) !! running (with_mask m cur st) = Some (set_mask m cur).
Proof. apply lookup_insert_eq. Qed.

Section MaskOps.

Variable NDEBUG : bool.
Variable cfg : sigconfig.
Hypothesis cfg_ok : sigconfig_ok cfg.

(** X4: a mask changed by [sigprocmask] with a non-null [oldset] is put
    back by [sigprocmask (SIG_SETMASK, oldset, NULL)]: the kernel is
    again as it was before the first call. *)
Theorem X4_sigprocmask_restore (how s o : Z) (st : kernel) (cur : thread) :
  level st = INTR_ON ->
  threads st !! running st = Some cur ->
  valid_set cfg (mask cur) ->
  valid_set cfg s ->
  how = SIG_BLOCK \/ how = SIG_UNBLOCK \/ how = SIG_SETMASK ->
  exists st1,
    sigprocmask NDEBUG cfg how (Some s) (Some o) st = Ret (0, Some (mask cur), st1)
    /\ sigprocmask NDEBUG cfg SIG_SETMASK (Some (mask cur)) None st1 = Ret (0, None, st).
Proof.
  intros Hon Hcur [Hm0 Hm1] [Hs0 Hs1] Hhow.
  rewrite (sigprocmask_unfold NDEBUG cfg cfg_ok how (Some s) (Some o) st cur Hon Hcur).
  destruct (Z.geb_spec s (2 ^ NUM_SIGNAL cfg)); [lia|].
  assert (Hback : forall m,
    sigprocmask NDEBUG cfg SIG_SETMASK (Some (mask cur)) None (with_mask m cur st)
    = Ret (0, None, st)).
  { intros m.
    rewrite (sigprocmask_unfold NDEBUG cfg cfg_ok SIG_SETMASK (Some (mask cur)) None
               (with_mask m cur st) (set_mask m cur) Hon (with_mask_running m cur st)).
    destruct (Z.geb_spec (mask cur) (2 ^ NUM_SIGNAL cfg)); [lia|].
    simpl. by rewrite with_mask_twice, with_mask_id. }
  destruct Hhow as [-> | [-> | ->]]; simpl; eexists; (split; [reflexivity|apply Hback]).
Qed.

(** The two values of [enum sighandler_t], as the bit of the mask. *)
Lemma handler_of_bit (b : bool) (h : Z) :
  h = SIG_DFL cfg \/ h = SIG_IGN cfg ->
  ((if b then SIG_IGN cfg else SIG_DFL cfg) =? h) = false ->
  (if negb b then SIG_IGN cfg else SIG_DFL cfg) = h.
Proof.
  intros Hh Hne. apply Z.eqb_neq in Hne.
  destruct b, Hh as [-> | ->]; simpl; congruence.
Qed.

(** X5: once [Signal (signum, h)] has been called with one of the two
    values of [enum sighandler_t], the next call of [Signal] for that
    signal returns [h]; and calling it with [h] again changes
    nothing. *)
Theorem X5_signal_reads_back (signum h : Z) (st : kernel) (cur : thread) :
  level st = INTR_ON ->
  threads st !! running st = Some cur ->
  0 <= mask cur < 2 ^ SIGSET_BITS cfg ->
  signum <> SIG_KILL cfg ->
  0 <= signum < 31 ->
  signum < SIGSET_BITS cfg ->
  h = SIG_DFL cfg \/ h = SIG_IGN cfg ->
  exists old st1,
    Signal NDEBUG cfg signum h st = Ret (old, st1)
    /\ (forall h', exists st2, Signal NDEBUG cfg signum h' st1 = Ret (h, st2))
    /\ Signal NDEBUG cfg signum h st1 = Ret (h, st1).
Proof.
  intros Hon Hcur Hm Hk Hs Hw Hh.
  pose proof (Signal_unfold NDEBUG cfg signum h st cur Hon Hcur Hk Hs) as HS.
  cbv zeta in HS. rewrite HS.
  destruct ((if Z.testbit (mask cur) signum then SIG_IGN cfg else SIG_DFL cfg) =? h)
    eqn:Hold.
  - apply Z.eqb_eq in Hold. eexists _, st. split; [reflexivity|].
    assert (Hany : forall h', exists st2, Signal NDEBUG cfg signum h' st = Ret (h, st2)).
    { intros h'.
      pose proof (Signal_unfold NDEBUG cfg signum h' st cur Hon Hcur Hk Hs) as HS'.
      cbv zeta in HS'. rewrite HS', Hold. by eexists. }
    split; [exact Hany|].
    rewrite HS, Hold. reflexivity.
  - set (m' := to_sigset cfg (Z.lxor (mask cur) (Z.shiftl 1 signum))).
    eexists _, (with_mask m' cur st). split; [reflexivity|].
    assert (Hbit : Z.testbit m' signum = negb (Z.testbit (mask cur) signum)).
    { unfold m'. rewrite (toggled_bits cfg) by lia.
      rewrite Z.eqb_refl. by destruct (Z.testbit (mask cur) signum). }
    assert (Hany : forall h', Signal NDEBUG cfg signum h' (with_mask m' cur st) =
              Ret (h, if h =? h' then with_mask m' cur st
                      else with_mask (to_sigset cfg (Z.lxor m' (Z.shiftl 1 signum)))
                             (set_mask m' cur) (with_mask m' cur st))).
    { intros h'.
      pose proof (Signal_unfold NDEBUG cfg signum h' (with_mask m' cur st)
                    (set_mask m' cur) Hon (with_mask_running m' cur st) Hk Hs) as HS'.
      cbv zeta in HS'. change (mask (set_mask m' cur)) with m' in HS'.
      rewrite Hbit in HS'.
      rewrite (handler_of_bit _ h Hh Hold) in HS'. exact HS'. }
    split.
    + intros h'. rewrite Hany. by eexists.
    + rewrite Hany, Z.eqb_refl. reflexivity.
Qed.

(** X6: [Signal] does not validate [handler]. With a value that is
    neither SIG_DFL nor SIG_IGN the handler never equals the previous
    choice, so every call toggles the mask bit: the first call inverts
    the choice, the second one puts the kernel back as it was. *)
Theorem X6_signal_unchecked_handler (signum h : Z) (st : kernel) (cur : thread) :
  level st = INTR_ON ->
  threads st !! running st = Some cur ->
  0 <= mask cur < 2 ^ SIGSET_BITS cfg ->
  signum <> SIG_KILL cfg ->
  0 <= signum < 31 ->
  signum < SIGSET_BITS cfg ->
  h <> SIG_DFL cfg -> h <> SIG_IGN cfg ->
  let old := if Z.testbit (mask cur) signum then SIG_IGN cfg else SIG_DFL cfg in
  let new := if Z.testbit (mask cur) signum then SIG_DFL cfg else SIG_IGN cfg in
  exists st1 cur1,
    Signal NDEBUG cfg signum h st = Ret (old, st1)
    /\ threads st1 !! running st1 = Some cur1
    /\ Z.testbit (mask cur1) signum = negb (Z.testbit (mask cur) signum)
    /\ Signal NDEBUG cfg signum h st1 = Ret (new, st).
Proof.
  intros Hon Hcur Hm Hk Hs Hw Hd Hi old new.
  pose proof (Signal_unfold NDEBUG cfg signum h st cur Hon Hcur Hk Hs) as HS.
  cbv zeta in HS. fold old in HS.
  assert (Hold : (old =? h) = false).
  { apply Z.eqb_neq. unfold old. destruct (Z.testbit (mask cur) signum); congruence. }
  rewrite Hold in HS.
  set (m' := to_sigset cfg (Z.lxor (mask cur) (Z.shiftl 1 signum))) in *.
  assert (Hm' : 0 <= m' < 2 ^ SIGSET_BITS cfg).
  { unfold m', to_sigset. apply Z.mod_pos_bound, Z.pow_pos_nonneg; lia. }
  assert (Hbits : forall i, 0 <= i ->
            Z.testbit m' i = xorb (Z.testbit (mask cur) i) (i =? signum)).
  { intros i Hi0. unfold m'. apply (toggled_bits cfg); lia. }
  assert (Hbit : Z.testbit m' signum = negb (Z.testbit (mask cur) signum)).
  { rewrite Hbits by lia. rewrite Z.eqb_refl.
    by destruct (Z.testbit (mask cur) signum). }
  exists (with_mask m' cur st), (set_mask m' cur).
  split; [exact HS|]. split; [apply with_mask_running|]. split; [exact Hbit|].
  pose proof (Signal_unfold NDEBUG cfg signum h (with_mask m' cur st)
                (set_mask m' cur) Hon (with_mask_running m' cur st) Hk Hs) as HS'.
  cbv zeta in HS'. change (mask (set_mask m' cur)) with m' in HS'.
  rewrite Hbit in HS'.
  assert (Hnew : (if negb (Z.testbit (mask cur) signum) then SIG_IGN cfg else SIG_DFL cfg)
                 = new).
  { unfold new. by destruct (Z.testbit (mask cur) signum). }
  rewrite Hnew in HS'.
  assert (Hnew' : (new =? h) = false).
  { apply Z.eqb_neq. unfold new. destruct (Z.testbit (mask cur) signum); congruence. }
  rewrite Hnew' in HS'. rewrite HS'.
  assert (to_sigset cfg (Z.lxor m' (Z.shiftl 1 signum)) = mask cur) as ->.
  { apply Z.bits_inj'. intros i Hi0.
    rewrite (toggled_bits cfg) by lia. rewrite Hbits by lia.
    by destruct (Z.testbit (mask cur) i), (i =? signum). }
  by rewrite with_mask_twice, with_mask_id.
Qed.

(** X7: ignoring a signal is blocking it. For a signal number of the
    range other than SIG_KILL, [Signal (signum, SIG_IGN)] leaves the
    kernel in the state that [sigprocmask (SIG_BLOCK, {signum}, NULL)]
    leaves it in, and [Signal (signum, SIG_DFL)] in that of
    [sigprocmask (SIG_UNBLOCK, {signum}, NULL)]. *)
Theorem X7_signal_is_sigprocmask (signum : Z) (st : kernel) (cur : thread) :
  level st = INTR_ON ->
  threads st !! running st = Some cur ->
  valid_set cfg (mask cur) ->
  signum <> SIG_KILL cfg ->
  0 <= signum < NUM_SIGNAL cfg ->
  let set := Z.shiftl 1 signum in
  (exists old st1,
     Signal NDEBUG cfg signum (SIG_IGN cfg) st = Ret (old, st1)
     /\ sigprocmask NDEBUG cfg SIG_BLOCK (Some set) None st = Ret (0, None, st1))
  /\ (exists old st1,
     Signal NDEBUG cfg signum (SIG_DFL cfg) st = Ret (old, st1)
     /\ sigprocmask NDEBUG cfg SIG_UNBLOCK (Some set) None st = Ret (0, None, st1)).
Proof.
  intros Hon Hcur Hv Hk Hs set.
  pose proof (num_signal_pos cfg cfg_ok). pose proof (num_signal_int cfg cfg_ok).
  pose proof (num_signal_set cfg cfg_ok). pose proof (sig_handlers cfg cfg_ok) as Hne.
  pose proof (valid_set_sigset cfg cfg_ok _ Hv) as Hm.
  assert (Hset : (set >=? 2 ^ NUM_SIGNAL cfg) = false).
  { unfold set. rewrite Z.shiftl_1_l.
    destruct (Z.geb_spec (2 ^ signum) (2 ^ NUM_SIGNAL cfg)) as [Hge|]; [|reflexivity].
    assert (2 ^ signum < 2 ^ NUM_SIGNAL cfg) by (apply Z.pow_lt_mono_r; lia). lia. }
  assert (Hbits : forall i, 0 <= i ->
            Z.testbit (to_sigset cfg (Z.lxor (mask cur) set)) i
            = xorb (Z.testbit (mask cur) i) (i =? signum)).
  { intros i Hi0. apply (toggled_bits cfg); lia. }
  split.
  - pose proof (Signal_unfold NDEBUG cfg signum (SIG_IGN cfg) st cur Hon Hcur Hk
                  ltac:(lia)) as HS.
    cbv zeta in HS. rewrite HS.
    rewrite (sigprocmask_unfold NDEBUG cfg cfg_ok SIG_BLOCK (Some set) None st cur Hon Hcur).
    rewrite Hset. simpl.
    destruct (Z.testbit (mask cur) signum) eqn:Hbit.
    + rewrite Z.eqb_refl. eexists _, st. split; [reflexivity|].
      assert (Z.lor (mask cur) set = mask cur) as ->.
      { apply Z.bits_inj'. intros i Hi0. unfold set.
        rewrite Z.lor_spec, pow2_bit by lia.
        destruct (Z.eqb_spec i signum) as [->|]; [by rewrite Hbit|by rewrite orb_false_r]. }
      by rewrite with_mask_id.
    + destruct (Z.eqb_spec (SIG_DFL cfg) (SIG_IGN cfg)); [contradiction|].
      eexists _, _. split; [reflexivity|].
      assert (to_sigset cfg (Z.lxor (mask cur) (Z.shiftl 1 signum)) = Z.lor (mask cur) set)
        as ->; [|reflexivity].
      apply Z.bits_inj'. intros i Hi0. fold set. rewrite Hbits by lia.
      unfold set. rewrite Z.lor_spec, pow2_bit by lia.
      destruct (Z.eqb_spec i signum) as [->|]; [by rewrite Hbit|].
      by rewrite xorb_false_r, orb_false_r.
  - pose proof (Signal_unfold NDEBUG cfg signum (SIG_DFL cfg) st cur Hon Hcur Hk
                  ltac:(lia)) as HS.
    cbv zeta in HS. rewrite HS.
    rewrite (sigprocmask_unfold NDEBUG cfg cfg_ok SIG_UNBLOCK (Some set) None st cur Hon Hcur).
    rewrite Hset. simpl.
    assert (Hcleared : forall i, 0 <= i ->
              Z.testbit (Z.land (mask cur) (Z.lxor (Z.ones (NUM_SIGNAL cfg)) set)) i
              = Z.testbit (mask cur) i && negb (i =? signum)).
    { intros i Hi0. unfold set. rewrite Z.land_spec, Z.lxor_spec, pow2_bit by lia.
      destruct (Z.ltb_spec i (NUM_SIGNAL cfg)).
      - rewrite Z.ones_spec_low by lia. by rewrite xorb_true_l.
      - rewrite (valid_set_bits cfg cfg_ok _ i Hv) by lia. reflexivity. }
    destruct (Z.testbit (mask cur) signum) eqn:Hbit.
    + destruct (Z.eqb_spec (SIG_IGN cfg) (SIG_DFL cfg)); [congruence|].
      eexists _, _. split; [reflexivity|].
      assert (to_sigset cfg (Z.lxor (mask cur) (Z.shiftl 1 signum))
              = Z.land (mask cur) (Z.lxor (Z.ones (NUM_SIGNAL cfg)) set))
        as ->; [|reflexivity].
      apply Z.bits_inj'. intros i Hi0. fold set. rewrite Hbits, Hcleared by lia.
      destruct (Z.eqb_spec i signum) as [->|]; [by rewrite Hbit|].
      by rewrite xorb_false_r, andb_true_r.
    + rewrite Z.eqb_refl. eexists _, st. split; [reflexivity|].
      assert (Z.land (mask cur) (Z.lxor (Z.ones (NUM_SIGNAL cfg)) set) = mask cur) as ->.
      { apply Z.bits_inj'. intros i Hi0. rewrite Hcleared by lia.
        destruct (Z.eqb_spec i signum) as [->|]; [by rewrite Hbit|by rewrite andb_true_r]. }
      by rewrite with_mask_id.
Qed.

End MaskOps.

Section Sends.

Variable NDEBUG : bool.
Variable cfg : sigconfig.

(** [kill], whatever the interrupt level is: the level found is the
    level restored. *)
Lemma kill_unfold_any (tid sig : Z) (st : kernel) :
  kill NDEBUG cfg tid sig st =
  if (sig =? SIG_CHLD cfg) || (sig =? SIG_CPU cfg) || (tid <=? 2) then Ret (-1, st)
  else do _ <- ASSERT NDEBUG (intr_on st); kill_accepted cfg tid sig st.
Proof.
  unfold kill, kill_accepted.
  destruct ((sig =? SIG_CHLD cfg) || (sig =? SIG_CPU cfg) || (tid <=? 2)); [reflexivity|].
  destruct (ASSERT NDEBUG (intr_on st)) as [[]| |]; [|reflexivity|reflexivity].
  cbn [obind]. unfold intr_disable, thread_lookup.
  change (threads (intr_set_level INTR_OFF st)) with (threads st).
  change (running (intr_set_level INTR_OFF st)) with (running st).
  change (to_unblock_list (intr_set_level INTR_OFF st)) with (to_unblock_list st).
  destruct (threads st !! tid) as [x|]; [|by rewrite restore_level].
  destruct (if negb (sig =? SIG_KILL cfg)
            then do sh <- sigset_shr (mask x) sig; Ret (Z.land sh 1 =? 1)
            else Ret false) as [[|]| |]; simpl; try reflexivity.
  - by rewrite restore_level.
  - destruct (sig =? SIG_UBLOCK cfg).
    + destruct (status x); by rewrite ?restore_level_unblock, ?restore_level.
    + destruct ((sig =? SIG_KILL cfg) && negb (ptid x =? running st)).
      * by rewrite restore_level.
      * destruct (if 0 <=? sig then of_option (signals x !! Z.to_nat sig) else Undef)
          as [slot| |]; reflexivity.
Qed.

Lemma kill_cases (tid sig r : Z) (st st' : kernel) :
  kill NDEBUG cfg tid sig st = Ret (r, st') -> kill_case cfg tid sig st r st'.
Proof.
  rewrite kill_unfold_any.
  destruct ((sig =? SIG_CHLD cfg) || (sig =? SIG_CPU cfg) || (tid <=? 2)).
  { intros [= <- <-]. constructor. }
  destruct (ASSERT NDEBUG (intr_on st)) as [[]| |]; [|discriminate|discriminate].
  cbn [obind]. unfold kill_accepted.
  destruct (threads st !! tid) as [x|] eqn:Hx; [|intros [= <- <-]; constructor].
  destruct (if negb (sig =? SIG_KILL cfg)
            then do sh <- sigset_shr (mask x) sig; Ret (Z.land sh 1 =? 1)
            else Ret false) as [[|]| |]; cbn [obind]; try discriminate.
  { intros [= <- <-]. constructor. }
  destruct (Z.eqb_spec sig (SIG_UBLOCK cfg)) as [Hu|_].
  { destruct (status x) eqn:Hst; intros [= <- <-];
      first [by eapply kill_unblocks|constructor]. }
  destruct ((sig =? SIG_KILL cfg) && negb (ptid x =? running st)).
  { intros [= <- <-]. constructor. }
  destruct (Z.leb_spec 0 sig) as [Hs|]; [|discriminate].
  destruct (signals x !! Z.to_nat sig) as [slot|] eqn:Hslot; [|discriminate].
  cbn [obind of_option].
  destruct (Z.eqb_spec (type slot) (-1)) as [Ht|Ht]; cbn [negb]; intros [= <- <-].
  - by eapply kill_pending.
  - by eapply kill_resent.
Qed.

(** X8: what [kill] leaves alone, whenever it returns. The interrupt
    level and the running thread are as before; a result of -1 means
    that nothing at all changed; every thread but the target is
    untouched, and the target keeps its parent, status and mask, the
    length of [signals] and every slot but that of [sig]; its queue and
    the list of threads to unblock can only grow, by [sig] and by the
    target. *)
Theorem X8_kill_frame (tid sig r : Z) (st st' : kernel) :
  kill NDEBUG cfg tid sig st = Ret (r, st') ->
  (r = 0 \/ r = -1)
  /\ (r = -1 -> st' = st)
  /\ level st' = level st
  /\ running st' = running st
  /\ (forall t, t <> tid -> threads st' !! t = threads st !! t)
  /\ (threads st !! tid = None -> threads st' !! tid = None)
  /\ (forall x, threads st !! tid = Some x ->
        exists x', threads st' !! tid = Some x'
          /\ ptid x' = ptid x /\ status x' = status x /\ mask x' = mask x
          /\ length (signals x') = length (signals x)
          /\ (forall i, i <> Z.to_nat sig -> signals x' !! i = signals x !! i)
          /\ (signals_queue x' = signals_queue x
              \/ signals_queue x' = signals_queue x ++ [sig]))
  /\ (to_unblock_list st' = to_unblock_list st
      \/ to_unblock_list st' = to_unblock_list st ++ [tid]).
Proof.
  intros H. apply kill_cases in H.
  destruct H as [| |x Hx Hu Hst|x slot Hx Hs Hslot Ht|x slot Hx Hs Hslot Ht].
  - split; [by right|]. split; [done|]. split; [done|]. split; [done|].
    split; [done|]. split; [done|]. split; [|by left].
    intros x Hx. exists x. split_and!; try done. by left.
  - split; [by left|]. split; [done|]. split; [done|]. split; [done|].
    split; [done|]. split; [done|]. split; [|by left].
    intros x Hx. exists x. split_and!; try done. by left.
  - split; [by left|]. split; [done|]. split; [done|]. split; [done|].
    split; [done|]. split; [done|]. split; [|by right].
    intros x0 Hx0. exists x0. split_and!; try done. by left.
  - split; [by left|]. split; [done|]. split; [done|]. split; [done|].
    split; [intros t Ht'; by apply lookup_insert_ne|].
    split; [by rewrite Hx|]. split; [|by left].
    intros x0 Hx0. rewrite Hx in Hx0. injection Hx0 as <-.
    eexists. split; [apply lookup_insert_eq|]. simpl.
    split_and!; try done.
    + by rewrite length_insert.
    + intros i Hi. by apply list_lookup_insert_ne.
    + by left.
  - split; [by left|]. split; [done|]. split; [done|]. split; [done|].
    split; [intros t Ht'; by apply lookup_insert_ne|].
    split; [by rewrite Hx|]. split; [|by left].
    intros x0 Hx0. rewrite Hx in Hx0. injection Hx0 as <-.
    eexists. split; [apply lookup_insert_eq|]. simpl.
    split_and!; try done.
    + by rewrite length_insert.
    + intros i Hi. by apply list_lookup_insert_ne.
    + by right.
Qed.

(** X9: [kill] keeps the pending signals and the queue of every thread
    in step: when, before the call, the queue of each thread holds the
    numbers of its occupied slots, once each, it does so after the
    call. *)
Theorem X9_kill_keeps_queue (tid sig r : Z) (st st' : kernel) :
  kill NDEBUG cfg tid sig st = Ret (r, st') ->
  (forall t x, threads st !! t = Some x -> queue_ok x) ->
  forall t x', threads st' !! t = Some x' -> queue_ok x'.
Proof.
  intros H Hok t x' Hx'. apply kill_cases in H.
  destruct H as [| |x Hx Hu Hst|x slot Hx Hs Hslot Ht|x slot Hx Hs Hslot Ht];
    try (by eapply Hok).
  - simpl in Hx'. destruct (decide (t = tid)) as [->|Hne];
      [|rewrite lookup_insert_ne in Hx' by done; by eapply Hok].
    rewrite lookup_insert_eq in Hx'. injection Hx' as <-.
    destruct (Hok tid x Hx) as [Hnd Hq]. split; [exact Hnd|].
    intros s. simpl. rewrite Hq.
    destruct (decide (Z.to_nat s = Z.to_nat sig)) as [E|Hne].
    + rewrite E, Hslot.
      rewrite list_lookup_insert_eq by (by eapply lookup_lt_Some).
      split; intros (Hs0 & sl & [= <-] & Hty); (split; [exact Hs0|]);
        eexists; (split; [reflexivity|]); done.
    + by rewrite list_lookup_insert_ne.
  - simpl in Hx'. destruct (decide (t = tid)) as [->|Hne];
      [|rewrite lookup_insert_ne in Hx' by done; by eapply Hok].
    rewrite lookup_insert_eq in Hx'. injection Hx' as <-.
    destruct (Hok tid x Hx) as [Hnd Hq].
    assert (Hfresh : sig ∉ signals_queue x).
    { intros Hin. apply Hq in Hin as (_ & sl & Hsl & Hty).
      rewrite Hslot in Hsl. injection Hsl as <-. contradiction. }
    split; simpl.
    + apply NoDup_app. split; [exact Hnd|]. split.
      * intros y Hy Hy'. apply list_elem_of_singleton in Hy'. by subst y.
      * apply NoDup_singleton.
    + intros s. rewrite elem_of_app, list_elem_of_singleton, Hq.
      destruct (decide (s = sig)) as [->|Hne].
      * rewrite list_lookup_insert_eq by (by eapply lookup_lt_Some).
        split; [|by right]. intros _. split; [exact Hs|].
        eexists. split; [reflexivity|]. simpl. lia.
      * split.
        -- intros [(Hs0 & sl & Hsl & Hty)|]; [|contradiction].
           split; [exact Hs0|]. exists sl. split; [|exact Hty].
           rewrite list_lookup_insert_ne by lia. exact Hsl.
        -- intros (Hs0 & sl & Hsl & Hty). left. split; [exact Hs0|].
           exists sl. split; [|exact Hty].
           rewrite list_lookup_insert_ne in Hsl by lia. exact Hsl.
Qed.

End Sends.

Section WholeSets.

Variable NDEBUG : bool.
Variable cfg : sigconfig.
Hypothesis cfg_ok : sigconfig_ok cfg.

Lemma sig_kill_not_internal :
  SIG_KILL cfg <> SIG_CHLD cfg /\ SIG_KILL cfg <> SIG_CPU cfg.
Proof.
  pose proof (sig_distinct cfg cfg_ok) as H.
  rewrite !NoDup_cons, !elem_of_cons in H.
  split; intros E; rewrite E in H; tauto.
Qed.

Lemma full_set_bits (i : Z) :
  0 <= i ->
  Z.testbit (to_sigset cfg (Z.shiftl 1 (NUM_SIGNAL cfg) - 1)) i = (i <? NUM_SIGNAL cfg).
Proof.
  intros Hi. pose proof (num_signal_pos cfg cfg_ok). pose proof (num_signal_set cfg cfg_ok).
  rewrite (to_sigset_bits cfg cfg_ok) by lia. rewrite ones_shiftl.
  destruct (Z.ltb_spec i (NUM_SIGNAL cfg)).
  - rewrite Z.ones_spec_low by lia. destruct (Z.ltb_spec i (SIGSET_BITS cfg)); [reflexivity|lia].
  - rewrite Z.ones_spec_high by lia. apply andb_false_r.
Qed.

Lemma sigfillset_unfold (s0 : Z) (st : kernel) :
  level st = INTR_ON ->
  sigfillset NDEBUG cfg (Some s0) st
  = Ret (0, Some (to_sigset cfg (Z.shiftl 1 (NUM_SIGNAL cfg) - 1)), st).
Proof.
  intros Hon. unfold sigfillset.
  pose proof (num_signal_pos cfg cfg_ok). pose proof (num_signal_int cfg cfg_ok).
  destruct (builder_level NDEBUG st Hon) as [-> Hr]. simpl.
  rewrite int_shl1_ok by lia. simpl. by rewrite Hr.
Qed.

(** X10: [sigfillset] yields the set of all the signal numbers, which
    [sigprocmask] accepts; once the running thread has blocked that
    set, a [kill] aimed at it with any signal other than SIG_KILL
    leaves the kernel as it is, whoever sends it, while a SIG_KILL from
    its parent is still recorded in its slot. *)
Theorem X10_sigfillset_blocks_all (s0 : Z) (st : kernel) (cur : thread) :
  level st = INTR_ON ->
  threads st !! running st = Some cur ->
  exists full st1,
    sigfillset NDEBUG cfg (Some s0) st = Ret (0, Some full, st)
    /\ valid_set cfg full
    /\ (forall i, 0 <= i -> Z.testbit full i = (i <? NUM_SIGNAL cfg))
    /\ sigprocmask NDEBUG cfg SIG_BLOCK (Some full) None st = Ret (0, None, st1)
    /\ (forall sender sig, 0 <= sig < NUM_SIGNAL cfg -> sig <> SIG_KILL cfg ->
          exists r, kill NDEBUG cfg (running st) sig (switch_to sender st1)
                    = Ret (r, switch_to sender st1))
    /\ (forall slot, 2 < running st ->
          signals cur !! Z.to_nat (SIG_KILL cfg) = Some slot ->
          exists st2 x2 slot2,
            kill NDEBUG cfg (running st) (SIG_KILL cfg) (switch_to (ptid cur) st1)
            = Ret (0, st2)
            /\ threads st2 !! running st = Some x2
            /\ signals x2 !! Z.to_nat (SIG_KILL cfg) = Some slot2
            /\ type slot2 <> -1 /\ sent_by slot2 = ptid cur).
Proof.
  intros Hon Hcur.
  pose proof (num_signal_pos cfg cfg_ok). pose proof (num_signal_int cfg cfg_ok).
  set (full := to_sigset cfg (Z.shiftl 1 (NUM_SIGNAL cfg) - 1)).
  assert (Hbits : forall i, 0 <= i -> Z.testbit full i = (i <? NUM_SIGNAL cfg)).
  { intros i Hi. by apply full_set_bits. }
  assert (Hv : valid_set cfg full).
  { apply (to_sigset_valid cfg cfg_ok). intros i Hi. fold full.
    rewrite Hbits by lia. destruct (Z.ltb_spec i (NUM_SIGNAL cfg)); [lia|reflexivity]. }
  set (m := Z.lor (mask cur) full).
  exists full, (with_mask m cur st).
  split; [by apply sigfillset_unfold|]. split; [exact Hv|]. split; [exact Hbits|].
  split.
  { rewrite (sigprocmask_unfold NDEBUG cfg cfg_ok SIG_BLOCK (Some full) None st cur Hon Hcur).
    destruct Hv. destruct (Z.geb_spec full (2 ^ NUM_SIGNAL cfg)); [lia|]. reflexivity. }
  assert (Htarget : forall sender,
            threads (switch_to sender (with_mask m cur st)) !! running st
            = Some (set_mask m cur)).
  { intros sender. apply lookup_insert_eq. }
  split.
  - intros sender sig Hsig Hk.
    rewrite (kill_unfold NDEBUG cfg) by exact Hon.
    destruct ((sig =? SIG_CHLD cfg) || (sig =? SIG_CPU cfg) || (running st <=? 2));
      [by eexists|].
    unfold kill_accepted. rewrite Htarget.
    destruct (Z.eqb_spec sig (SIG_KILL cfg)); [contradiction|]. cbn [negb].
    rewrite sigset_shr_ok by lia. cbn [obind].
    rewrite mask_bit_test by lia.
    change (mask (set_mask m cur)) with m. unfold m.
    rewrite Z.lor_spec, Hbits by lia.
    destruct (Z.ltb_spec sig (NUM_SIGNAL cfg)); [|lia].
    rewrite orb_true_r. by eexists.
  - intros slot Htid Hslot.
    destruct sig_kill_not_internal as [Hc Hp].
    pose proof (sig_kill_range cfg cfg_ok) as Hkr.
    rewrite (kill_unfold NDEBUG cfg) by exact Hon.
    destruct (Z.eqb_spec (SIG_KILL cfg) (SIG_CHLD cfg)); [contradiction|].
    destruct (Z.eqb_spec (SIG_KILL cfg) (SIG_CPU cfg)); [contradiction|].
    destruct (Z.leb_spec (running st) 2); [lia|]. cbn [orb].
    unfold kill_accepted. rewrite Htarget. rewrite Z.eqb_refl. cbn [negb obind].
    destruct (Z.eqb_spec (SIG_KILL cfg) (SIG_UBLOCK cfg)) as [E|_];
      [by apply (sig_kill_not_ublock cfg cfg_ok) in E|].
    change (ptid (set_mask m cur)) with (ptid cur).
    change (running (switch_to (ptid cur) (with_mask m cur st))) with (ptid cur).
    rewrite Z.eqb_refl. cbn [negb andb].
    destruct (Z.leb_spec 0 (SIG_KILL cfg)); [|lia].
    change (signals (set_mask m cur)) with (signals cur). rewrite Hslot.
    cbn [of_option obind].
    assert (Hlen : (Z.to_nat (SIG_KILL cfg) < length (signals cur))%nat)
      by (by eapply lookup_lt_Some).
    destruct (Z.eqb_spec (type slot) (-1)) as [Ht|Ht]; cbn [negb].
    + eexists _, _, _. split; [reflexivity|]. split; [apply lookup_insert_eq|].
      split; [apply list_lookup_insert_eq; exact Hlen|]. simpl. split; [lia|reflexivity].
    + eexists _, _, _. split; [reflexivity|]. split; [apply lookup_insert_eq|].
      split; [apply list_lookup_insert_eq; exact Hlen|]. simpl. split; [exact Ht|reflexivity].
Qed.

(** X11: [sigemptyset] yields the empty set, which is neutral for
    SIG_BLOCK and SIG_UNBLOCK: the kernel stays as it is. Installed
    with SIG_SETMASK it unblocks everything: [Signal] then reports
    SIG_DFL for every signal. *)
Theorem X11_sigemptyset_neutral (s0 : Z) (st : kernel) (cur : thread) :
  level st = INTR_ON ->
  threads st !! running st = Some cur ->
  valid_set cfg (mask cur) ->
  exists st1,
    sigemptyset NDEBUG (Some s0) st = Ret (0, Some 0, st)
    /\ sigprocmask NDEBUG cfg SIG_BLOCK (Some 0) None st = Ret (0, None, st)
    /\ sigprocmask NDEBUG cfg SIG_UNBLOCK (Some 0) None st = Ret (0, None, st)
    /\ sigprocmask NDEBUG cfg SIG_SETMASK (Some 0) None st = Ret (0, None, st1)
    /\ (forall signum, signum <> SIG_KILL cfg -> 0 <= signum < 31 ->
          Signal NDEBUG cfg signum (SIG_DFL cfg) st1 = Ret (SIG_DFL cfg, st1)).
Proof.
  intros Hon Hcur [Hm0 Hm1].
  pose proof (num_signal_pos cfg cfg_ok).
  exists (with_mask 0 cur st).
  assert (Hsmall : (0 >=? 2 ^ NUM_SIGNAL cfg) = false).
  { destruct (Z.geb_spec 0 (2 ^ NUM_SIGNAL cfg)) as [Hge|]; [|reflexivity].
    assert (0 < 2 ^ NUM_SIGNAL cfg) by (apply Z.pow_pos_nonneg; lia). lia. }
  split.
  { unfold sigemptyset. destruct (builder_level NDEBUG st Hon) as [-> Hr]. simpl.
    by rewrite Hr. }
  split.
  { rewrite (sigprocmask_unfold NDEBUG cfg cfg_ok SIG_BLOCK (Some 0) None st cur Hon Hcur).
    rewrite Hsmall. simpl. by rewrite Z.lor_0_r, with_mask_id. }
  split.
  { rewrite (sigprocmask_unfold NDEBUG cfg cfg_ok SIG_UNBLOCK (Some 0) None st cur Hon Hcur).
    rewrite Hsmall. simpl.
    rewrite Z.lxor_0_r, Z.land_ones, Z.mod_small by lia. by rewrite with_mask_id. }
  split.
  { rewrite (sigprocmask_unfold NDEBUG cfg cfg_ok SIG_SETMASK (Some 0) None st cur Hon Hcur).
    rewrite Hsmall. reflexivity. }
  intros signum Hk Hs.
  pose proof (Signal_unfold NDEBUG cfg signum (SIG_DFL cfg) (with_mask 0 cur st)
                (set_mask 0 cur) Hon (with_mask_running 0 cur st) Hk Hs) as HS.
  cbv zeta in HS. change (mask (set_mask 0 cur)) with 0 in HS.
  rewrite Z.bits_0, Z.eqb_refl in HS. exact HS.
Qed.

End WholeSets.

(** ** Instances on the example kernel *)

Lemma example_mask_valid : valid_set example_cfg (mask example_parent).
Proof. unfold valid_set. simpl. lia. Qed.

(** 5 is the set of SIG_CHLD and SIG_CPU; adding SIG_KILL gives 7. *)
Lemma X1_sigaddset_sigdelset_bits_witness :
  level example_kernel = INTR_ON
  /\ valid_set example_cfg 5
  /\ 0 <= 1 < NUM_SIGNAL example_cfg
  /\ exists s', sigaddset false example_cfg (Some 5) 1 example_kernel
                = Ret (0, Some s', example_kernel)
                /\ valid_set example_cfg s'.
Proof.
  assert (Hr : 0 <= 1 < NUM_SIGNAL example_cfg) by (simpl; lia).
  split; [reflexivity|]. split; [exact example_mask_valid|]. split; [exact Hr|].
  destruct (X1_sigaddset_sigdelset_bits false example_cfg example_cfg_ok 5 1 example_kernel
              eq_refl example_mask_valid Hr) as [(s' & Ha & Hv & _) _].
  exists s'. split; [exact Ha|exact Hv].
Defined.

Lemma X2_sigaddset_sigdelset_round_trip_witness :
  level example_kernel = INTR_ON
  /\ valid_set example_cfg 5
  /\ 0 <= 1 < NUM_SIGNAL example_cfg
  /\ Z.testbit 5 1 = false
  /\ exists s1, sigaddset false example_cfg (Some 5) 1 example_kernel
                = Ret (0, Some s1, example_kernel)
                /\ sigdelset false example_cfg (Some s1) 1 example_kernel
                   = Ret (0, Some 5, example_kernel).
Proof.
  assert (Hr : 0 <= 1 < NUM_SIGNAL example_cfg) by (simpl; lia).
  split; [reflexivity|]. split; [exact example_mask_valid|]. split; [exact Hr|].
  split; [reflexivity|].
  destruct (proj1 (X2_sigaddset_sigdelset_round_trip false example_cfg example_cfg_ok 5 1
                     example_kernel eq_refl example_mask_valid Hr) eq_refl)
    as (s1 & Ha & _ & Hd).
  exists s1. split; [exact Ha|exact Hd].
Defined.

(** 9 is not a signal number of [example_cfg]. *)
Lemma X3_set_builders_invalid_witness :
  sigconfig_ok example_cfg
  /\ NUM_SIGNAL example_cfg <= 9
  /\ sigaddset false example_cfg (Some 5) 9 example_kernel = Ret (-1, Some 5, example_kernel).
Proof.
  assert (Hr : NUM_SIGNAL example_cfg <= 9) by (simpl; lia).
  split; [exact example_cfg_ok|]. split; [exact Hr|].
  exact (proj1 (proj1 (proj2
    (X3_set_builders_invalid false example_cfg example_cfg_ok (Some 5) 9 example_kernel)) Hr)).
Defined.

(** The running thread blocks SIG_KILL, then restores the mask 5 that
    the first call reported. *)
Lemma X4_sigprocmask_restore_witness :
  level example_kernel = INTR_ON
  /\ threads example_kernel !! running example_kernel = Some example_parent
  /\ valid_set example_cfg (mask example_parent)
  /\ valid_set example_cfg 2
  /\ exists st1,
       sigprocmask false example_cfg SIG_BLOCK (Some 2) (Some 0) example_kernel
       = Ret (0, Some 5, st1)
       /\ sigprocmask false example_cfg SIG_SETMASK (Some 5) None st1
          = Ret (0, None, example_kernel).
Proof.
  assert (Hs : valid_set example_cfg 2) by (unfold valid_set; simpl; lia).
  split; [reflexivity|]. split; [reflexivity|]. split; [exact example_mask_valid|].
  split; [exact Hs|].
  exact (X4_sigprocmask_restore false example_cfg example_cfg_ok SIG_BLOCK 2 0
           example_kernel example_parent eq_refl eq_refl example_mask_valid Hs
           (or_introl eq_refl)).
Defined.

(** The running thread ignores SIG_USER; the next call reports SIG_IGN. *)
Lemma X5_signal_reads_back_witness :
  level example_kernel = INTR_ON
  /\ threads example_kernel !! running example_kernel = Some example_parent
  /\ 0 <= mask example_parent < 2 ^ SIGSET_BITS example_cfg
  /\ 4 <> SIG_KILL example_cfg
  /\ 0 <= 4 < 31
  /\ 4 < SIGSET_BITS example_cfg
  /\ exists old st1,
       Signal false example_cfg 4 (SIG_IGN example_cfg) example_kernel = Ret (old, st1)
       /\ exists st2, Signal false example_cfg 4 (SIG_DFL example_cfg) st1
                      = Ret (SIG_IGN example_cfg, st2).
Proof.
  assert (H1 : 0 <= mask example_parent < 2 ^ SIGSET_BITS example_cfg) by (simpl; lia).
  assert (H2 : 4 <> SIG_KILL example_cfg) by (simpl; lia).
  assert (H3 : 0 <= 4 < 31) by lia.
  assert (H4 : 4 < SIGSET_BITS example_cfg) by (simpl; lia).
  split; [reflexivity|]. split; [reflexivity|].
  split; [exact H1|]. split; [exact H2|]. split; [exact H3|]. split; [exact H4|].
  destruct (X5_signal_reads_back false example_cfg 4 (SIG_IGN example_cfg) example_kernel
              example_parent eq_refl eq_refl H1 H2 H3 H4 (or_intror eq_refl))
    as (old & st1 & HS & Hany & _).
  exists old, st1. split; [exact HS|]. exact (Hany (SIG_DFL example_cfg)).
Defined.

(** 7 is no value of [enum sighandler_t]: two calls toggle bit 4 of
    the mask twice. *)
Lemma X6_signal_unchecked_handler_witness :
  level example_kernel = INTR_ON
  /\ threads example_kernel !! running example_kernel = Some example_parent
  /\ 0 <= mask example_parent < 2 ^ SIGSET_BITS example_cfg
  /\ 4 <> SIG_KILL example_cfg
  /\ 0 <= 4 < 31
  /\ 4 < SIGSET_BITS example_cfg
  /\ 7 <> SIG_DFL example_cfg
  /\ 7 <> SIG_IGN example_cfg
  /\ exists st1,
       Signal false example_cfg 4 7 example_kernel = Ret (SIG_DFL example_cfg, st1)
       /\ Signal false example_cfg 4 7 st1 = Ret (SIG_IGN example_cfg, example_kernel).
Proof.
  assert (H1 : 0 <= mask example_parent < 2 ^ SIGSET_BITS example_cfg) by (simpl; lia).
  assert (H2 : 4 <> SIG_KILL example_cfg) by (simpl; lia).
  assert (H3 : 0 <= 4 < 31) by lia.
  assert (H4 : 4 < SIGSET_BITS example_cfg) by (simpl; lia).
  assert (H5 : 7 <> SIG_DFL example_cfg) by (simpl; lia).
  assert (H6 : 7 <> SIG_IGN example_cfg) by (simpl; lia).
  split; [reflexivity|]. split; [reflexivity|].
  split; [exact H1|]. split; [exact H2|]. split; [exact H3|]. split; [exact H4|].
  split; [exact H5|]. split; [exact H6|].
  destruct (X6_signal_unchecked_handler false example_cfg 4 7 example_kernel
              example_parent eq_refl eq_refl H1 H2 H3 H4 H5 H6)
    as (st1 & cur1 & HS & _ & _ & HS').
  exists st1. split; [exact HS|exact HS'].
Defined.

(** Ignoring SIG_USER and blocking the set 16 lead to the same kernel. *)
Lemma X7_signal_is_sigprocmask_witness :
  level example_kernel = INTR_ON
  /\ threads example_kernel !! running example_kernel = Some example_parent
  /\ valid_set example_cfg (mask example_parent)
  /\ 4 <> SIG_KILL example_cfg
  /\ 0 <= 4 < NUM_SIGNAL example_cfg
  /\ exists old st1,
       Signal false example_cfg 4 (SIG_IGN example_cfg) example_kernel = Ret (old, st1)
       /\ sigprocmask false example_cfg SIG_BLOCK (Some 16) None example_kernel
          = Ret (0, None, st1).
Proof.
  assert (H2 : 4 <> SIG_KILL example_cfg) by (simpl; lia).
  assert (H3 : 0 <= 4 < NUM_SIGNAL example_cfg) by (simpl; lia).
  split; [reflexivity|]. split; [reflexivity|]. split; [exact example_mask_valid|].
  split; [exact H2|]. split; [exact H3|].
  exact (proj1 (X7_signal_is_sigprocmask false example_cfg example_cfg_ok 4 example_kernel
                  example_parent eq_refl eq_refl example_mask_valid H2 H3)).
Defined.

(** The queues of the two threads of the example hold their pending
    signals. *)
Lemma example_queues_ok (t : Z) (x : thread) :
  threads example_kernel !! t = Some x -> queue_ok x.
Proof.
  intros H.
  assert (Hx : x = example_parent \/ x = example_child).
  { unfold example_kernel in H. simpl in H.
    destruct (decide (t = 3)) as [->|H3].
    - rewrite lookup_insert_eq in H. left. congruence.
    - rewrite lookup_insert_ne in H by done.
      destruct (decide (t = 4)) as [->|H4].
      + rewrite lookup_insert_eq in H. right. congruence.
      + rewrite lookup_insert_ne in H by done. by rewrite lookup_empty in H. }
  destruct Hx as [-> | ->]; (split; simpl).
  - apply NoDup_nil_2.
  - intros s. split; [intros Hs; by apply elem_of_nil in Hs|].
    intros (_ & slot & Hslot & Hty). exfalso. apply Hty.
    unfold no_signals in Hslot. apply lookup_replicate in Hslot as [-> _]. reflexivity.
  - apply NoDup_singleton.
  - intros s. rewrite list_elem_of_singleton. split.
    + intros ->. split; [lia|]. by exists (SigSlot 4 5).
    + intros (Hs & slot & Hslot & Hty).
      destruct (Z.to_nat s) as [|[|[|[|[|n]]]]] eqn:E; simpl in Hslot;
        first [ lia | discriminate | injection Hslot as <-; by destruct Hty ].
Qed.

Lemma example_resend :
  kill false example_cfg 4 4 example_kernel
  = Ret (0, set_threads
              (<[4 := with_sender 4 3 (SigSlot 4 5) example_child]> (threads example_kernel))
              example_kernel).
Proof. reflexivity. Qed.

(** The parent sends SIG_USER to the child: the parent is untouched. *)
Lemma X8_kill_frame_witness :
  kill false example_cfg 4 4 example_kernel
  = Ret (0, set_threads
              (<[4 := with_sender 4 3 (SigSlot 4 5) example_child]> (threads example_kernel))
              example_kernel)
  /\ threads (set_threads
                (<[4 := with_sender 4 3 (SigSlot 4 5) example_child]> (threads example_kernel))
                example_kernel) !! 3
     = threads example_kernel !! 3.
Proof.
  split; [exact example_resend|].
  destruct (X8_kill_frame false example_cfg 4 4 0 example_kernel _ example_resend)
    as (_ & _ & _ & _ & Hother & _).
  apply Hother. lia.
Defined.

Lemma X9_kill_keeps_queue_witness :
  kill false example_cfg 4 4 example_kernel
  = Ret (0, set_threads
              (<[4 := with_sender 4 3 (SigSlot 4 5) example_child]> (threads example_kernel))
              example_kernel)
  /\ (forall t x, threads example_kernel !! t = Some x -> queue_ok x)
  /\ queue_ok (with_sender 4 3 (SigSlot 4 5) example_child).
Proof.
  split; [exact example_resend|]. split; [exact example_queues_ok|].
  apply (X9_kill_keeps_queue false example_cfg 4 4 0 example_kernel _ example_resend
           example_queues_ok 4).
  apply lookup_insert_eq.
Defined.

(** With every signal blocked, SIG_USER sent by thread 9 to the running
    thread changes nothing. *)
Lemma X10_sigfillset_blocks_all_witness :
  level example_kernel = INTR_ON
  /\ threads example_kernel !! running example_kernel = Some example_parent
  /\ exists full st1,
       sigfillset false example_cfg (Some 0) example_kernel
       = Ret (0, Some full, example_kernel)
       /\ sigprocmask false example_cfg SIG_BLOCK (Some full) None example_kernel
          = Ret (0, None, st1)
       /\ exists r, kill false example_cfg 3 4 (switch_to 9 st1) = Ret (r, switch_to 9 st1).
Proof.
  split; [reflexivity|]. split; [reflexivity|].
  destruct (X10_sigfillset_blocks_all false example_cfg example_cfg_ok 0 example_kernel
              example_parent eq_refl eq_refl)
    as (full & st1 & Hf & _ & _ & Hm & Hk & _).
  exists full, st1. split; [exact Hf|]. split; [exact Hm|].
  apply (Hk 9 4); simpl; lia.
Defined.

Lemma X11_sigemptyset_neutral_witness :
  level example_kernel = INTR_ON
  /\ threads example_kernel !! running example_kernel = Some example_parent
  /\ valid_set example_cfg (mask example_parent)
  /\ sigemptyset false (Some 9) example_kernel = Ret (0, Some 0, example_kernel)
  /\ sigprocmask false example_cfg SIG_UNBLOCK (Some 0) None example_kernel
     = Ret (0, None, example_kernel).
Proof.
  split; [reflexivity|]. split; [reflexivity|]. split; [exact example_mask_valid|].
  destruct (X11_sigemptyset_neutral false example_cfg example_cfg_ok 9 example_kernel
              example_parent eq_refl eq_refl example_mask_valid)
    as (st1 & He & _ & Hu & _).
  split; [exact He|exact Hu].
Defined.

End SignalsProps.
